(** * Medical transcript pipeline: a shallow embedding of its core

    The development follows the Python sources of the pipeline:
    - [src/preprocessing.py]  (cleaning, speaker segmentation, validation),
    - [src/ner_extractor.py]  (entity categorisation),
    - [schemas.py]            (the three schema validators),
    - [src/llm_extractor.py]  (decoding of the generative model's answers),
    - [main.py]               (the run: reading the file, assembly of the
                               composite result, writing the result files).

    Text is modelled by [string]; the character-level functions ([is_space],
    [lower], [upper], word characters) are those of Python restricted to
    ASCII text.  The external models (entity recogniser, sentiment
    classifier, generative model) are not modelled: their answers are
    inputs of the functions below.  So are the outcomes of the file
    operations and what the regular-expression compiler makes of a filler
    that contains characters special to it. *)

From Stdlib Require Import Bool Arith Lia List Ascii String ZArith PrimFloat.
Import ListNotations.
Set Warnings "-register-all".
Open Scope string_scope.
Open Scope nat_scope.

(** ** Python [str] operations *)

Module PyStr.

Definition code (c : ascii) : nat := nat_of_ascii c.

(** [str.isspace] on one ASCII character; also the class [\s] of [re]. *)
Definition is_space (c : ascii) : bool :=
  let n := code c in
  ((9 <=? n) && (n <=? 13)) || ((28 <=? n) && (n <=? 32)).

Definition is_upper (c : ascii) : bool :=
  let n := code c in (65 <=? n) && (n <=? 90).

Definition is_lower (c : ascii) : bool :=
  let n := code c in (97 <=? n) && (n <=? 122).

Definition is_digit (c : ascii) : bool :=
  let n := code c in (48 <=? n) && (n <=? 57).

(** The class [\w] of [re]: letters, digits and the underscore. *)
Definition is_word (c : ascii) : bool :=
  is_upper c || is_lower c || is_digit c || (code c =? 95).

Definition lower_c (c : ascii) : ascii :=
  if is_upper c then ascii_of_nat (code c + 32) else c.

Definition upper_c (c : ascii) : ascii :=
  if is_lower c then ascii_of_nat (code c - 32) else c.

Fixpoint map_str (f : ascii -> ascii) (s : string) : string :=
  match s with
  | EmptyString => EmptyString
  | String c s' => String (f c) (map_str f s')
  end.

(** [s.lower()] and [s.upper()]. *)
Definition lower : string -> string := map_str lower_c.
Definition upper : string -> string := map_str upper_c.

(** [not s] for a string. *)
Definition is_empty (s : string) : bool :=
  match s with EmptyString => true | String _ _ => false end.

(** [s.lstrip()], [s.rstrip()] and [s.strip()]. *)
Fixpoint lstrip (s : string) : string :=
  match s with
  | EmptyString => EmptyString
  | String c s' => if is_space c then lstrip s' else s
  end.

Fixpoint rstrip (s : string) : string :=
  match s with
  | EmptyString => EmptyString
  | String c s' =>
      let r := rstrip s' in
      if is_space c && is_empty r then EmptyString else String c r
  end.

Definition strip (s : string) : string := rstrip (lstrip s).

(** [p] is a prefix of [s] ([s.startswith(p)]). *)
Fixpoint starts_with (p s : string) : bool :=
  match p, s with
  | EmptyString, _ => true
  | String a p', String b s' => Ascii.eqb a b && starts_with p' s'
  | String _ _, EmptyString => false
  end.

(** [needle in hay] for two strings. *)
Fixpoint contains (needle hay : string) : bool :=
  starts_with needle hay ||
  match hay with
  | EmptyString => false
  | String _ hay' => contains needle hay'
  end.

Definition newline : ascii := ascii_of_nat 10.

(** [s.split('\n')]: the pieces between the newlines, never an empty
    list. *)
Fixpoint split_nl (s : string) : list string :=
  match s with
  | EmptyString => [EmptyString]
  | String c s' =>
      if Ascii.eqb c newline then EmptyString :: split_nl s'
      else match split_nl s' with
           | h :: t => String c h :: t
           | [] => [String c EmptyString]
           end
  end.

(** [s[n:]]. *)
Fixpoint drop (n : nat) (s : string) : string :=
  match n, s with
  | 0, _ => s
  | S _, EmptyString => EmptyString
  | S n', String _ s' => drop n' s'
  end.

End PyStr.

(** ** The fragment of Python's [re] that the pipeline uses *)

Module Re.
Import PyStr.

(** Pattern syntax: what the configured speaker patterns, the
    whitespace pattern and the filler patterns are built from.
    Repetition is over a character class only (as in [\s*] and
    [[ \t]+]). *)
Inductive regex : Type :=
| Empty
| Chr (c : ascii)
| Cls (f : ascii -> bool)
| WordB
| Seq (r1 r2 : regex)
| Alt (r1 r2 : regex)
| Opt (r : regex)
| Star (f : ascii -> bool)
| Plus (f : ascii -> bool).

(** A compiled pattern: [re.compile(p, re.IGNORECASE)] or [re.compile(p)]. *)
Record pattern : Type := mkPattern { rx : regex; ignorecase : bool }.

Definition chr_eq (ic : bool) (a b : ascii) : bool :=
  if ic then Ascii.eqb (lower_c a) (lower_c b) else Ascii.eqb a b.

Definition opt_word (o : option ascii) : bool :=
  match o with Some c => is_word c | None => false end.

Definition head (s : string) : option ascii :=
  match s with EmptyString => None | String c _ => Some c end.

Definition orelse {A} (x y : option A) : option A :=
  match x with Some _ => x | None => y end.

(** Greedy repetition of a class, giving characters back one at a time
    when the continuation fails. *)
Fixpoint star_cls {A} (f : ascii -> bool) (prev : option ascii) (s : string)
    (k : option ascii -> string -> option A) : option A :=
  match s with
  | String c s' =>
      if f c then orelse (star_cls f (Some c) s' k) (k prev s) else k prev s
  | EmptyString => k prev s
  end.

(** The backtracking matcher: [m ic r prev s k] matches [r] at the start
    of [s] ([prev] is the character before it, for [\b]) and hands the
    rest of the text to [k]; alternatives are tried in the order of the
    pattern and the first complete success is the answer. *)
Fixpoint m {A} (ic : bool) (r : regex) (prev : option ascii) (s : string)
    (k : option ascii -> string -> option A) : option A :=
  match r with
  | Empty => k prev s
  | Chr c =>
      match s with
      | String c' s' => if chr_eq ic c c' then k (Some c') s' else None
      | EmptyString => None
      end
  | Cls f =>
      match s with
      | String c' s' => if f c' then k (Some c') s' else None
      | EmptyString => None
      end
  | WordB =>
      if xorb (opt_word prev) (opt_word (head s)) then k prev s else None
  | Seq r1 r2 => m ic r1 prev s (fun p' s' => m ic r2 p' s' k)
  | Alt r1 r2 => orelse (m ic r1 prev s k) (m ic r2 prev s k)
  | Opt r1 => orelse (m ic r1 prev s k) (k prev s)
  | Star f => star_cls f prev s k
  | Plus f =>
      match s with
      | String c' s' => if f c' then star_cls f (Some c') s' k else None
      | EmptyString => None
      end
  end.

(** One match attempt at the start of [s]: the number of characters of
    the match.  With [must_advance] an empty match is a failure and the
    matcher backtracks, as the engine does right after an empty match. *)
Definition match_at (p : pattern) (prev : option ascii) (s : string)
    (must_advance : bool) : option nat :=
  m (ignorecase p) (rx p) prev s
    (fun _ rest =>
       let n := String.length s - String.length rest in
       if must_advance && (n =? 0) then None else Some n).

(** [p.match(s)]: is there a match at the start of [s]? *)
Definition matches (p : pattern) (s : string) : bool :=
  match match_at p None s false with Some _ => true | None => false end.

(** [p.sub(repl, s)] for a literal replacement: the text is scanned from
    left to right, each match found is replaced and the scan goes on
    after it; [skip] counts the characters of the current match still to
    be passed over. *)
Fixpoint sub_go (p : pattern) (repl : string) (prev : option ascii)
    (s : string) (skip : nat) : string :=
  match skip with
  | S n =>
      match s with
      | EmptyString => EmptyString
      | String c s' => sub_go p repl (Some c) s' n
      end
  | 0 =>
      match match_at p prev s false with
      | Some (S n) =>
          repl ++ match s with
                  | EmptyString => EmptyString
                  | String c s' => sub_go p repl (Some c) s' n
                  end
      | Some 0 =>
          repl ++ match match_at p prev s true with
                  | Some (S n) =>
                      repl ++ match s with
                              | EmptyString => EmptyString
                              | String c s' => sub_go p repl (Some c) s' n
                              end
                  | _ =>
                      match s with
                      | EmptyString => EmptyString
                      | String c s' => String c (sub_go p repl (Some c) s' 0)
                      end
                  end
      | None =>
          match s with
          | EmptyString => EmptyString
          | String c s' => String c (sub_go p repl (Some c) s' 0)
          end
      end
  end.

Definition sub (p : pattern) (repl : string) (s : string) : string :=
  sub_go p repl None s 0.

(** No match of [p] starts anywhere in [s] (nor at its end). *)
Fixpoint no_match_from (p : pattern) (prev : option ascii) (s : string) : bool :=
  match match_at p prev s false with
  | Some _ => false
  | None =>
      match s with
      | EmptyString => true
      | String c s' => no_match_from p (Some c) s'
      end
  end.

(** A literal word, character by character. *)
Fixpoint lit (w : string) : regex :=
  match w with
  | EmptyString => Empty
  | String c EmptyString => Chr c
  | String c w' => Seq (Chr c) (lit w')
  end.

End Re.

(** ** [config.py] *)

Module Config.
Import PyStr Re.

(** [CONFIG['output']['filenames']] *)
Record filenames : Type := mkFilenames {
  summary_file : string;
  sentiment_file : string;
  soap_file : string;
  entities_file : string;
  complete_file : string
}.

(** The part of [CONFIG] that the modelled code reads. *)
Record config : Type := mkConfig {
  filler_words : list string;
  remove_fillers : bool;
  normalize_whitespace : bool;
  doctor_patterns : list pattern;
  patient_patterns : list pattern;
  entity_categories : list (string * list string);
  entity_default_category : string;
  intent_labels : list string;
  output_filenames : filenames
}.

(** [word1|word2|...] followed by [\s*:], compiled with [re.IGNORECASE]. *)
Definition speaker (alternatives : regex) : pattern :=
  mkPattern (Seq alternatives (Seq (Star is_space) (Chr ":"))) true.

(** [(doctor|physician|dr\.?)\s*:] *)
Definition doctor_1 : pattern :=
  speaker (Alt (lit "doctor")
          (Alt (lit "physician") (Seq (lit "dr") (Opt (Chr "."))))).

(** [(provider|clinician|practitioner)\s*:] *)
Definition doctor_2 : pattern :=
  speaker (Alt (lit "provider") (Alt (lit "clinician") (lit "practitioner"))).

(** [MD\s*:] *)
Definition doctor_3 : pattern := speaker (lit "MD").

(** [(patient|pt\.?)\s*:] *)
Definition patient_1 : pattern :=
  speaker (Alt (lit "patient") (Seq (lit "pt") (Opt (Chr ".")))).

(** [(client|individual)\s*:] *)
Definition patient_2 : pattern :=
  speaker (Alt (lit "client") (lit "individual")).

Definition CONFIG : config := {|
  filler_words := ["um"; "uh"; "like"; "you know"; "i mean"; "well"];
  remove_fillers := false;
  normalize_whitespace := true;
  doctor_patterns := [doctor_1; doctor_2; doctor_3];
  patient_patterns := [patient_1; patient_2];
  entity_categories :=
    [ ("symptoms", ["SYMPTOM"; "SIGN"; "FINDING"]);
      ("diseases", ["DISEASE"; "CONDITION"; "DISORDER"; "SYNDROME"]);
      ("treatments", ["TREATMENT"; "PROCEDURE"; "THERAPY"; "INTERVENTION"]);
      ("anatomy", ["ANATOMY"; "BODY_PART"; "ORGAN"; "TISSUE"; "ANATOMICAL"]);
      ("medications", ["MEDICATION"; "DRUG"; "PHARMACEUTICAL"; "MEDICINE"]) ];
  entity_default_category := "other";
  intent_labels :=
    [ "Reporting symptoms"; "Seeking reassurance"; "Expressing improvement";
      "Asking questions"; "Neutral update" ];
  output_filenames :=
    mkFilenames "medical_summary.json" "sentiment_intent.json" "soap_note.json"
                "entities.json" "complete_results.json"
|}.

(** The same configuration with the two preprocessing toggles set. *)
Definition with_toggles (cfg : config) (normalize fillers : bool) : config :=
  mkConfig (filler_words cfg) fillers normalize
           (doctor_patterns cfg) (patient_patterns cfg)
           (entity_categories cfg) (entity_default_category cfg)
           (intent_labels cfg) (output_filenames cfg).

End Config.

(** ** [src/preprocessing.py]: [TranscriptPreprocessor] *)

Module Preprocessing.
Import PyStr Re Config.

(** The class [[ \t]] and the pattern [[ \t]+]. *)
Definition is_blank (c : ascii) : bool :=
  (code c =? 32) || (code c =? 9).

Definition blanks : pattern := mkPattern (Plus is_blank) false.

(** A filler in which no character has a special meaning for [re]:
    word characters and spaces only. *)
Fixpoint plain_filler (w : string) : bool :=
  match w with
  | EmptyString => true
  | String a w' => (is_word a || (code a =? 32)) && plain_filler w'
  end.

(** What [rf'\b{filler}\b'] with [re.IGNORECASE] denotes when the
    filler is plain: the filler itself between two word boundaries. *)
Definition filler_pattern (filler : string) : pattern :=
  mkPattern (Seq WordB (Seq (lit filler) WordB)) true.

Section Clean.

(** The regular-expression compiler of the interpreter on the source
    text of a pattern, with [re.IGNORECASE]; [None] when it raises
    [re.error].  The filler is put into the pattern as it is, not
    escaped, so for a filler that is not plain the pattern is whatever
    the compiler makes of the source. *)
Variable re_compile : string -> option pattern.

Definition compile_filler (filler : string) : option pattern :=
  if plain_filler filler then Some (filler_pattern filler)
  else re_compile ("\b" ++ filler ++ "\b").

(** The loop [for filler in self.filler_words: text = re.sub(...)].
    [inl text] when the loop ends, [inr text] when [re.sub] raises, with
    the value [text] has at that moment. *)
Fixpoint sub_fillers (fillers : list string) (text : string) : string + string :=
  match fillers with
  | [] => inl text
  | filler :: rest =>
      match compile_filler filler with
      | Some p => sub_fillers rest (sub p "" text)
      | None => inr text
      end
  end.

(** The [except] branch returns [text] as it is, not stripped. *)
Definition clean_transcript (cfg : config) (text : string) : string :=
  let text :=
    if normalize_whitespace cfg then sub blanks " " text else text in
  if remove_fillers cfg
  then match sub_fillers (filler_words cfg) text with
       | inl text => strip text
       | inr text => text
       end
  else strip text.

End Clean.

Record metadata : Type := mkMetadata {
  total_turns : nat;
  doctor_turns : nat;
  patient_turns : nat;
  total_characters : nat;
  unmatched_lines : nat
}.

(** The result of [split_speakers]. *)
Record speakers : Type := mkSpeakers {
  doctor : list string;
  patient : list string;
  full_text : string;
  meta : metadata
}.

(** The three accumulators of the loop of [split_speakers]. *)
Record acc : Type := mkAcc {
  doctor_lines : list string;
  patient_lines : list string;
  unmatched : nat
}.

(** The first pattern of the list that matches at the start of the
    line: the [for pattern in ...: if pattern.match(line)] loops. *)
Definition first_match (pats : list pattern) (line : string) : option pattern :=
  find (fun p => matches p line) pats.

(** [pattern.sub('', line).strip()] *)
Definition clean_line (p : pattern) (line : string) : string :=
  strip (sub p "" line).

(** One iteration of [for line in lines]. *)
Definition step (cfg : config) (a : acc) (raw_line : string) : acc :=
  let line := strip raw_line in
  if is_empty line then a
  else
    match first_match (doctor_patterns cfg) line with
    | Some p =>
        let cl := clean_line p line in
        if is_empty cl then a
        else mkAcc (doctor_lines a ++ [cl])%list (patient_lines a) (unmatched a)
    | None =>
        match first_match (patient_patterns cfg) line with
        | Some p =>
            let cl := clean_line p line in
            if is_empty cl then a
            else mkAcc (doctor_lines a) (patient_lines a ++ [cl])%list (unmatched a)
        | None =>
            mkAcc (doctor_lines a) (patient_lines a) (S (unmatched a))
        end
    end.

Definition split_speakers (cfg : config) (text : string) : speakers :=
  let lines := split_nl text in
  let a := fold_left (step cfg) lines (mkAcc [] [] 0) in
  mkSpeakers (doctor_lines a) (patient_lines a) text
    (mkMetadata (List.length (doctor_lines a) + List.length (patient_lines a))
                (List.length (doctor_lines a))
                (List.length (patient_lines a))
                (String.length text)
                (unmatched a)).

Definition validate_transcript (sp : speakers) : bool :=
  match doctor sp with
  | [] => false
  | _ :: _ =>
      match patient sp with
      | [] => false
      | _ :: _ => negb (String.length (full_text sp) <? 50)
      end
  end.

End Preprocessing.


(** ** Python values: dictionaries, JSON documents, exceptions *)

Module Py.
Import PyStr.

(** A [dict] with string keys, in insertion order. *)
Definition dict (V : Type) : Type := list (string * V).

Fixpoint get {V} (k : string) (d : dict V) : option V :=
  match d with
  | [] => None
  | (k', v) :: d' => if String.eqb k k' then Some v else get k d'
  end.

(** [k in d] *)
Definition has {V} (k : string) (d : dict V) : bool :=
  match get k d with Some _ => true | None => false end.

(** [d[k] = v]: the value of an existing key is replaced where it
    stands, a new key goes to the end. *)
Fixpoint set {V} (k : string) (v : V) (d : dict V) : dict V :=
  match d with
  | [] => [(k, v)]
  | (k', v') :: d' =>
      if String.eqb k k' then (k', v) :: d' else (k', v') :: set k v d'
  end.

Definition keys {V} (d : dict V) : list string := map fst d.
Definition values {V} (d : dict V) : list V := map snd d.

(** What [json.loads] returns. *)
Inductive json : Type :=
| JNull
| JBool (b : bool)
| JInt (n : Z)
| JFloat (x : float)
| JStr (s : string)
| JList (l : list json)
| JDict (d : list (string * json)).

(** Truth value of a Python object ([not v] is its negation). *)
Definition truthy (v : json) : bool :=
  match v with
  | JNull => false
  | JBool b => b
  | JInt n => negb (Z.eqb n 0)
  | JFloat x => negb (PrimFloat.eqb x 0%float)
  | JStr s => negb (is_empty s)
  | JList l => match l with [] => false | _ :: _ => true end
  | JDict d => match d with [] => false | _ :: _ => true end
  end.

(** [str(v).strip() == ""].  The test is made on truthy values only;
    for those [str(v)] has visible characters unless [v] is a string. *)
Definition blank (v : json) : bool :=
  match v with
  | JStr s => is_empty (strip s)
  | _ => false
  end.

(** [field in l] for a list [l] of JSON values. *)
Definition in_list (field : string) (l : list json) : bool :=
  existsb (fun v => match v with JStr s => String.eqb s field | _ => false end) l.

Inductive exn : Type :=
| ValueError (msg : string)
| KeyError (key : string)
| IndexError
| OSError (msg : string).

(** A computation that returns or raises. *)
Inductive result (A : Type) : Type :=
| Ok (a : A)
| Raise (e : exn).
Arguments Ok {A} a.
Arguments Raise {A} e.

Definition bind {A B} (x : result A) (f : A -> result B) : result B :=
  match x with
  | Ok a => f a
  | Raise e => Raise e
  end.

Definition raised {A} (x : result A) : bool :=
  match x with Ok _ => false | Raise _ => true end.

(** A loop whose body may raise. *)
Fixpoint fold_result {A B} (f : A -> B -> result A) (l : list B) (a : A)
    : result A :=
  match l with
  | [] => Ok a
  | b :: l' => bind (f a b) (fold_result f l')
  end.

End Py.

Notation "x <- c1 ;; c2" := (Py.bind c1 (fun x => c2))
  (at level 61, c1 at next level, right associativity).

(** ** [schemas.py] *)

Module MedicalSummaryFields.
Import PyStr Py.

Definition PATIENT_NAME := "Patient_Name".
Definition SYMPTOMS := "Symptoms".
Definition DIAGNOSIS := "Diagnosis".
Definition TREATMENT := "Treatment".
Definition CURRENT_STATUS := "Current_Status".
Definition PROGNOSIS := "Prognosis".

Definition get_default : dict json :=
  [ (PATIENT_NAME, JStr "Unknown");
    (SYMPTOMS, JList []);
    (DIAGNOSIS, JStr "Unknown");
    (TREATMENT, JList []);
    (CURRENT_STATUS, JStr "Unknown");
    (PROGNOSIS, JStr "Unknown") ].

Definition get_field_list : list string :=
  [PATIENT_NAME; SYMPTOMS; DIAGNOSIS; TREATMENT; CURRENT_STATUS; PROGNOSIS].

(** The body of the loop: [if field not in data: data[field] = default_value]. *)
Definition fill (data : dict json) (item : string * json) : dict json :=
  if has (fst item) data then data else set (fst item) (snd item) data.

(** [validate] on a dictionary. *)
Definition validate (data : dict json) : dict json :=
  fold_left fill get_default data.

(** [validate] on whatever [json.loads] returned.  On a list or a string
    [field not in data] is a membership or substring test and the
    assignment raises [TypeError]; on the other values the test itself
    raises.  [None] stands for the raised exception. *)
Definition validate_json (data : json) : option json :=
  match data with
  | JDict d => Some (JDict (validate d))
  | JList l =>
      if forallb (fun f => in_list f l) (keys get_default)
      then Some data else None
  | JStr s =>
      if forallb (fun f => contains f s) (keys get_default)
      then Some data else None
  | _ => None
  end.

End MedicalSummaryFields.

Module SentimentIntentFields.
Import PyStr Py.

Definition SENTIMENT := "Sentiment".
Definition INTENT := "Intent".

Definition get_default : dict json :=
  [ (SENTIMENT, JStr "Neutral"); (INTENT, JStr "Unknown") ].

Definition fill (data : dict json) (item : string * json) : dict json :=
  if has (fst item) data then data else set (fst item) (snd item) data.

Definition validate (data : dict json) : dict json :=
  fold_left fill get_default data.

End SentimentIntentFields.

Module SOAPFields.
Import PyStr Py.

Definition SUBJECTIVE := "Subjective".
Definition SUBJECTIVE_CHIEF_COMPLAINT := "Chief_Complaint".
Definition SUBJECTIVE_HISTORY := "History_of_Present_Illness".
Definition OBJECTIVE := "Objective".
Definition OBJECTIVE_PHYSICAL_EXAM := "Physical_Exam".
Definition OBJECTIVE_OBSERVATIONS := "Observations".
Definition ASSESSMENT := "Assessment".
Definition ASSESSMENT_DIAGNOSIS := "Diagnosis".
Definition ASSESSMENT_SEVERITY := "Severity".
Definition PLAN := "Plan".
Definition PLAN_TREATMENT := "Treatment".
Definition PLAN_FOLLOWUP := "Follow-Up".

Definition not_documented : json := JStr "Not documented".

(** [get_default()], section by section. *)
Definition default_sections : dict (dict json) :=
  [ (SUBJECTIVE, [ (SUBJECTIVE_CHIEF_COMPLAINT, not_documented);
                   (SUBJECTIVE_HISTORY, not_documented) ]);
    (OBJECTIVE, [ (OBJECTIVE_PHYSICAL_EXAM, not_documented);
                  (OBJECTIVE_OBSERVATIONS, not_documented) ]);
    (ASSESSMENT, [ (ASSESSMENT_DIAGNOSIS, not_documented);
                   (ASSESSMENT_SEVERITY, not_documented) ]);
    (PLAN, [ (PLAN_TREATMENT, not_documented);
             (PLAN_FOLLOWUP, not_documented) ]) ].

Definition get_default : dict json :=
  map (fun item => (fst item, JDict (snd item))) default_sections.

Definition sections : list string := [SUBJECTIVE; OBJECTIVE; ASSESSMENT; PLAN].

(** [default[section]] *)
Definition default_of (section : string) : dict json :=
  match get section default_sections with
  | Some d => d
  | None => []
  end.

(** The condition under which a sub-field receives its default:
    [subfield not in sec or not sec[subfield] or
     str(sec[subfield]).strip() == ""]. *)
Definition needs_default (subfield : string) (sec : dict json) : bool :=
  match get subfield sec with
  | None => true
  | Some v => negb (truthy v) || blank v
  end.

(** The inner loop, over the sub-fields of one section. *)
Definition fill_subfield (sec : dict json) (item : string * json) : dict json :=
  if needs_default (fst item) sec then set (fst item) (snd item) sec else sec.

(** The outer loop, over the four sections. *)
Definition fill_section (data : dict json) (section : string) : dict json :=
  match get section data with
  | Some (JDict sec) =>
      set section (JDict (fold_left fill_subfield (default_of section) sec)) data
  | _ => set section (JDict (default_of section)) data
  end.

Definition validate (data : dict json) : dict json :=
  fold_left fill_section sections data.

End SOAPFields.

(** [EntityFields.create]: the shape of an entity. *)
Record entity : Type := mkEntity {
  ent_text : string;
  ent_type : string;
  ent_confidence : float;
  ent_start : Z;
  ent_end : Z
}.

(** ** [src/ner_extractor.py]: [MedicalNERExtractor.categorize_entities] *)

Module NER.
Import PyStr Py Config.

(** [any(keyword.upper() in entity_type for keyword in keywords)] *)
Definition any_keyword (entity_type : string) (keywords : list string) : bool :=
  existsb (fun keyword => contains (upper keyword) entity_type) keywords.

(** The first category of the mapping, in its order, one of whose
    keywords occurs in the type label: the inner [for ... break] loop. *)
Definition first_category (cfg : config) (entity_type : string)
    : option (string * list string) :=
  find (fun item => any_keyword entity_type (snd item)) (entity_categories cfg).

(** [categories[category].append(entity)] *)
Definition append_to (category : string) (e : entity)
    (categories : dict (list entity)) : result (dict (list entity)) :=
  match get category categories with
  | Some l => Ok (set category (l ++ [e])%list categories)
  | None => Raise (KeyError category)
  end.

(** One iteration of [for entity in entities]. *)
Definition place (cfg : config) (categories : dict (list entity)) (e : entity)
    : result (dict (list entity)) :=
  let entity_type := upper (ent_type e) in
  match first_category cfg entity_type with
  | Some item => append_to (fst item) e categories
  | None => append_to (entity_default_category cfg) e categories
  end.

(** [{cat: [] for cat in self.category_mappings.keys()}] followed by
    [categories[self.default_category] = []]. *)
Definition empty_categories (cfg : config) : dict (list entity) :=
  set (entity_default_category cfg) []
      (fold_left (fun d cat => set cat [] d) (keys (entity_categories cfg)) []).

Definition categorize_entities (cfg : config) (entities : list entity)
    : result (dict (list entity)) :=
  fold_result (place cfg) entities (empty_categories cfg).

(** The category an entity belongs to. *)
Definition category_of (cfg : config) (e : entity) : string :=
  match first_category cfg (upper (ent_type e)) with
  | Some item => fst item
  | None => entity_default_category cfg
  end.

End NER.

(** ** [src/llm_extractor.py]: [LLMExtractor] *)

Module LLM.
Import PyStr Py Config.

(** [extract_medical_summary] after the call of the model: [parsed] is
    what [json.loads] made of the cleaned answer, [None] when it raised
    [JSONDecodeError].  Every exception ends in the default record. *)
Definition extract_medical_summary (parsed : option json) : json :=
  match parsed with
  | None => JDict MedicalSummaryFields.get_default
  | Some data =>
      match MedicalSummaryFields.validate_json data with
      | Some summary => summary
      | None => JDict MedicalSummaryFields.get_default
      end
  end.

(** [generate_soap_note] after the call of the model.  On a value that
    is not a dictionary [SOAPFields.validate] raises [TypeError] at its
    first section, whatever the value. *)
Definition generate_soap_note (parsed : option json) : json :=
  match parsed with
  | Some (JDict data) => JDict (SOAPFields.validate data)
  | _ => JDict SOAPFields.get_default
  end.

(** The thresholds [0.65] of [CONFIG['sentiment']]. *)
Definition positive_threshold : float := 0x1.4cccccccccccdp-1%float.
Definition negative_threshold : float := 0x1.4cccccccccccdp-1%float.

(** [_analyze_sentiment_with_distilbert]: [classified] is the label and
    score of the classifier, [None] when it raised. *)
Definition analyze_sentiment (classified : option (string * float)) : string :=
  match classified with
  | None => "Neutral"
  | Some (label, score) =>
      if String.eqb label "POSITIVE" && PrimFloat.leb positive_threshold score
      then "Reassured"
      else if String.eqb label "NEGATIVE" && PrimFloat.leb negative_threshold score
      then "Anxious"
      else "Neutral"
  end.

(** [_analyze_intent_with_gemini] after the call of the model:
    [generated] is what [_generate] returned (the empty string when the
    call failed).  With an empty label list [CONFIG['intent_labels'][0]]
    raises inside the [try] and again inside the handler. *)
Definition analyze_intent (cfg : config) (generated : string) : result string :=
  let response := strip generated in
  if existsb (String.eqb response) (intent_labels cfg) then Ok response
  else
    match find (fun intent => contains (lower intent) (lower response))
               (intent_labels cfg) with
    | Some intent => Ok intent
    | None =>
        match intent_labels cfg with
        | first :: _ => Ok first
        | [] => Raise IndexError
        end
    end.

(** [analyze_sentiment_intent] *)
Definition analyze_sentiment_intent (cfg : config)
    (patient_utterances : list string)
    (classified : option (string * float)) (generated : string)
    : result (dict json) :=
  match patient_utterances with
  | [] => Ok SentimentIntentFields.get_default
  | _ :: _ =>
      let sentiment := analyze_sentiment classified in
      intent <- analyze_intent cfg generated ;;
      Ok [ (SentimentIntentFields.SENTIMENT, JStr sentiment);
           (SentimentIntentFields.INTENT, JStr intent) ]
  end.

End LLM.

(** ** [main.py]: [MedicalTranscriptPipeline.process] *)

Module Main.
Import PyStr Re Py Config Preprocessing.

(** What the external collaborators answer during one run. *)
Record collaborators : Type := mkCollaborators {
  ner_entities : list entity;                (* [self.ner.extract_entities] *)
  summary_json : option json;                (* parsed summary answer *)
  sentiment_class : option (string * float); (* classifier label and score *)
  intent_text : string;                      (* intent answer *)
  soap_json : option json                    (* parsed SOAP answer *)
}.

Record statistics : Type := mkStatistics {
  total : nat;
  by_category : dict nat;
  average_confidence : float
}.

Record entities_block : Type := mkEntities {
  all_entities : list entity;
  categorized : dict (list entity);
  stats : statistics
}.

Record transcript_info : Type := mkInfo {
  source_file : string;
  timestamp : string;
  processing_date : string;
  info_metadata : metadata
}.

Record composite : Type := mkComposite {
  info : transcript_info;
  entities : entities_block;
  medical_summary : json;
  sentiment_intent : dict json;
  soap_note : json
}.

(** What [json.dump] is given to write. *)
Inductive document : Type :=
| SummaryDoc (summary : json)
| SentimentDoc (record : dict json)
| SOAPDoc (soap : json)
| EntitiesDoc (block : entities_block)
| CompleteDoc (results : composite).

(** The file system during one run: what [open(path).read()] gives or
    raises, and whether creating a directory and writing a document
    into a file of a directory succeed or raise.  The program never
    reads back what it wrote, so only the outcome of each operation is
    kept. *)
Record files : Type := mkFiles {
  read_text : string -> result string;
  mkdir : string -> result unit;
  dump : string -> string -> document -> result unit
}.

(** [_save_outputs]: the four part files in the order of the [outputs]
    dict, then the complete document. *)
Definition save_outputs (cfg : config) (fs : files) (results : composite)
    (timestamp : string) : result unit :=
  let output_dir := "data/output" in
  made <- mkdir fs output_dir ;;
  let names := output_filenames cfg in
  let outputs :=
    set (entities_file names) (EntitiesDoc (entities results))
      (set (soap_file names) (SOAPDoc (soap_note results))
        (set (sentiment_file names) (SentimentDoc (sentiment_intent results))
          (set (summary_file names) (SummaryDoc (medical_summary results)) []))) in
  written <- fold_result
               (fun (_ : unit) item =>
                  dump fs output_dir (timestamp ++ "_" ++ fst item) (snd item))
               outputs tt ;;
  dump fs output_dir (timestamp ++ "_" ++ complete_file names)
       (CompleteDoc results).

Section Process.

(** Floating-point builtins of the interpreter: [sum] over floats,
    [x / n] for an integer [n], and [round(x, ndigits)]. *)
Variable fsum : list float -> float.
Variable truediv : float -> nat -> float.
Variable round : float -> Z -> float.

(** The regular-expression compiler, as in [Preprocessing]. *)
Variable re_compile : string -> option pattern.

(** The [statistics] entry of the composite result. *)
Definition compute_statistics (ents : list entity)
    (cats : dict (list entity)) : statistics :=
  mkStatistics
    (List.length ents)
    (map (fun item => (fst item, List.length (snd item))) cats)
    (match ents with
     | [] => 0%float
     | _ :: _ =>
         round (truediv (fsum (map ent_confidence ents)) (List.length ents)) 3
     end).

(** [process]: every exception is logged and raised again. *)
Definition process (cfg : config) (fs : files)
    (transcript_path now iso_now : string) (c : collaborators)
    : result composite :=
  raw_transcript <- read_text fs transcript_path ;;
  let cleaned := clean_transcript re_compile cfg raw_transcript in
  let sp := split_speakers cfg cleaned in
  if negb (validate_transcript sp)
  then Raise (ValueError "Invalid transcript format")
  else
    let ents := ner_entities c in
    cats <- NER.categorize_entities cfg ents ;;
    let summary := LLM.extract_medical_summary (summary_json c) in
    si <- LLM.analyze_sentiment_intent cfg (patient sp)
            (sentiment_class c) (intent_text c) ;;
    let soap := LLM.generate_soap_note (soap_json c) in
    let results :=
      mkComposite
        (mkInfo transcript_path now iso_now (meta sp))
        (mkEntities ents cats (compute_statistics ents cats))
        summary si soap in
    saved <- save_outputs cfg fs results now ;;
    Ok results.

End Process.

End Main.

(** ** Measures used in the statements *)

Module Measure.
Import PyStr Py.

(** [sum(len(v) for v in categorized.values())] *)
Definition total_size {V} (d : dict (list V)) : nat :=
  list_sum (map (@List.length V) (values d)).

End Measure.

(** ** Shapes of the validated records, as the statements use them *)

Module Shape.
Import PyStr Py.

Definition is_str (v : json) : bool :=
  match v with JStr _ => true | _ => false end.

Definition is_str_list (v : json) : bool :=
  match v with JList l => forallb is_str l | _ => false end.

(** The type the summary shape prescribes for a field: a list of
    strings for [Symptoms] and [Treatment], a string for the others. *)
Definition summary_field_ok (field : string) (v : json) : bool :=
  if String.eqb field MedicalSummaryFields.SYMPTOMS
     || String.eqb field MedicalSummaryFields.TREATMENT
  then is_str_list v else is_str v.

(** All six fields are present with a value of the prescribed type. *)
Definition well_typed_summary (d : dict json) : bool :=
  forallb (fun f => match get f d with
                    | Some v => summary_field_ok f v
                    | None => false
                    end)
          MedicalSummaryFields.get_field_list.

(** A value that is empty: the empty string, list or record, or null. *)
Definition empty_value (v : json) : bool :=
  match v with
  | JNull => true
  | JStr s => is_empty s
  | JList [] => true
  | JDict [] => true
  | _ => false
  end.

(** The replacement condition of a SOAP sub-field in the words of the
    specification: absent, empty, or whitespace-only. *)
Definition absent_empty_or_blank (subfield : string) (sec : dict json) : bool :=
  match get subfield sec with
  | None => true
  | Some v => empty_value v || blank v
  end.

(** What [SOAPFields.validate] leaves in a section, given what the
    input had under that key. *)
Definition validated_section (section : string) (old : option json) : dict json :=
  match old with
  | Some (JDict sec) =>
      fold_left SOAPFields.fill_subfield (SOAPFields.default_of section) sec
  | _ => SOAPFields.default_of section
  end.

End Shape.

(** ** Segmentation, line by line *)

Module Lines.
Import PyStr Re Config Preprocessing.

(** What one iteration of the loop of [split_speakers] does with a
    line: skips it when it is blank, appends it to a speaker, drops it
    because nothing is left of it without the speaker marker, or counts
    it as unmatched. *)
Inductive fate : Type :=
| Blank
| DoctorTurn (utterance : string)
| PatientTurn (utterance : string)
| Dropped
| Unmatched.

Definition fate_of (cfg : config) (raw_line : string) : fate :=
  let line := strip raw_line in
  if is_empty line then Blank
  else
    match first_match (doctor_patterns cfg) line with
    | Some p =>
        if is_empty (clean_line p line) then Dropped
        else DoctorTurn (clean_line p line)
    | None =>
        match first_match (patient_patterns cfg) line with
        | Some p =>
            if is_empty (clean_line p line) then Dropped
            else PatientTurn (clean_line p line)
        | None => Unmatched
        end
    end.

Definition doctor_part (f : fate) : list string :=
  match f with DoctorTurn u => [u] | _ => [] end.

Definition patient_part (f : fate) : list string :=
  match f with PatientTurn u => [u] | _ => [] end.

Definition is_unmatched (f : fate) : bool :=
  match f with Unmatched => true | _ => false end.

Definition is_dropped (f : fate) : bool :=
  match f with Dropped => true | _ => false end.

Definition count {A} (f : A -> bool) (l : list A) : nat :=
  List.length (filter f l).

(** The non-empty trimmed lines of a text. *)
Definition nonblank_lines (text : string) : nat :=
  count (fun l => negb (is_empty (strip l))) (split_nl text).

(** The lines that matched a speaker pattern and were left empty by
    the removal of the marker. *)
Definition dropped_lines (cfg : config) (text : string) : nat :=
  count (fun l => is_dropped (fate_of cfg l)) (split_nl text).

(** The speaker whose pattern matches the line, doctor patterns first
    ([true] for the doctor), with the first pattern that matches. *)
Definition matched_pattern (cfg : config) (line : string)
    : option (bool * pattern) :=
  match first_match (doctor_patterns cfg) line with
  | Some p => Some (true, p)
  | None =>
      match first_match (patient_patterns cfg) line with
      | Some p => Some (false, p)
      | None => None
      end
  end.

(** The character before position [n] of [s] ([prev] before the
    start). *)
Fixpoint prev_after (n : nat) (prev : option ascii) (s : string) : option ascii :=
  match n, s with
  | S n', String c s' => prev_after n' (Some c) s'
  | _, _ => prev
  end.

(** [s] without its longest prefix of characters of the class [f]. *)
Fixpoint skip_cls (f : ascii -> bool) (s : string) : string :=
  match s with
  | EmptyString => EmptyString
  | String c s' => if f c then skip_cls f s' else s
  end.

(** Does [s] start with a character of the class [f]? *)
Definition starts_in (f : ascii -> bool) (s : string) : bool :=
  match s with EmptyString => false | String c _ => f c end.

(** No tab and no two blanks in a row: what [[ \t]+ -> ' '] leaves. *)
Fixpoint tidy (s : string) : bool :=
  match s with
  | EmptyString => true
  | String c s' =>
      (if is_blank c then (code c =? 32) && negb (starts_in is_blank s') else true)
      && tidy s'
  end.

End Lines.

(** ** Filler words in a text *)

Module Fillers.
Import PyStr Re Config Preprocessing.

(** The rest [u] of a filler word is at the start of [s] (ignoring
    case) and a word boundary follows it; [prev] is the character
    before [s]. *)
Fixpoint tail_occ (u : string) (prev : option ascii) (s : string) : bool :=
  match u with
  | EmptyString => xorb (opt_word prev) (opt_word (head s))
  | String a u' =>
      match s with
      | String c s' => chr_eq true a c && tail_occ u' (Some c) s'
      | EmptyString => false
      end
  end.

(** The filler word [w] occurs at the start of [s] between two word
    boundaries: what [\bw\b] matches there. *)
Definition occ (w : string) (prev : option ascii) (s : string) : bool :=
  xorb (opt_word prev) (opt_word (head s)) && tail_occ w prev s.

(** [w] has no two non-word characters in a row and ends with a word
    character; [b] tells whether the character before [w] is a word
    character. *)
Fixpoint good_from (b : bool) (w : string) : bool :=
  match w with
  | EmptyString => b
  | String a w' => (b || is_word a) && good_from (is_word a) w'
  end.

(** A filler made of words separated by single other characters, such
    as [um] or [you know]. *)
Definition good_filler (w : string) : bool := good_from false w.

(** The scan of [re.sub(rf'\b{w}\b', '', text)] from a position on,
    [prev] being the character before the position. *)
Definition scan (w : string) (prev : option ascii) (s : string) : string :=
  sub_go (filler_pattern w) "" prev s 0.

(** The loop [for filler in self.filler_words] of [clean_transcript]
    when every filler is plain. *)
Definition remove_all (fillers : list string) (text : string) : string :=
  fold_left (fun t filler => sub (filler_pattern filler) "" t) fillers text.

(** What [clean_transcript] computes when filler removal is off or
    every filler is plain: no [re.sub] raises. *)
Definition clean_words (cfg : config) (text : string) : string :=
  let text :=
    if normalize_whitespace cfg then sub blanks " " text else text in
  let text :=
    if remove_fillers cfg then remove_all (filler_words cfg) text else text in
  strip text.

End Fillers.

(** ** The composite of a run *)

Module Run.
Import PyStr Re Py Config Preprocessing Main.

(** The composite that [process] has built from the text [raw] of the
    file and the answers of the collaborators when it comes to write
    the files. *)
Definition built (fsum : list float -> float) (truediv : float -> nat -> float)
    (round : float -> Z -> float) (re_compile : string -> option pattern)
    (cfg : config) (path now iso raw : string) (c : collaborators)
    (cats : dict (list entity)) (si : dict json) : composite :=
  mkComposite
    (mkInfo path now iso
       (meta (split_speakers cfg (clean_transcript re_compile cfg raw))))
    (mkEntities (ner_entities c) cats
       (compute_statistics fsum truediv round (ner_entities c) cats))
    (LLM.extract_medical_summary (summary_json c))
    si
    (LLM.generate_soap_note (soap_json c)).

End Run.

(** ** Sample inputs of the pipeline *)

Module Samples.
Import PyStr Py Config Main.

(** Collaborator answers used in the examples below. *)
Definition sample_answers : collaborators :=
  mkCollaborators
    [ mkEntity "fever" "SYMPTOM" 0x1.e666666666666p-1%float 0 5 ]
    (Some (JDict [ ("Diagnosis", JStr "Flu"); ("Reviewer", JStr "Dr. A") ]))
    None
    "I think it is: asking questions."
    (Some (JDict [ ("Plan", JInt 7); ("Billing", JStr "code 12") ])).

(** A transcript that passes validation, for the examples. *)
Definition sample_transcript : string :=
  "Doctor: How are you feeling today?" ++ String newline
    "Patient: I have a fever and a sore throat.".

(** Left-to-right float sum, float division by a count, and a stand-in
    for [round] (no model of decimal rounding is needed here). *)
Definition sample_sum (l : list float) : float :=
  fold_left PrimFloat.add l 0%float.
Definition sample_div (x : float) (n : nat) : float :=
  PrimFloat.div x (Nat.iter n (fun y => PrimFloat.add y 1%float) 0%float).
Definition sample_round (x : float) (ndigits : Z) : float := x.

(** A compiler that rejects every source; the shipped fillers are
    plain, so it is never asked. *)
Definition sample_compile (source : string) : option Re.pattern := None.

(** A file system in which the transcript file holds [raw] and every
    write succeeds, and one in which no file can be written. *)
Definition disk (raw : string) : files :=
  mkFiles (fun _ => Ok raw) (fun _ => Ok tt) (fun _ _ _ => Ok tt).
Definition read_only_disk (raw : string) : files :=
  mkFiles (fun _ => Ok raw) (fun _ => Ok tt)
          (fun _ _ _ => Raise (OSError "Read-only file system")).

End Samples.

(** ** [src/ner_extractor.py]: [MedicalNERExtractor.extract_entities] *)

Module Extract.
Import PyStr Py.

(** One span of the recogniser: [word], [entity_group], [score] and the
    optional offsets ([ent.get('start', 0)]). *)
Record raw_entity : Type := mkRaw {
  word : string;
  entity_group : string;
  score : float;
  raw_start : option Z;
  raw_end : option Z
}.

(** [CONFIG['ner']] and [CONFIG['text_limits']], as far as
    [extract_entities] reads them. *)
Record limits : Type := mkLimits {
  ner_max_chars : nat;
  confidence_threshold : float;
  min_entity_length : nat
}.

(** [5000], [0.8] and [2]. *)
Definition LIMITS : limits := mkLimits 5000 0x1.999999999999ap-1%float 2.

(** [s[:n]] *)
Fixpoint take (n : nat) (s : string) : string :=
  match n, s with
  | S n', String c s' => String c (take n' s')
  | _, _ => EmptyString
  end.

(** The two accumulators of the loop: [formatted] and [seen_texts]. *)
Record found : Type := mkFound {
  formatted : list entity;
  seen_texts : list string
}.

Definition default_zero (o : option Z) : Z :=
  match o with Some z => z | None => 0%Z end.

Section Extraction.

(** [round(x, ndigits)] of the interpreter. *)
Variable round : float -> Z -> float.

(** [EntityFields.create] *)
Definition create (text entity_type : string) (confidence : float)
    (start stop : Z) : entity :=
  mkEntity text entity_type (round confidence 3) start stop.

(** One iteration of [for ent in raw_entities]. *)
Definition visit (lim : limits) (st : found) (ent : raw_entity) : found :=
  if PrimFloat.ltb (score ent) (confidence_threshold lim) then st
  else
    let text_clean := strip (word ent) in
    if String.length text_clean <=? min_entity_length lim then st
    else if existsb (String.eqb (lower text_clean)) (seen_texts st) then st
    else
      mkFound
        (formatted st ++
           [create text_clean (entity_group ent) (score ent)
                   (default_zero (raw_start ent)) (default_zero (raw_end ent))])%list
        (lower text_clean :: seen_texts st).

(** The text handed to the recogniser. *)
Definition capped (lim : limits) (text : string) : string :=
  if ner_max_chars lim <? String.length text
  then take (ner_max_chars lim) text else text.

(** [extract_entities]; [ner_pipeline] answers [None] when it raises,
    and every exception ends in the empty list. *)
Definition extract_entities (lim : limits)
    (ner_pipeline : string -> option (list raw_entity)) (text : string)
    : list entity :=
  match ner_pipeline (capped lim text) with
  | None => []
  | Some raw_entities =>
      formatted (fold_left (visit lim) raw_entities (mkFound [] []))
  end.

End Extraction.

End Extract.

(** ** [src/llm_extractor.py]: [LLMExtractor._clean_json_response] *)

Module JsonText.
Import PyStr.

(** The fence of a code block: three backquotes. *)
Definition fence : string := "```".

(** [s.split(sep)] for a non-empty separator: the pieces between the
    occurrences of [sep], found from left to right; [skip] counts the
    characters of the current occurrence still to be passed over. *)
Fixpoint split_go (sep : string) (s : string) (skip : nat) : list string :=
  match s with
  | EmptyString => [EmptyString]
  | String c s' =>
      match skip with
      | S n => split_go sep s' n
      | 0 =>
          if starts_with sep s
          then EmptyString :: split_go sep s' (String.length sep - 1)
          else match split_go sep s' 0 with
               | h :: t => String c h :: t
               | [] => [String c EmptyString]
               end
      end
  end.

Definition split (sep s : string) : list string := split_go sep s 0.

Definition clean_json_response (response : string) : string :=
  let response := strip response in
  let response :=
    if starts_with fence response
    then
      match split fence response with
      | _ :: part :: _ =>
          if starts_with "json" part || starts_with "JSON" part
          then drop 4 part else part
      | _ => response
      end
    else response in
  strip response.

(** A text without backquote. *)
Definition no_backquote (s : string) : bool :=
  negb (contains "`" s).

(** A code block: the fence, a language tag, the body on lines of its
    own, the fence. *)
Definition fenced (tag body : string) : string :=
  fence ++ tag ++ String newline (body ++ String newline fence).

End JsonText.

(** ** Characters other than blanks *)

Module Blanks.
Import PyStr Preprocessing.

(** The text without its spaces and tabs. *)
Fixpoint non_blank (s : string) : string :=
  match s with
  | EmptyString => EmptyString
  | String c s' => if is_blank c then non_blank s' else String c (non_blank s')
  end.

(** Only whitespace. *)
Fixpoint all_space (s : string) : bool :=
  match s with
  | EmptyString => true
  | String c s' => is_space c && all_space s'
  end.

End Blanks.

(** ** Extraction: what the statements speak about *)

Module ExtractSpec.
Import PyStr Py Extract.

(** A span passes the filters of the loop: its score is not below the
    threshold and its trimmed text is longer than the minimum. *)
Definition passes (lim : limits) (r : raw_entity) : Prop :=
  PrimFloat.ltb (score r) (confidence_threshold lim) = false /\
  min_entity_length lim < String.length (strip (word r)).

(** The entity made from a span. *)
Definition entity_of (round : float -> Z -> float) (r : raw_entity) : entity :=
  create round (strip (word r)) (entity_group r) (score r)
         (default_zero (raw_start r)) (default_zero (raw_end r)).

(** What the loop keeps true of its two accumulators. *)
Definition consistent (st : found) : Prop :=
  map (fun e => lower (ent_text e)) (formatted st) = rev (seen_texts st) /\
  NoDup (seen_texts st).

(** A recogniser for the examples: three spans whatever the text. *)
Definition sample_pipeline (text : string) : option (list raw_entity) :=
  Some [ mkRaw " Fever " "Sign_symptom" 0x1.e666666666666p-1%float (Some 3%Z) (Some 8%Z);
         mkRaw "fever" "Sign_symptom" 0x1.f333333333333p-1%float None None;
         mkRaw "flu" "Disease_disorder" 0x1p-1%float (Some 20%Z) (Some 23%Z) ].

End ExtractSpec.

(** ** Letter case of labels and keywords *)

Module Recase.
Import PyStr Config.

(** The entity with another type label. *)
Definition relabel (label : string) (e : entity) : entity :=
  mkEntity (ent_text e) label (ent_confidence e) (ent_start e) (ent_end e).

(** The configuration with every category keyword rewritten by [f]. *)
Definition rekey (f : string -> string) (cfg : config) : config :=
  mkConfig (filler_words cfg) (remove_fillers cfg) (normalize_whitespace cfg)
           (doctor_patterns cfg) (patient_patterns cfg)
           (map (fun item => (fst item, map f (snd item))) (entity_categories cfg))
           (entity_default_category cfg) (intent_labels cfg)
           (output_filenames cfg).

End Recase.

(** ** Letter case of the transcript *)

Module CaseMap.
Import PyStr Re Config Lines.

(** The class [f] does not tell a character from its image under the
    case mapping [g] (checked on all 256 characters). *)
Definition blind_class (g : ascii -> ascii) (f : ascii -> bool) : bool :=
  forallb (fun n => Bool.eqb (f (g (ascii_of_nat n))) (f (ascii_of_nat n)))
          (seq 0 256).

(** All classes of the pattern are blind to [g]. *)
Fixpoint blind (g : ascii -> ascii) (r : regex) : bool :=
  match r with
  | Empty | Chr _ | WordB => true
  | Cls f | Star f | Plus f => blind_class g f
  | Seq r1 r2 | Alt r1 r2 => blind g r1 && blind g r2
  | Opt r1 => blind g r1
  end.

(** A pattern compiled with [re.IGNORECASE] whose classes are blind to
    [g]. *)
Definition case_blind (g : ascii -> ascii) (p : pattern) : bool :=
  ignorecase p && blind g (rx p).

(** The fate of a line, with [f] applied to the utterance. *)
Definition map_fate (f : string -> string) (x : fate) : fate :=
  match x with
  | DoctorTurn u => DoctorTurn (f u)
  | PatientTurn u => PatientTurn (f u)
  | other => other
  end.

End CaseMap.

(** ** Labels that cannot be mistaken for one another *)

Module Labels.
Import PyStr.

(** No label, lower-cased, occurs in another label, lower-cased. *)
Fixpoint independent (labels : list string) : bool :=
  match labels with
  | [] => true
  | a :: rest =>
      forallb (fun b => negb (contains (lower a) (lower b))
                        && negb (contains (lower b) (lower a))) rest
      && independent rest
  end.

End Labels.

(** * Properties *)

(** ** Dictionaries *)

Module PyFacts.
Import PyStr Py.

Lemma get_set_same {V} (k : string) (v : V) (d : dict V) :
  get k (set k v d) = Some v.
Proof.
  induction d as [|[k' v'] d IH]; simpl.
  - now rewrite String.eqb_refl.
  - destruct (String.eqb k k') eqn:E; simpl; rewrite E; auto.
Qed.

Lemma get_set_other {V} (k k' : string) (v : V) (d : dict V) :
  k <> k' -> get k' (set k v d) = get k' d.
Proof.
  intros Hne. induction d as [|[k0 v0] d IH]; simpl.
  - destruct (String.eqb k' k) eqn:E; auto.
    apply String.eqb_eq in E. congruence.
  - destruct (String.eqb k k0) eqn:E; simpl.
    + apply String.eqb_eq in E. subst k0.
      destruct (String.eqb k' k) eqn:E'; auto.
      apply String.eqb_eq in E'. congruence.
    + now rewrite IH.
Qed.

Lemma get_set {V} (k k' : string) (v : V) (d : dict V) :
  get k' (set k v d) = if String.eqb k k' then Some v else get k' d.
Proof.
  destruct (String.eqb k k') eqn:E.
  - apply String.eqb_eq in E. subst. apply get_set_same.
  - apply String.eqb_neq in E. now apply get_set_other.
Qed.

Lemma has_set {V} (k k' : string) (v : V) (d : dict V) :
  has k' (set k v d) = String.eqb k k' || has k' d.
Proof.
  unfold has. rewrite get_set. now destruct (String.eqb k k').
Qed.

Lemma get_in_keys {V} (k : string) (d : dict V) :
  In k (keys d) <-> exists v, get k d = Some v.
Proof.
  induction d as [|[k' v'] d IH]; simpl.
  - split; [tauto | intros [v H]; discriminate].
  - destruct (String.eqb k k') eqn:E.
    + apply String.eqb_eq in E. subst. split; eauto.
    + apply String.eqb_neq in E. rewrite IH. split.
      * intros [H|H]; [congruence | exact H].
      * auto.
Qed.

Lemma has_in_keys {V} (k : string) (d : dict V) :
  has k d = true <-> In k (keys d).
Proof.
  rewrite get_in_keys. unfold has.
  destruct (get k d); split; eauto; try discriminate.
  intros [v H]. discriminate.
Qed.

(** Assigning to a key that is present keeps the keys as they are. *)
Lemma keys_set_present {V} (k : string) (v : V) (d : dict V) :
  In k (keys d) -> keys (set k v d) = keys d.
Proof.
  induction d as [|[k' v'] d IH]; simpl; [tauto|].
  intros H. destruct (String.eqb k k') eqn:E; simpl; auto.
  apply String.eqb_neq in E. f_equal. apply IH.
  destruct H; [congruence | assumption].
Qed.

(** Assigning to a new key adds it at the end. *)
Lemma keys_set_absent {V} (k : string) (v : V) (d : dict V) :
  ~ In k (keys d) -> keys (set k v d) = (keys d ++ [k])%list.
Proof.
  induction d as [|[k' v'] d IH]; simpl; auto.
  intros H. destruct (String.eqb k k') eqn:E; simpl.
  - apply String.eqb_eq in E. subst. tauto.
  - f_equal. apply IH. tauto.
Qed.

Lemma in_keys_set {V} (k k' : string) (v : V) (d : dict V) :
  In k' (keys (set k v d)) <-> k = k' \/ In k' (keys d).
Proof.
  rewrite <- !has_in_keys, has_set, orb_true_iff, String.eqb_eq. tauto.
Qed.

Lemma NoDup_keys_set {V} (k : string) (v : V) (d : dict V) :
  NoDup (keys d) -> NoDup (keys (set k v d)).
Proof.
  intros H. destruct (in_dec string_dec k (keys d)) as [Hin|Hout].
  - now rewrite keys_set_present.
  - rewrite keys_set_absent by assumption.
    apply NoDup_app; [assumption | repeat constructor; simpl; tauto |].
    intros x Hx [Hx'|[]]. subst. tauto.
Qed.

End PyFacts.

(** ** Entity categorisation *)

Module NERFacts.
Import PyStr Py Config NER PyFacts Measure.

Lemma total_size_set {V} (k : string) (l l' : list V) (d : dict (list V)) :
  get k d = Some l ->
  total_size (set k l' d) + List.length l = total_size d + List.length l'.
Proof.
  unfold total_size, values.
  induction d as [|[k0 l0] d IH]; simpl; [discriminate|].
  destruct (String.eqb k k0) eqn:E; simpl.
  - intros [= ->]. lia.
  - intros H. specialize (IH H). lia.
Qed.

Lemma values_set_nil (k : string) (d : dict (list entity)) :
  Forall (fun l => l = []) (values d) ->
  Forall (fun l => l = []) (values (set k [] d)).
Proof.
  induction d as [|[k0 l0] d IH]; simpl; intros H.
  - repeat constructor.
  - inversion H; subst. destruct (String.eqb k k0); simpl; constructor; auto.
Qed.

Lemma values_fold_nil (ks : list string) :
  forall d : dict (list entity),
  Forall (fun l => l = []) (values d) ->
  Forall (fun l => l = []) (values (fold_left (fun d cat => set cat [] d) ks d)).
Proof.
  induction ks as [|k ks IH]; simpl; intros d H; [assumption|].
  apply IH. now apply values_set_nil.
Qed.

Lemma total_size_empty (cfg : config) : total_size (empty_categories cfg) = 0.
Proof.
  assert (Z : forall d : dict (list entity),
             Forall (fun l => l = []) (values d) -> total_size d = 0).
  { unfold total_size. intros d. induction (values d) as [|l ls IH]; simpl; auto.
    intros H. inversion H; subst. simpl. auto. }
  apply Z. unfold empty_categories.
  apply values_set_nil, values_fold_nil. constructor.
Qed.

Lemma keys_fold_set {V} (v : V) (ks : list string) (d : dict V) (k : string) :
  In k (keys (fold_left (fun d cat => set cat v d) ks d)) <->
  In k ks \/ In k (keys d).
Proof.
  revert d. induction ks as [|k0 ks IH]; simpl; intros d; [tauto|].
  rewrite IH, in_keys_set. tauto.
Qed.

Lemma NoDup_fold_set {V} (v : V) (ks : list string) (d : dict V) :
  NoDup (keys d) -> NoDup (keys (fold_left (fun d cat => set cat v d) ks d)).
Proof.
  revert d. induction ks as [|k0 ks IH]; simpl; intros d H; auto.
  apply IH. now apply NoDup_keys_set.
Qed.

Lemma get_fold_set_nil (ks : list string) (d : dict (list entity)) (k : string) :
  (forall l, get k d = Some l -> l = []) ->
  forall l, get k (fold_left (fun d cat => set cat [] d) ks d) = Some l -> l = [].
Proof.
  revert d. induction ks as [|k0 ks IH]; simpl; intros d H; auto.
  apply IH. intros l. rewrite get_set.
  destruct (String.eqb k0 k); [congruence | auto].
Qed.

Lemma in_keys_empty (cfg : config) (k : string) :
  In k (keys (empty_categories cfg)) <->
  In k (keys (entity_categories cfg)) \/ k = entity_default_category cfg.
Proof.
  unfold empty_categories. rewrite in_keys_set, keys_fold_set. simpl.
  intuition congruence.
Qed.

Lemma get_empty (cfg : config) (k : string) (l : list entity) :
  get k (empty_categories cfg) = Some l -> l = [].
Proof.
  unfold empty_categories. rewrite get_set.
  destruct (String.eqb _ k); [congruence|].
  apply get_fold_set_nil. discriminate.
Qed.

(** The category chosen for an entity is a key of the mapping. *)
Lemma category_of_key (cfg : config) (e : entity) :
  In (category_of cfg e) (keys (empty_categories cfg)).
Proof.
  rewrite in_keys_empty. unfold category_of, first_category.
  destruct (find _ _) as [item|] eqn:F; auto.
  left. apply find_some in F. apply in_map. tauto.
Qed.

(** How [find] picks the category: the first item that matches. *)
Lemma find_first {A} (f : A -> bool) (l : list A) :
  match find f l with
  | Some x => exists pre post, l = (pre ++ x :: post)%list /\ f x = true /\
                               forall y, In y pre -> f y = false
  | None => forall y, In y l -> f y = false
  end.
Proof.
  induction l as [|a l IH]; simpl.
  - tauto.
  - destruct (f a) eqn:E.
    + exists [], l. simpl. tauto.
    + destruct (find f l) as [x|].
      * destruct IH as [pre [post [-> [Hx Hpre]]]].
        exists (a :: pre), post. simpl. split; [reflexivity|]. split; [assumption|].
        intros y [<-|Hy]; auto.
      * intros y [<-|Hy]; auto.
Qed.

(** One iteration of the loop adds the entity to the list of its
    category and to no other. *)
Lemma place_spec (cfg : config) (d : dict (list entity)) (e : entity) :
  keys d = keys (empty_categories cfg) ->
  exists d', place cfg d e = Ok d' /\
    keys d' = keys d /\
    total_size d' = S (total_size d) /\
    forall k, get k d' =
      if String.eqb (category_of cfg e) k
      then option_map (fun l => (l ++ [e])%list) (get k d)
      else get k d.
Proof.
  intros Hk.
  assert (Hin : In (category_of cfg e) (keys d))
    by (rewrite Hk; apply category_of_key).
  assert (P : place cfg d e = append_to (category_of cfg e) e d).
  { unfold place, category_of. now destruct (first_category cfg _). }
  rewrite P. unfold append_to.
  destruct (proj1 (get_in_keys _ _) Hin) as [l Hl]. rewrite Hl.
  eexists. split; [reflexivity|]. split; [now apply keys_set_present|]. split.
  - pose proof (total_size_set (category_of cfg e) l (l ++ [e])%list d Hl) as T.
    rewrite length_app in T. simpl in T. lia.
  - intros k. rewrite get_set. destruct (String.eqb _ k) eqn:E; auto.
    apply String.eqb_eq in E. subst k. now rewrite Hl.
Qed.

Lemma fold_place_spec (cfg : config) (ents : list entity) :
  forall d, keys d = keys (empty_categories cfg) ->
  exists d', fold_result (place cfg) ents d = Ok d' /\
    keys d' = keys d /\
    total_size d' = total_size d + List.length ents /\
    forall k, get k d' =
      option_map
        (fun l => (l ++ filter (fun e => String.eqb (category_of cfg e) k) ents)%list)
        (get k d).
Proof.
  induction ents as [|e ents IH]; simpl; intros d Hk.
  - exists d. repeat split; auto.
    intros k. destruct (get k d); simpl; auto. now rewrite app_nil_r.
  - destruct (place_spec cfg d e Hk) as [d1 [E1 [K1 [T1 G1]]]].
    rewrite E1. simpl.
    destruct (IH d1) as [d' [E' [K' [T' G']]]]; [congruence|].
    exists d'. split; [assumption|]. split; [congruence|]. split; [lia|].
    intros k. rewrite G', G1.
    destruct (String.eqb (category_of cfg e) k); destruct (get k d); simpl; auto.
    now rewrite <- app_assoc.
Qed.

(** The test of a keyword list, spelled out: some keyword, upper-cased,
    is a substring of the label. *)
Lemma any_keyword_true (label : string) (keywords : list string) :
  any_keyword label keywords = true ->
  exists keyword, In keyword keywords /\ contains (upper keyword) label = true.
Proof.
  unfold any_keyword. intros H. apply existsb_exists in H. exact H.
Qed.

Lemma any_keyword_false (label : string) (keywords : list string) :
  any_keyword label keywords = false ->
  forall keyword, In keyword keywords -> contains (upper keyword) label = false.
Proof.
  unfold any_keyword. intros H keyword Hk.
  destruct (contains (upper keyword) label) eqn:C; [|reflexivity].
  rewrite <- H. symmetry. apply existsb_exists. now exists keyword.
Qed.

(** C4.  Categorisation returns (it never raises [KeyError]) a mapping
    that partitions the entity list exactly: the lengths of its lists
    sum up to the number of entities; its keys are, without repetition,
    the configured categories and the catch-all, present even when their
    list is empty; the list of a key holds, in their order, exactly the
    entities whose category is that key; and the category of an entity
    is the first configured category, in declaration order, one of whose
    keywords is a substring of the upper-cased type label, or the
    catch-all when no keyword is.  (The keyword is upper-cased for the
    test; the configured keywords are upper-case already.) *)
Theorem categorize_entities_partition (cfg : config) (ents : list entity) :
  exists cats,
    categorize_entities cfg ents = Ok cats /\
    total_size cats = List.length ents /\
    NoDup (keys cats) /\
    (forall k, In k (keys cats) <->
               In k (keys (entity_categories cfg)) \/
               k = entity_default_category cfg) /\
    (forall k, In k (keys cats) ->
               get k cats =
               Some (filter (fun e => String.eqb (category_of cfg e) k) ents)) /\
    (forall e,
        let label := upper (ent_type e) in
        (exists pre keywords post keyword,
            entity_categories cfg =
              (pre ++ (category_of cfg e, keywords) :: post)%list /\
            In keyword keywords /\
            contains (upper keyword) label = true /\
            forall item other, In item pre -> In other (snd item) ->
                               contains (upper other) label = false)
        \/
        (category_of cfg e = entity_default_category cfg /\
         forall item other, In item (entity_categories cfg) ->
                            In other (snd item) ->
                            contains (upper other) label = false)) /\
    (forall item keyword,
        In item (entity_categories CONFIG) -> In keyword (snd item) ->
        upper keyword = keyword).
Proof.
  unfold categorize_entities.
  destruct (fold_place_spec cfg ents (empty_categories cfg) eq_refl)
    as [cats [E [K [T G]]]].
  exists cats. split; [assumption|]. split.
  { rewrite T, total_size_empty. reflexivity. }
  split.
  { rewrite K. unfold empty_categories.
    apply NoDup_keys_set, NoDup_fold_set. constructor. }
  split.
  { intros k. rewrite K. apply in_keys_empty. }
  split.
  { intros k Hk. rewrite G. rewrite K in Hk.
    destruct (proj1 (get_in_keys _ _) Hk) as [l Hl]. rewrite Hl. simpl.
    now rewrite (get_empty cfg k l Hl). }
  split.
  { intros e. set (label := upper (ent_type e)).
    unfold category_of, first_category. fold label.
    pose proof (find_first (fun item => any_keyword label (snd item))
                           (entity_categories cfg)) as F.
    destruct (find _ _) as [[cat kws]|].
    - left. destruct F as [pre [post [Hl [Hx Hpre]]]].
      apply any_keyword_true in Hx. destruct Hx as [kw [Hkw Hc]].
      exists pre, kws, post, kw. simpl. repeat split; auto.
      intros item other Hi Ho. exact (any_keyword_false _ _ (Hpre item Hi) other Ho).
    - right. split; [reflexivity|].
      intros item other Hi Ho. exact (any_keyword_false _ _ (F item Hi) other Ho). }
  intros item keyword Hitem Hkw. simpl in Hitem.
  repeat (destruct Hitem as [<-|Hitem];
          [simpl in Hkw;
           repeat (destruct Hkw as [<-|Hkw]; [reflexivity|]); destruct Hkw|]).
  destruct Hitem.
Qed.

End NERFacts.

(** ** Schema validators *)

Module SchemaFacts.
Import PyStr Py PyFacts Shape.

(** The loop [if field not in data: data[field] = default_value]:
    a key of the input keeps its value, an absent key receives the
    default when there is one. *)
Lemma get_fold_fill (defs data : dict json) (k : string) :
  get k (fold_left MedicalSummaryFields.fill defs data) =
  match get k data with
  | Some v => Some v
  | None => get k defs
  end.
Proof.
  revert data. induction defs as [|[f dv] defs IH]; intros data; simpl.
  - now destruct (get k data).
  - rewrite IH. unfold MedicalSummaryFields.fill. simpl.
    destruct (has f data) eqn:H.
    + destruct (get k data) eqn:G; auto.
      destruct (String.eqb k f) eqn:E; auto.
      apply String.eqb_eq in E. subst. unfold has in H. now rewrite G in H.
    + rewrite get_set. rewrite (String.eqb_sym k f).
      destruct (String.eqb f k) eqn:E; auto.
      apply String.eqb_eq in E. subst. unfold has in H.
      now destruct (get k data).
Qed.

Lemma summary_get (data : dict json) (k : string) :
  get k (MedicalSummaryFields.validate data) =
  match get k data with
  | Some v => Some v
  | None => get k MedicalSummaryFields.get_default
  end.
Proof. apply get_fold_fill. Qed.

Lemma sentiment_get (data : dict json) (k : string) :
  get k (SentimentIntentFields.validate data) =
  match get k data with
  | Some v => Some v
  | None => get k SentimentIntentFields.get_default
  end.
Proof. apply (get_fold_fill SentimentIntentFields.get_default). Qed.

Lemma get_absent {V} (k : string) (d : dict V) :
  ~ In k (keys d) -> get k d = None.
Proof.
  intros H. destruct (get k d) eqn:G; auto.
  exfalso. apply H. apply get_in_keys. eauto.
Qed.

(** *** The SOAP validator *)

Lemma needs_default_set_other (k f : string) (v : json) (sec : dict json) :
  f <> k ->
  SOAPFields.needs_default k (set f v sec) = SOAPFields.needs_default k sec.
Proof.
  intros H. unfold SOAPFields.needs_default. now rewrite get_set_other.
Qed.

(** The inner loop: each default key is examined on the section as the
    input had it, and the other keys are left alone. *)
Lemma get_fold_fill_subfield (defs sec : dict json) (k : string) :
  NoDup (keys defs) ->
  get k (fold_left SOAPFields.fill_subfield defs sec) =
  if existsb (String.eqb k) (keys defs) && SOAPFields.needs_default k sec
  then get k defs else get k sec.
Proof.
  revert sec. induction defs as [|[f dv] defs IH]; intros sec ND; simpl.
  - reflexivity.
  - inversion ND as [|? ? Hnotin ND']; subst.
    rewrite IH by assumption. unfold SOAPFields.fill_subfield. cbn [fst snd get keys map].
    destruct (String.eqb k f) eqn:E.
    + apply String.eqb_eq in E. subst f. simpl.
      assert (X : existsb (String.eqb k) (keys defs) = false).
      { destruct (existsb _ _) eqn:X; auto.
        apply existsb_exists in X. destruct X as [x [Hx Ex]].
        apply String.eqb_eq in Ex. subst. tauto. }
      rewrite X. simpl.
      destruct (SOAPFields.needs_default k sec); auto. apply get_set_same.
    + simpl. apply String.eqb_neq in E.
      destruct (SOAPFields.needs_default f sec).
      * rewrite needs_default_set_other, get_set_other by congruence.
        reflexivity.
      * reflexivity.
Qed.

Lemma NoDup_default_of (section : string) :
  NoDup (keys (SOAPFields.default_of section)).
Proof.
  unfold SOAPFields.default_of, SOAPFields.default_sections. simpl.
  repeat match goal with
         | |- context [String.eqb ?a ?b] => destruct (String.eqb a b)
         end;
    simpl; repeat constructor; simpl; intuition discriminate.
Qed.

(** The outer loop, for any list of distinct section names. *)
Lemma get_fold_fill_section (secs : list string) (data : dict json) (k : string) :
  NoDup secs ->
  get k (fold_left SOAPFields.fill_section secs data) =
  if existsb (String.eqb k) secs
  then Some (JDict (validated_section k (get k data)))
  else get k data.
Proof.
  revert data. induction secs as [|s secs IH]; intros data ND; simpl.
  - reflexivity.
  - inversion ND as [|? ? Hnotin ND']; subst.
    rewrite IH by assumption.
    assert (Other : forall k', s <> k' ->
              get k' (SOAPFields.fill_section data s) = get k' data).
    { intros k' Hne. unfold SOAPFields.fill_section.
      destruct (get s data) as [[]|]; now rewrite get_set_other. }
    destruct (String.eqb k s) eqn:E.
    + apply String.eqb_eq in E. subst s. simpl.
      assert (X : existsb (String.eqb k) secs = false).
      { destruct (existsb _ _) eqn:X; auto.
        apply existsb_exists in X. destruct X as [x [Hx Ex]].
        apply String.eqb_eq in Ex. subst. tauto. }
      rewrite X. unfold SOAPFields.fill_section, validated_section.
      destruct (get k data) as [[]|]; now rewrite get_set_same.
    + simpl. apply String.eqb_neq in E.
      rewrite Other by congruence. reflexivity.
Qed.

Lemma soap_get (data : dict json) (k : string) :
  get k (SOAPFields.validate data) =
  if existsb (String.eqb k) SOAPFields.sections
  then Some (JDict (validated_section k (get k data)))
  else get k data.
Proof.
  apply get_fold_fill_section.
  repeat constructor; simpl; intuition discriminate.
Qed.

Lemma existsb_eqb_in (k : string) (l : list string) :
  existsb (String.eqb k) l = true <-> In k l.
Proof.
  rewrite existsb_exists. split.
  - intros [x [Hx E]]. apply String.eqb_eq in E. now subst.
  - intros H. exists k. split; [assumption | apply String.eqb_refl].
Qed.

Lemma existsb_eqb_out (k : string) (l : list string) :
  ~ In k l -> existsb (String.eqb k) l = false.
Proof.
  intros H. destruct (existsb _ _) eqn:E; auto.
  apply existsb_eqb_in in E. tauto.
Qed.

End SchemaFacts.

Module SummaryClaims.
Import PyStr Py PyFacts Shape SchemaFacts MedicalSummaryFields.

(** C1, counterexample.  A record whose [Diagnosis] is a list of two
    strings comes back from the validator, and from the summary stage,
    with that list under [Diagnosis]: the field is present, so it is not
    replaced, and the validated record is not type-correct. *)
Lemma summary_validate_keeps_list_diagnosis :
  get DIAGNOSIS
      (validate [ (DIAGNOSIS, JList [JStr "Whiplash injury"; JStr "Back strain"]) ])
    = Some (JList [JStr "Whiplash injury"; JStr "Back strain"])
  /\ well_typed_summary
       (validate [ (DIAGNOSIS, JList [JStr "Whiplash injury"; JStr "Back strain"]) ])
     = false
  /\ LLM.extract_medical_summary
       (Some (JDict [ (DIAGNOSIS, JList [JStr "Whiplash injury"; JStr "Back strain"]) ]))
     = JDict [ (DIAGNOSIS, JList [JStr "Whiplash injury"; JStr "Back strain"]);
               (PATIENT_NAME, JStr "Unknown");
               (SYMPTOMS, JList []);
               (TREATMENT, JList []);
               (CURRENT_STATUS, JStr "Unknown");
               (PROGNOSIS, JStr "Unknown") ].
Proof. repeat split. Qed.

Lemma get_default_field (f : string) :
  In f get_field_list -> exists dv, get f get_default = Some dv.
Proof.
  simpl. intros H.
  repeat (destruct H as [<-|H]; [eexists; reflexivity|]). destruct H.
Qed.

Lemma forallb_fields (P : string -> bool) :
  forallb P get_field_list = true <-> forall f, In f get_field_list -> P f = true.
Proof. apply forallb_forall. Qed.

(** C1, as amended.  For every input record the validator returns a
    record in which all six required fields are present; a field that
    the input has keeps the value the input gave it, whatever its type
    and also when it is empty; a required field that the input lacks
    receives its documented default (['Unknown'] for the strings, the
    empty list for the lists); no other key appears.  Hence the result is
    type-correct exactly when each required field that the input has is
    of the prescribed type, and [Diagnosis] is a string in the result
    exactly when it is absent from the input or a string there. *)
Theorem summary_validate_fills_absent (data : dict json) :
  (forall f, In f get_field_list -> has f (validate data) = true) /\
  (forall k v, get k data = Some v -> get k (validate data) = Some v) /\
  (forall k, get k data = None -> get k (validate data) = get k get_default) /\
  get_default =
    [ (PATIENT_NAME, JStr "Unknown"); (SYMPTOMS, JList []);
      (DIAGNOSIS, JStr "Unknown"); (TREATMENT, JList []);
      (CURRENT_STATUS, JStr "Unknown"); (PROGNOSIS, JStr "Unknown") ] /\
  (well_typed_summary (validate data) = true <->
   forall f v, In f get_field_list -> get f data = Some v ->
               summary_field_ok f v = true) /\
  ((exists s, get DIAGNOSIS (validate data) = Some (JStr s)) <->
   get DIAGNOSIS data = None \/ exists s, get DIAGNOSIS data = Some (JStr s)).
Proof.
  split.
  { intros f Hf. unfold has. rewrite summary_get.
    destruct (get f data); auto.
    destruct (get_default_field f Hf) as [dv ->]. reflexivity. }
  split.
  { intros k v H. now rewrite summary_get, H. }
  split.
  { intros k H. now rewrite summary_get, H. }
  split; [reflexivity|].
  split.
  { unfold well_typed_summary. rewrite forallb_fields. split.
    - intros H f v Hf G. specialize (H f Hf).
      now rewrite summary_get, G in H.
    - intros H f Hf. rewrite summary_get.
      destruct (get f data) as [v|] eqn:G; [now apply (H f v)|].
      simpl in Hf.
      repeat (destruct Hf as [<-|Hf]; [reflexivity|]). destruct Hf. }
  rewrite summary_get. destruct (get DIAGNOSIS data) as [v|]; split.
  - intros [s [= ->]]. right. eauto.
  - intros [H|[s [= ->]]]; [discriminate | eauto].
  - auto.
  - intros _. exists "Unknown". reflexivity.
Qed.

(** The amended statement at a record that lacks four fields and has an
    empty [Diagnosis] and an extra key. *)
Lemma summary_validate_fills_absent_witness :
  get DIAGNOSIS
      (validate [ (DIAGNOSIS, JStr ""); (PATIENT_NAME, JStr "Janet Jones");
                  ("Notes", JInt 3) ])
    = Some (JStr "").
Proof.
  apply (proj1 (proj2 (summary_validate_fills_absent
           [ (DIAGNOSIS, JStr ""); (PATIENT_NAME, JStr "Janet Jones");
             ("Notes", JInt 3) ]))).
  reflexivity.
Defined.

End SummaryClaims.

Module SOAPClaims.
Import PyStr Py PyFacts Shape SchemaFacts SOAPFields.

(** C5, counterexample.  A [Subjective] section whose [Chief_Complaint]
    is the JSON value [false]: the sub-field is present, it is not
    empty and it is not a whitespace-only string, yet the validator
    replaces it by ['Not documented'], because [not False] holds. *)
Lemma soap_validate_replaces_false :
  absent_empty_or_blank SUBJECTIVE_CHIEF_COMPLAINT
    [ (SUBJECTIVE_CHIEF_COMPLAINT, JBool false);
      (SUBJECTIVE_HISTORY, JStr "Neck pain since the accident") ] = false
  /\ get SUBJECTIVE
       (validate
          [ (SUBJECTIVE,
             JDict [ (SUBJECTIVE_CHIEF_COMPLAINT, JBool false);
                     (SUBJECTIVE_HISTORY, JStr "Neck pain since the accident") ]) ])
     = Some (JDict [ (SUBJECTIVE_CHIEF_COMPLAINT, JStr "Not documented");
                     (SUBJECTIVE_HISTORY, JStr "Neck pain since the accident") ]).
Proof. split; reflexivity. Qed.

Lemma default_subfield (s f : string) :
  In s sections -> In f (keys (default_of s)) ->
  get f (default_of s) = Some not_documented.
Proof.
  simpl. intros Hs.
  repeat (destruct Hs as [<-|Hs];
          [simpl; intros Hf;
           repeat (destruct Hf as [<-|Hf]; [reflexivity|]); destruct Hf|]).
  destruct Hs.
Qed.

Lemma fold_fill_subfield_id (defs sec : dict json) :
  (forall f, In f (keys defs) -> needs_default f sec = false) ->
  fold_left fill_subfield defs sec = sec.
Proof.
  induction defs as [|[f dv] defs IH]; simpl; intros H; auto.
  unfold fill_subfield at 2. simpl. rewrite (H f) by auto. apply IH. auto.
Qed.

(** Python's [not v]: the values that count as false. *)
Lemma falsy_values (v : json) :
  truthy v = false <->
  v = JNull \/ v = JBool false \/ v = JInt 0 \/
  (exists x, v = JFloat x /\ PrimFloat.eqb x 0%float = true) \/
  v = JStr "" \/ v = JList [] \/ v = JDict [].
Proof.
  destruct v as [|b|n|x|s|l|d]; simpl; split; intros H;
    repeat match goal with
           | H : _ \/ _ |- _ => destruct H
           | H : exists _, _ |- _ => destruct H as [? [? ?]]
           end;
    try discriminate; try tauto.
  - destruct b; [discriminate | tauto].
  - match goal with H : _ = JBool _ |- _ => now inversion H end.
  - apply negb_false_iff, Z.eqb_eq in H. subst. tauto.
  - match goal with H : _ = JInt _ |- _ => now inversion H end.
  - apply negb_false_iff in H. right. right. right. left. eauto.
  - match goal with H : JFloat _ = JFloat _ |- _ => inversion H; subst end.
    now apply negb_false_iff.
  - destruct s; [tauto | discriminate].
  - match goal with H : JStr _ = JStr _ |- _ => now inversion H end.
  - destruct l; [tauto | discriminate].
  - match goal with H : JList _ = JList _ |- _ => now inversion H end.
  - destruct d; [tauto | discriminate].
  - match goal with H : JDict _ = JDict _ |- _ => now inversion H end.
Qed.

(** C5, as amended.  For every input record the SOAP validator returns
    a record with all four sections present, each a record.  A section
    that is absent or not a record is replaced by that section's full
    default sub-record.  Otherwise each of its two sub-fields is checked
    on its own and replaced by ['Not documented'] exactly when it is
    absent, false in Python's sense (null, [false], zero, the empty
    string, list or record) or a whitespace-only string; the other keys
    of the section stay as they are.  In particular a section whose two
    sub-fields need no default is returned untouched, also when another
    section (say [Objective]) is missing and receives its default. *)
Theorem soap_validate_sections (data : dict json) :
  (forall s, In s sections ->
     get s (validate data) = Some (JDict (validated_section s (get s data)))) /\
  (forall s, In s sections ->
     (forall sec, get s data <> Some (JDict sec)) ->
     get s (validate data) = Some (JDict (default_of s))) /\
  (forall s sec, In s sections -> get s data = Some (JDict sec) ->
     exists sec',
       get s (validate data) = Some (JDict sec') /\
       (forall f, In f (keys (default_of s)) ->
          get f sec' = if needs_default f sec
                       then Some (JStr "Not documented") else get f sec) /\
       (forall k, ~ In k (keys (default_of s)) -> get k sec' = get k sec)) /\
  (forall f sec,
     needs_default f sec = true <->
     get f sec = None \/
     exists v, get f sec = Some v /\
       (truthy v = false \/ exists t, v = JStr t /\ strip t = "")) /\
  (forall s sec, In s sections -> get s data = Some (JDict sec) ->
     (forall f, In f (keys (default_of s)) -> needs_default f sec = false) ->
     get s (validate data) = Some (JDict sec)) /\
  default_sections =
    [ ("Subjective", [ ("Chief_Complaint", JStr "Not documented");
                       ("History_of_Present_Illness", JStr "Not documented") ]);
      ("Objective", [ ("Physical_Exam", JStr "Not documented");
                      ("Observations", JStr "Not documented") ]);
      ("Assessment", [ ("Diagnosis", JStr "Not documented");
                       ("Severity", JStr "Not documented") ]);
      ("Plan", [ ("Treatment", JStr "Not documented");
                 ("Follow-Up", JStr "Not documented") ]) ].
Proof.
  assert (Sec : forall s, In s sections ->
            get s (validate data) =
            Some (JDict (validated_section s (get s data)))).
  { intros s Hs. rewrite soap_get.
    now rewrite (proj2 (existsb_eqb_in s sections) Hs). }
  split; [exact Sec|]. split.
  { intros s Hs Hnd. rewrite (Sec s Hs). unfold validated_section.
    destruct (get s data) as [[]|]; try reflexivity.
    exfalso. now apply (Hnd d). }
  split.
  { intros s sec Hs G. rewrite (Sec s Hs), G. simpl.
    eexists. split; [reflexivity|]. split.
    - intros f Hf.
      rewrite get_fold_fill_subfield by apply NoDup_default_of.
      rewrite (proj2 (existsb_eqb_in f _) Hf). simpl.
      now rewrite (default_subfield s f Hs Hf).
    - intros k Hk.
      rewrite get_fold_fill_subfield by apply NoDup_default_of.
      now rewrite (existsb_eqb_out k _ Hk). }
  split.
  { intros f sec. unfold needs_default.
    destruct (get f sec) as [v|]; [|split; auto].
    rewrite orb_true_iff, negb_true_iff. split.
    - intros [H|H]; right; exists v; split; auto.
      right. destruct v; try discriminate. simpl in H.
      exists s. split; [reflexivity|]. now destruct (strip s).
    - intros [H|[v' [[= <-] [H|[t [-> H]]]]]]; [discriminate | auto |].
      right. simpl. now rewrite H. }
  split; [|reflexivity].
  intros s sec Hs G Hok. rewrite (Sec s Hs), G. simpl.
  now rewrite fold_fill_subfield_id.
Qed.

(** The amended statement on a record whose [Objective] section is
    missing and whose [Subjective] section is complete. *)
Lemma soap_validate_sections_witness :
  get OBJECTIVE
      (validate [ (SUBJECTIVE,
                   JDict [ (SUBJECTIVE_CHIEF_COMPLAINT, JStr "Neck pain");
                           (SUBJECTIVE_HISTORY, JStr "Car accident") ]) ])
    = Some (JDict (default_of OBJECTIVE))
  /\ get SUBJECTIVE
      (validate [ (SUBJECTIVE,
                   JDict [ (SUBJECTIVE_CHIEF_COMPLAINT, JStr "Neck pain");
                           (SUBJECTIVE_HISTORY, JStr "Car accident") ]) ])
    = Some (JDict [ (SUBJECTIVE_CHIEF_COMPLAINT, JStr "Neck pain");
                    (SUBJECTIVE_HISTORY, JStr "Car accident") ]).
Proof.
  pose proof (soap_validate_sections
    [ (SUBJECTIVE,
       JDict [ (SUBJECTIVE_CHIEF_COMPLAINT, JStr "Neck pain");
               (SUBJECTIVE_HISTORY, JStr "Car accident") ]) ])
    as [_ [Hdef [_ [_ [Hsame _]]]]].
  split.
  - apply Hdef; [simpl; tauto | intros sec; discriminate].
  - apply Hsame; [simpl; tauto | reflexivity |].
    intros f [<-|[<-|[]]]; reflexivity.
Defined.

End SOAPClaims.

(** ** Intent decoding *)

Module LLMFacts.
Import PyStr Py Config PyFacts LLM.

(** With at least one configured label the intent decoder returns one
    of the labels. *)
Lemma analyze_intent_in_labels (cfg : config) (generated : string) :
  intent_labels cfg <> [] ->
  exists intent, analyze_intent cfg generated = Ok intent /\
                 In intent (intent_labels cfg).
Proof.
  intros Hne. unfold analyze_intent.
  destruct (existsb _ _) eqn:E.
  - exists (strip generated). split; [reflexivity|].
    apply existsb_exists in E. destruct E as [x [Hx Ex]].
    apply String.eqb_eq in Ex. now subst.
  - destruct (find _ _) as [intent|] eqn:F.
    + exists intent. split; [reflexivity|]. now apply find_some in F.
    + destruct (intent_labels cfg) as [|first rest]; [congruence|].
      exists first. simpl. auto.
Qed.

Lemma analyze_sentiment_closed (classified : option (string * float)) :
  In (analyze_sentiment classified) ["Anxious"; "Neutral"; "Reassured"].
Proof.
  unfold analyze_sentiment. destruct classified as [[label score]|]; simpl; auto.
  destruct (_ && _); simpl; auto. destruct (_ && _); simpl; auto.
Qed.

End LLMFacts.

(** ** The orchestrator *)

Module MainFacts.
Import PyStr Re Py Config Preprocessing PyFacts Main.

Section Process.

Variable fsum : list float -> float.
Variable truediv : float -> nat -> float.
Variable round : float -> Z -> float.
Variable re_compile : string -> option pattern.

Let run := process fsum truediv round re_compile.
Let clean := clean_transcript re_compile.
Let built := Run.built fsum truediv round re_compile.

(** A file that cannot be read aborts the run. *)
Lemma process_unread (cfg : config) (fs : files) (path now iso : string)
    (c : collaborators) (e : exn) :
  read_text fs path = Raise e ->
  run cfg fs path now iso c = Raise e.
Proof.
  intros H. unfold run, process. now rewrite H.
Qed.

(** A rejected transcript aborts the run. *)
Lemma process_rejected (cfg : config) (fs : files) (path now iso raw : string)
    (c : collaborators) :
  read_text fs path = Ok raw ->
  validate_transcript (split_speakers cfg (clean cfg raw)) = false ->
  run cfg fs path now iso c = Raise (ValueError "Invalid transcript format").
Proof.
  intros R H. unfold run, process. rewrite R. cbn [bind].
  unfold clean in H. now rewrite H.
Qed.

(** An accepted transcript goes through every analysis step, none of
    which raises, and the composite is returned when the files are
    written. *)
Lemma process_accepted (cfg : config) (fs : files) (path now iso raw : string)
    (c : collaborators) :
  intent_labels cfg <> [] ->
  read_text fs path = Ok raw ->
  validate_transcript (split_speakers cfg (clean cfg raw)) = true ->
  exists cats si,
    NER.categorize_entities cfg (ner_entities c) = Ok cats /\
    LLM.analyze_sentiment_intent cfg
      (patient (split_speakers cfg (clean cfg raw)))
      (sentiment_class c) (intent_text c) = Ok si /\
    run cfg fs path now iso c =
    match save_outputs cfg fs (built cfg path now iso raw c cats si) now with
    | Ok _ => Ok (built cfg path now iso raw c cats si)
    | Raise e => Raise e
    end.
Proof.
  intros Hne R Hv. unfold run, process, built, Run.built. rewrite R. cbn [bind].
  unfold clean in *.
  set (sp := split_speakers cfg (clean_transcript re_compile cfg raw)) in *.
  rewrite Hv. cbn [negb].
  destruct (NERFacts.fold_place_spec cfg (ner_entities c)
              (NER.empty_categories cfg) eq_refl) as [cats [E _]].
  unfold NER.categorize_entities. rewrite E. cbn [bind].
  unfold LLM.analyze_sentiment_intent.
  destruct (patient sp) as [|p ps].
  - cbn [bind]. eexists _, _. repeat split.
  - destruct (LLMFacts.analyze_intent_in_labels cfg (intent_text c) Hne)
      as [intent [Ei _]].
    rewrite Ei. cbn [bind]. eexists _, _. repeat split.
Qed.

(** What a run that returns has read, computed and written. *)
Lemma process_inv (cfg : config) (fs : files) (path now iso : string)
    (c : collaborators) (out : composite) :
  run cfg fs path now iso c = Ok out ->
  exists raw,
    read_text fs path = Ok raw /\
    validate_transcript (split_speakers cfg (clean cfg raw)) = true /\
    exists cats si,
      NER.categorize_entities cfg (ner_entities c) = Ok cats /\
      LLM.analyze_sentiment_intent cfg
        (patient (split_speakers cfg (clean cfg raw)))
        (sentiment_class c) (intent_text c) = Ok si /\
      out = built cfg path now iso raw c cats si /\
      save_outputs cfg fs out now = Ok tt.
Proof.
  unfold run, process, built, Run.built, clean.
  destruct (read_text fs path) as [raw|e]; cbn [bind]; [|discriminate].
  set (sp := split_speakers cfg (clean_transcript re_compile cfg raw)).
  destruct (validate_transcript sp) eqn:Hv; cbn [negb]; [|discriminate].
  destruct (NER.categorize_entities cfg (ner_entities c)) as [cats|e] eqn:Hc;
    cbn [bind]; [|discriminate].
  destruct (LLM.analyze_sentiment_intent cfg (patient sp) (sentiment_class c)
              (intent_text c)) as [si|e] eqn:Hsi; cbn [bind]; [|discriminate].
  destruct (save_outputs _ _ _ _) as [[]|e] eqn:S; cbn [bind]; [|discriminate].
  intros [= <-]. exists raw. split; [reflexivity|]. split; [exact Hv|].
  exists cats, si. repeat split; assumption.
Qed.

End Process.

End MainFacts.

(** ** Claims about the orchestrator and the decoders *)

Module PipelineClaims.
Import PyStr Re Py Config Preprocessing PyFacts Main Shape Samples.

(** C7, counterexample.  On a file system that cannot be written, the
    run on the sample transcript is aborted although
    [validate_transcript] returns [True]: writing the result files is
    inside the [try] of [process], whose handler raises again. *)
Lemma run_aborts_after_validation :
  validate_transcript
    (split_speakers CONFIG
       (clean_transcript sample_compile CONFIG sample_transcript)) = true /\
  process sample_sum sample_div sample_round sample_compile CONFIG
    (read_only_disk sample_transcript) "visit.txt" "20240101_120000"
    "2024-01-01T12:00:00" sample_answers
  = Raise (OSError "Read-only file system").
Proof. split; vm_compute; reflexivity. Qed.

(** C7, as amended.  [validate_transcript] is a total function to
    [bool] (it returns, it never raises); it returns [False] exactly
    when the doctor sequence is empty, or the patient sequence is empty,
    or the full text has fewer than 50 characters, and [True] otherwise.
    The orchestrator aborts the run when the file cannot be read; once
    it is read, it aborts with [ValueError('Invalid transcript format')]
    when [validate_transcript] returns [False]; and when it returns
    [True] no analysis step aborts the run, which returns the composite
    if the result files are written and is aborted with the error of
    the write otherwise. *)
Theorem validate_transcript_gate
    (fsum : list float -> float) (truediv : float -> nat -> float)
    (round : float -> Z -> float) (re_compile : string -> option pattern)
    (cfg : config) (fs : files) (path now iso : string) (c : collaborators) :
  intent_labels cfg <> [] ->
  (forall sp, validate_transcript sp = false <->
              doctor sp = [] \/ patient sp = [] \/
              String.length (full_text sp) < 50) /\
  (forall sp, validate_transcript sp = true <->
              ~ (doctor sp = [] \/ patient sp = [] \/
                 String.length (full_text sp) < 50)) /\
  (forall e, read_text fs path = Raise e ->
     process fsum truediv round re_compile cfg fs path now iso c = Raise e) /\
  (forall raw,
     read_text fs path = Ok raw ->
     validate_transcript
       (split_speakers cfg (clean_transcript re_compile cfg raw)) = false ->
     process fsum truediv round re_compile cfg fs path now iso c
     = Raise (ValueError "Invalid transcript format")) /\
  (forall raw,
     read_text fs path = Ok raw ->
     validate_transcript
       (split_speakers cfg (clean_transcript re_compile cfg raw)) = true ->
     exists cats si,
       NER.categorize_entities cfg (ner_entities c) = Ok cats /\
       LLM.analyze_sentiment_intent cfg
         (patient (split_speakers cfg (clean_transcript re_compile cfg raw)))
         (sentiment_class c) (intent_text c) = Ok si /\
       process fsum truediv round re_compile cfg fs path now iso c =
       match save_outputs cfg fs
               (Run.built fsum truediv round re_compile cfg path now iso raw c
                          cats si) now with
       | Ok _ => Ok (Run.built fsum truediv round re_compile cfg path now iso
                               raw c cats si)
       | Raise e => Raise e
       end).
Proof.
  intros Hne.
  assert (V : forall sp, validate_transcript sp = false <->
              doctor sp = [] \/ patient sp = [] \/
              String.length (full_text sp) < 50).
  { intros sp. unfold validate_transcript.
    destruct (doctor sp) as [|d ds]; [tauto|].
    destruct (patient sp) as [|p ps]; [tauto|].
    rewrite negb_false_iff, Nat.ltb_lt.
    split; [tauto|]. intros [H|[H|H]]; [discriminate | discriminate | assumption]. }
  split; [exact V|]. split.
  { intros sp. rewrite <- V. destruct (validate_transcript sp); split; congruence. }
  split.
  { intros e R. now apply MainFacts.process_unread. }
  split.
  { intros raw R Hv. now apply (MainFacts.process_rejected _ _ _ _ _ _ _ _ _ raw). }
  intros raw R Hv.
  exact (MainFacts.process_accepted fsum truediv round re_compile cfg fs path now
           iso raw c Hne R Hv).
Qed.

(** The gate on a transcript that has no patient line. *)
Lemma validate_transcript_gate_witness :
  process sample_sum sample_div sample_round sample_compile CONFIG
    (disk "Doctor: How are you feeling today?") "visit.txt" "20240101_120000"
    "2024-01-01T12:00:00" sample_answers
  = Raise (ValueError "Invalid transcript format").
Proof.
  apply (proj1 (proj2 (proj2 (proj2
           (validate_transcript_gate sample_sum sample_div sample_round
              sample_compile CONFIG (disk "Doctor: How are you feeling today?")
              "visit.txt" "20240101_120000" "2024-01-01T12:00:00" sample_answers
              ltac:(discriminate)))))
           "Doctor: How are you feeling today?" eq_refl).
  reflexivity.
Defined.

(** C8, counterexample.  For the empty patient utterance list the
    sentiment/intent stage returns the default record, whose [Intent]
    is ['Unknown']: not one of the configured labels. *)
Lemma intent_unknown_for_no_utterance :
  LLM.analyze_sentiment_intent CONFIG [] None "Reporting symptoms"
    = Ok [ ("Sentiment", JStr "Neutral"); ("Intent", JStr "Unknown") ]
  /\ existsb (String.eqb "Unknown") (intent_labels CONFIG) = false.
Proof. split; reflexivity. Qed.

(** C8, as amended.  With a non-empty label vocabulary, for every
    collaborator output and every non-empty patient utterance list the
    [Intent] of the sentiment/intent result is one of the configured
    labels: the stripped output itself when it is a label; otherwise the
    first label, in configured order, whose lower-cased form is a
    substring of the lower-cased output; otherwise the first configured
    label.  For the empty utterance list the result is the default
    record (['Neutral'], ['Unknown']).  The orchestrator only calls the
    stage after validation, so in a composite result [Intent] is always
    one of the configured labels. *)
Theorem intent_in_vocabulary (cfg : config) :
  intent_labels cfg <> [] ->
  (forall p ps classified generated,
     exists intent,
       LLM.analyze_sentiment_intent cfg (p :: ps) classified generated
         = Ok [ ("Sentiment", JStr (LLM.analyze_sentiment classified));
                ("Intent", JStr intent) ] /\
       In intent (intent_labels cfg) /\
       (In (strip generated) (intent_labels cfg) -> intent = strip generated) /\
       (~ In (strip generated) (intent_labels cfg) ->
        match find (fun l => contains (lower l) (lower (strip generated)))
                   (intent_labels cfg) with
        | Some l => intent = l
        | None => Some intent = List.hd_error (intent_labels cfg)
        end)) /\
  (forall classified generated,
     LLM.analyze_sentiment_intent cfg [] classified generated
       = Ok [ ("Sentiment", JStr "Neutral"); ("Intent", JStr "Unknown") ]) /\
  (forall fsum truediv round re_compile fs path now iso c out,
     process fsum truediv round re_compile cfg fs path now iso c = Ok out ->
     exists intent,
       get "Intent" (sentiment_intent out) = Some (JStr intent) /\
       In intent (intent_labels cfg)).
Proof.
  intros Hne.
  assert (A : forall p ps classified generated,
     exists intent,
       LLM.analyze_sentiment_intent cfg (p :: ps) classified generated
         = Ok [ ("Sentiment", JStr (LLM.analyze_sentiment classified));
                ("Intent", JStr intent) ] /\
       In intent (intent_labels cfg) /\
       (In (strip generated) (intent_labels cfg) -> intent = strip generated) /\
       (~ In (strip generated) (intent_labels cfg) ->
        match find (fun l => contains (lower l) (lower (strip generated)))
                   (intent_labels cfg) with
        | Some l => intent = l
        | None => Some intent = List.hd_error (intent_labels cfg)
        end)).
  { intros p ps classified generated.
    unfold LLM.analyze_sentiment_intent, LLM.analyze_intent.
    destruct (existsb _ _) eqn:E.
    - exists (strip generated). split; [reflexivity|].
      apply SchemaFacts.existsb_eqb_in in E. tauto.
    - assert (Hout : ~ In (strip generated) (intent_labels cfg)).
      { intros H. apply SchemaFacts.existsb_eqb_in in H. congruence. }
      destruct (find _ _) as [l|] eqn:F.
      + exists l. split; [reflexivity|]. apply find_some in F. tauto.
      + destruct (intent_labels cfg) as [|first rest]; [congruence|].
        exists first. split; [reflexivity|]. simpl in Hout |- *. intuition auto. }
  split; [exact A|]. split; [reflexivity|].
  intros fsum truediv round re_compile fs path now iso c out E.
  destruct (MainFacts.process_inv fsum truediv round re_compile cfg fs path now
              iso c out E) as [raw [_ [Hv [cats [si [_ [Hsi [-> _]]]]]]]].
  cbn [Run.built sentiment_intent].
  unfold validate_transcript in Hv.
  destruct (doctor _); [discriminate|].
  destruct (patient _) as [|p ps]; [discriminate|].
  destruct (A p ps (sentiment_class c) (intent_text c)) as [intent [Ei [Hin _]]].
  rewrite Ei in Hsi. injection Hsi as <-. exists intent. auto.
Qed.

(** The amended statement at the shipped configuration, on an answer
    that wraps a label in extra text. *)
Lemma intent_in_vocabulary_witness :
  exists intent,
    LLM.analyze_sentiment_intent CONFIG ["I am worried about my back"] None
        "I think it is: asking questions."
      = Ok [ ("Sentiment", JStr (LLM.analyze_sentiment None));
             ("Intent", JStr intent) ] /\
    In intent (intent_labels CONFIG).
Proof.
  destruct (proj1 (intent_in_vocabulary CONFIG ltac:(discriminate))
              "I am worried about my back" [] None
              "I think it is: asking questions.") as [intent [E [Hin _]]].
  exists intent. split; assumption.
Defined.

(** C9.  In the composite result the statistics are derived from the
    entity list and its categorisation: [total] is the number of
    entities; [by_category] gives, for every key of the categorised
    mapping, the length of its list; [average_confidence] is
    [round(sum(confidences) / count, 3)] when the count is greater than
    0 and exactly [0.0] when it is 0. *)
Theorem statistics_derived
    (fsum : list float -> float) (truediv : float -> nat -> float)
    (round : float -> Z -> float)
    (re_compile : string -> option pattern)
    (cfg : config) (fs : files) (path now iso : string) (c : collaborators)
    (out : composite) :
  process fsum truediv round re_compile cfg fs path now iso c = Ok out ->
  all_entities (entities out) = ner_entities c /\
  NER.categorize_entities cfg (ner_entities c) = Ok (categorized (entities out)) /\
  total (stats (entities out)) = List.length (all_entities (entities out)) /\
  keys (by_category (stats (entities out))) = keys (categorized (entities out)) /\
  (forall k, get k (by_category (stats (entities out))) =
             option_map (@List.length entity)
                        (get k (categorized (entities out)))) /\
  (0 < List.length (all_entities (entities out)) ->
   average_confidence (stats (entities out)) =
   round (truediv (fsum (map ent_confidence (all_entities (entities out))))
                  (List.length (all_entities (entities out))))
         3%Z) /\
  (List.length (all_entities (entities out)) = 0 ->
   average_confidence (stats (entities out)) = 0%float).
Proof.
  intros E.
  destruct (MainFacts.process_inv fsum truediv round re_compile cfg fs path now
              iso c out E) as [raw [_ [_ [cats [si [Hc [_ [-> _]]]]]]]].
  cbn [Run.built entities all_entities categorized stats compute_statistics total
       by_category average_confidence].
  split; [reflexivity|]. split; [assumption|]. split; [reflexivity|]. split.
  { unfold keys. rewrite map_map. reflexivity. }
  split.
  { intros k. clear Hc E. induction cats as [|[k0 l0] cats IH]; simpl; auto.
    destruct (String.eqb k k0); auto. }
  destruct (ner_entities c) as [|e es]; simpl; split; auto; lia.
Qed.

(** The statistics of the run on the sample transcript with one
    entity: the total is 1 and the mean is formed from the one
    confidence. *)
Lemma statistics_derived_witness :
  match process sample_sum sample_div sample_round sample_compile CONFIG
          (disk sample_transcript) "visit.txt" "20240101_120000"
          "2024-01-01T12:00:00" sample_answers with
  | Ok out =>
      total (stats (entities out)) = List.length (all_entities (entities out))
  | Raise _ => False
  end.
Proof.
  destruct (process sample_sum sample_div sample_round sample_compile CONFIG
              (disk sample_transcript) "visit.txt" "20240101_120000"
              "2024-01-01T12:00:00" sample_answers) as [out|e] eqn:E.
  - apply (statistics_derived sample_sum sample_div sample_round sample_compile
             CONFIG (disk sample_transcript) "visit.txt" "20240101_120000"
             "2024-01-01T12:00:00" sample_answers out E).
  - vm_compute in E. discriminate E.
Defined.

(** C10, counterexample.  The intent answer carries an extra field
    [Note].  [SentimentIntentFields.validate] would keep the field of a
    record, but the run does not call it: the sentiment/intent record
    of the composite is built from the two decoded values and has no
    [Note]. *)
Lemma sentiment_extra_field_dropped :
  get "Note"
      (SentimentIntentFields.validate
         [ ("Intent", JStr "Asking questions"); ("Note", JStr "urgent") ])
    = Some (JStr "urgent") /\
  exists out,
    process sample_sum sample_div sample_round sample_compile CONFIG
      (disk sample_transcript) "visit.txt" "20240101_120000"
      "2024-01-01T12:00:00"
      (mkCollaborators [] None (Some ("NEGATIVE", 0x1.ccccccccccccdp-1%float))
         "{'Intent': 'Asking questions', 'Note': 'urgent'}" None)
    = Ok out /\
    sentiment_intent out =
      [ ("Sentiment", JStr "Anxious"); ("Intent", JStr "Asking questions") ] /\
    get "Note" (sentiment_intent out) = None.
Proof.
  split; [reflexivity|]. eexists. split.
  - vm_compute. reflexivity.
  - split; reflexivity.
Qed.

(** C10, as amended.  Each of the three validators returns, under every
    key that is not one of its required fields or sections, exactly what
    the input record had under that key (nothing when the input had
    nothing).  The summary and SOAP stages hand the validated record to
    the composite result, so an extra field of the collaborator's
    summary or SOAP record is found there unchanged.  The
    sentiment/intent validator is not applied by the run: the
    sentiment/intent record of the composite has the keys [Sentiment]
    and [Intent] and no other. *)
Theorem validators_keep_extra_fields :
  (forall data k, ~ In k MedicalSummaryFields.get_field_list ->
     get k (MedicalSummaryFields.validate data) = get k data) /\
  (forall data k,
     ~ In k [SentimentIntentFields.SENTIMENT; SentimentIntentFields.INTENT] ->
     get k (SentimentIntentFields.validate data) = get k data) /\
  (forall data k, ~ In k SOAPFields.sections ->
     get k (SOAPFields.validate data) = get k data) /\
  (forall fsum truediv round re_compile cfg fs path now iso c out,
     process fsum truediv round re_compile cfg fs path now iso c = Ok out ->
     (forall data k,
        summary_json c = Some (JDict data) ->
        ~ In k MedicalSummaryFields.get_field_list ->
        exists summary,
          medical_summary out = JDict summary /\ get k summary = get k data) /\
     (forall data k,
        soap_json c = Some (JDict data) ->
        ~ In k SOAPFields.sections ->
        exists soap,
          soap_note out = JDict soap /\ get k soap = get k data) /\
     keys (sentiment_intent out) =
       [SentimentIntentFields.SENTIMENT; SentimentIntentFields.INTENT] /\
     (forall k,
        ~ In k [SentimentIntentFields.SENTIMENT; SentimentIntentFields.INTENT] ->
        get k (sentiment_intent out) = None)).
Proof.
  assert (M : forall data k, ~ In k MedicalSummaryFields.get_field_list ->
     get k (MedicalSummaryFields.validate data) = get k data).
  { intros data k Hk. rewrite SchemaFacts.summary_get.
    destruct (get k data); auto. now apply SchemaFacts.get_absent. }
  assert (S : forall data k, ~ In k SOAPFields.sections ->
     get k (SOAPFields.validate data) = get k data).
  { intros data k Hk. rewrite SchemaFacts.soap_get.
    now rewrite (SchemaFacts.existsb_eqb_out k _ Hk). }
  split; [exact M|]. split.
  { intros data k Hk. rewrite SchemaFacts.sentiment_get.
    destruct (get k data); auto. now apply SchemaFacts.get_absent. }
  split; [exact S|].
  intros fsum truediv round re_compile cfg fs path now iso c out E.
  destruct (MainFacts.process_inv fsum truediv round re_compile cfg fs path now
              iso c out E) as [raw [_ [_ [cats [si [_ [Hsi [-> _]]]]]]]].
  cbn [Run.built medical_summary soap_note sentiment_intent]. split.
  { intros data k -> Hk. eexists. split; [reflexivity|]. now apply M. }
  split.
  { intros data k -> Hk. eexists. split; [reflexivity|]. now apply S. }
  assert (K : keys si =
              [SentimentIntentFields.SENTIMENT; SentimentIntentFields.INTENT]).
  { unfold LLM.analyze_sentiment_intent in Hsi.
    destruct (patient _) as [|p ps].
    - injection Hsi as <-. reflexivity.
    - destruct (LLM.analyze_intent cfg (intent_text c)) as [intent|e];
        cbn [bind] in Hsi; [|discriminate].
      injection Hsi as <-. reflexivity. }
  split; [exact K|].
  intros k Hk. destruct (get k si) as [v|] eqn:G; [|reflexivity].
  exfalso. apply Hk. rewrite <- K. apply get_in_keys. now exists v.
Qed.

(** The extra keys of the sample answers in the composite result of
    the sample run. *)
Lemma validators_keep_extra_fields_witness :
  get "Reviewer"
      (MedicalSummaryFields.validate
         [ ("Diagnosis", JStr "Flu"); ("Reviewer", JStr "Dr. A") ])
    = Some (JStr "Dr. A")
  /\ get "Billing"
       (SOAPFields.validate [ ("Plan", JInt 7); ("Billing", JStr "code 12") ])
     = Some (JStr "code 12").
Proof.
  split.
  - apply (proj1 validators_keep_extra_fields
             [ ("Diagnosis", JStr "Flu"); ("Reviewer", JStr "Dr. A") ] "Reviewer").
    simpl. intuition discriminate.
  - apply (proj1 (proj2 (proj2 validators_keep_extra_fields))
             [ ("Plan", JInt 7); ("Billing", JStr "code 12") ] "Billing").
    simpl. intuition discriminate.
Defined.

End PipelineClaims.

(** ** Speaker segmentation *)

Module SegmentFacts.
Import PyStr Re Config Preprocessing Lines.

(** One iteration of the loop, read off the fate of the line. *)
Lemma step_fate (cfg : config) (a : acc) (raw_line : string) :
  step cfg a raw_line =
  match fate_of cfg raw_line with
  | Blank | Dropped => a
  | DoctorTurn u =>
      mkAcc (doctor_lines a ++ [u])%list (patient_lines a) (unmatched a)
  | PatientTurn u =>
      mkAcc (doctor_lines a) (patient_lines a ++ [u])%list (unmatched a)
  | Unmatched => mkAcc (doctor_lines a) (patient_lines a) (S (unmatched a))
  end.
Proof.
  unfold step, fate_of. destruct a as [d p u]. simpl.
  destruct (is_empty (strip raw_line)); [reflexivity|].
  destruct (first_match (doctor_patterns cfg) _) as [pd|].
  - destruct (is_empty (clean_line pd _)); reflexivity.
  - destruct (first_match (patient_patterns cfg) _) as [pp|]; [|reflexivity].
    destruct (is_empty (clean_line pp _)); reflexivity.
Qed.

(** The whole loop: the accumulators grow by the turns of the lines, in
    the order of the lines, and by the number of unmatched lines. *)
Lemma fold_step (cfg : config) (lines : list string) (a : acc) :
  doctor_lines (fold_left (step cfg) lines a) =
    (doctor_lines a ++ flat_map (fun l => doctor_part (fate_of cfg l)) lines)%list /\
  patient_lines (fold_left (step cfg) lines a) =
    (patient_lines a ++ flat_map (fun l => patient_part (fate_of cfg l)) lines)%list /\
  unmatched (fold_left (step cfg) lines a) =
    unmatched a + count (fun l => is_unmatched (fate_of cfg l)) lines.
Proof.
  revert a. induction lines as [|l lines IH]; intros a; simpl.
  - rewrite !app_nil_r. unfold count. simpl. auto.
  - destruct (IH (step cfg a l)) as [Hd [Hp Hu]].
    rewrite Hd, Hp, Hu, step_fate. unfold count. simpl.
    destruct (fate_of cfg l); simpl;
      rewrite <- ?app_assoc; simpl; repeat split; auto; lia.
Qed.

(** Every line has one fate, so the non-blank lines are counted once
    each among the turns, the dropped and the unmatched lines. *)
Lemma count_fates (cfg : config) (lines : list string) :
  count (fun l => negb (is_empty (strip l))) lines =
  List.length (flat_map (fun l => doctor_part (fate_of cfg l)) lines) +
  List.length (flat_map (fun l => patient_part (fate_of cfg l)) lines) +
  count (fun l => is_unmatched (fate_of cfg l)) lines +
  count (fun l => is_dropped (fate_of cfg l)) lines.
Proof.
  unfold count. induction lines as [|l lines IH]; simpl; [reflexivity|].
  rewrite !length_app.
  assert (B : is_empty (strip l) = true -> fate_of cfg l = Blank).
  { intros H. unfold fate_of. now rewrite H. }
  assert (N : is_empty (strip l) = false -> fate_of cfg l <> Blank).
  { intros H. unfold fate_of. rewrite H.
    destruct (first_match (doctor_patterns cfg) _) as [pd|].
    - destruct (is_empty (clean_line pd _)); discriminate.
    - destruct (first_match (patient_patterns cfg) _) as [pp|]; [|discriminate].
      destruct (is_empty (clean_line pp _)); discriminate. }
  destruct (is_empty (strip l)) eqn:E; simpl.
  - rewrite (B eq_refl). simpl. exact IH.
  - specialize (N eq_refl).
    destruct (fate_of cfg l); simpl; try congruence; lia.
Qed.

End SegmentFacts.

Module SegmentClaims.
Import PyStr Re Config Preprocessing Lines SegmentFacts.

(** C2, counterexample.  The one-line text [Doctor:] has one non-empty
    trimmed line; the line matches a doctor pattern, nothing is left of
    it once the marker is removed, and it is neither appended to a
    sequence nor counted as unmatched. *)
Lemma marker_only_line_unaccounted :
  nonblank_lines "Doctor:" = 1 /\
  doctor (split_speakers CONFIG "Doctor:") = [] /\
  patient (split_speakers CONFIG "Doctor:") = [] /\
  unmatched_lines (meta (split_speakers CONFIG "Doctor:")) = 0 /\
  doctor_turns (meta (split_speakers CONFIG "Doctor:"))
    + patient_turns (meta (split_speakers CONFIG "Doctor:"))
    + unmatched_lines (meta (split_speakers CONFIG "Doctor:")) = 0.
Proof. repeat split. Qed.

(** C2, as amended.  For every input text the segmentation result
    satisfies [total_turns == doctor_turns + patient_turns], the turn
    counts being the lengths of the two sequences; and every non-empty
    trimmed line of the input is accounted for in exactly one of four
    ways: as an utterance of the doctor sequence, as an utterance of the
    patient sequence, in the unmatched-line counter, or as a line that
    matched a speaker pattern and was dropped because nothing remained
    of it without the marker.  The sequences keep the order of the
    lines. *)
Theorem split_speakers_accounts (cfg : config) (text : string) :
  total_turns (meta (split_speakers cfg text)) =
    doctor_turns (meta (split_speakers cfg text))
    + patient_turns (meta (split_speakers cfg text)) /\
  doctor_turns (meta (split_speakers cfg text)) =
    List.length (doctor (split_speakers cfg text)) /\
  patient_turns (meta (split_speakers cfg text)) =
    List.length (patient (split_speakers cfg text)) /\
  doctor (split_speakers cfg text) =
    flat_map (fun l => doctor_part (fate_of cfg l)) (split_nl text) /\
  patient (split_speakers cfg text) =
    flat_map (fun l => patient_part (fate_of cfg l)) (split_nl text) /\
  unmatched_lines (meta (split_speakers cfg text)) =
    count (fun l => is_unmatched (fate_of cfg l)) (split_nl text) /\
  nonblank_lines text =
    doctor_turns (meta (split_speakers cfg text))
    + patient_turns (meta (split_speakers cfg text))
    + unmatched_lines (meta (split_speakers cfg text))
    + dropped_lines cfg text.
Proof.
  unfold split_speakers, nonblank_lines, dropped_lines.
  cbn [meta doctor patient total_turns doctor_turns patient_turns unmatched_lines].
  destruct (fold_step cfg (split_nl text) (mkAcc [] [] 0)) as [Hd [Hp Hu]].
  cbn [doctor_lines patient_lines unmatched app] in Hd, Hp, Hu.
  rewrite Hd, Hp, Hu, Nat.add_0_l.
  repeat split. apply count_fates.
Qed.

End SegmentClaims.

(** ** The matcher and [sub] *)

Module ReFacts.
Import PyStr Re Lines.

(** Whatever the matcher answers was answered by its continuation, on a
    rest of the text that is not longer than the text. *)
Lemma star_cls_result {A} (f : ascii -> bool) (s : string) :
  forall prev (k : option ascii -> string -> option A) x,
  star_cls f prev s k = Some x ->
  exists p' rest, k p' rest = Some x /\ String.length rest <= String.length s.
Proof.
  induction s as [|c s IH]; simpl; intros prev k x H.
  - eauto.
  - destruct (f c).
    + destruct (star_cls f (Some c) s k) as [y|] eqn:E; simpl in H.
      * injection H as <-. destruct (IH _ _ _ E) as [p' [rest [Hk Hl]]].
        exists p', rest. split; [assumption | lia].
      * exists prev, (String c s). auto.
    + exists prev, (String c s). auto.
Qed.

Lemma m_result {A} (ic : bool) (r : regex) :
  forall prev s (k : option ascii -> string -> option A) x,
  m ic r prev s k = Some x ->
  exists p' rest, k p' rest = Some x /\ String.length rest <= String.length s.
Proof.
  induction r as [|c|f| |r1 IH1 r2 IH2|r1 IH1 r2 IH2|r1 IH1|f|f];
    simpl; intros prev s k x H.
  - eauto.
  - destruct s as [|c' s']; [discriminate|].
    destruct (chr_eq ic c c'); [|discriminate].
    exists (Some c'), s'. simpl. auto.
  - destruct s as [|c' s']; [discriminate|].
    destruct (f c'); [|discriminate].
    exists (Some c'), s'. simpl. auto.
  - destruct (xorb _ _); [|discriminate]. eauto.
  - destruct (IH1 _ _ _ _ H) as [p1 [s1 [H1 L1]]].
    destruct (IH2 _ _ _ _ H1) as [p2 [s2 [H2 L2]]].
    exists p2, s2. split; [assumption | lia].
  - destruct (m ic r1 prev s k) as [y|] eqn:E; simpl in H.
    + injection H as <-. eauto.
    + eauto.
  - destruct (m ic r1 prev s k) as [y|] eqn:E; simpl in H.
    + injection H as <-. eauto.
    + eauto.
  - eapply star_cls_result; eassumption.
  - destruct s as [|c' s']; [discriminate|].
    destruct (f c'); [|discriminate].
    destruct (star_cls_result _ _ _ _ _ H) as [p' [rest [Hk Hl]]].
    exists p', rest. simpl. split; [assumption | lia].
Qed.

(** A match is not longer than the text. *)
Lemma match_at_le (p : pattern) (prev : option ascii) (s : string)
    (adv : bool) (n : nat) :
  match_at p prev s adv = Some n -> n <= String.length s.
Proof.
  unfold match_at. intros H.
  destruct (m_result _ _ _ _ _ _ H) as [p' [rest [Hk Hl]]]. simpl in Hk.
  destruct (adv && _); [discriminate|]. injection Hk as <-. lia.
Qed.

(** The equation of [sub_go] at a position where a search starts. *)
Lemma sub_go_search (p : pattern) (repl : string) (prev : option ascii)
    (s : string) :
  sub_go p repl prev s 0 =
  match match_at p prev s false with
  | Some (S n) =>
      repl ++ match s with
              | EmptyString => EmptyString
              | String c s' => sub_go p repl (Some c) s' n
              end
  | Some 0 =>
      repl ++ match match_at p prev s true with
              | Some (S n) =>
                  repl ++ match s with
                          | EmptyString => EmptyString
                          | String c s' => sub_go p repl (Some c) s' n
                          end
              | _ =>
                  match s with
                  | EmptyString => EmptyString
                  | String c s' => String c (sub_go p repl (Some c) s' 0)
                  end
              end
  | None =>
      match s with
      | EmptyString => EmptyString
      | String c s' => String c (sub_go p repl (Some c) s' 0)
      end
  end.
Proof. destruct s; reflexivity. Qed.

(** Passing over the rest of a match. *)
Lemma sub_go_skip (p : pattern) (repl : string) (n : nat) :
  forall prev s, n <= String.length s ->
  sub_go p repl prev s n = sub_go p repl (prev_after n prev s) (drop n s) 0.
Proof.
  induction n as [|n IH]; intros prev s H.
  - destruct s; reflexivity.
  - destruct s as [|c s]; simpl in H; [lia|].
    simpl. apply IH. lia.
Qed.

(** Where the pattern matches nowhere, [sub] changes nothing. *)
Lemma sub_go_no_match (p : pattern) (repl : string) (s : string) :
  forall prev, no_match_from p prev s = true -> sub_go p repl prev s 0 = s.
Proof.
  induction s as [|c s IH]; intros prev H; rewrite sub_go_search;
    simpl in H; destruct (match_at p prev _ false); try discriminate.
  - reflexivity.
  - f_equal. now apply IH.
Qed.

(** After a non-empty match at the start the scan resumes behind it. *)
Lemma sub_go_after_match (p : pattern) (repl : string) (prev : option ascii)
    (s : string) (n : nat) :
  match_at p prev s false = Some (S n) ->
  sub_go p repl prev s 0 =
  repl ++ sub_go p repl (prev_after (S n) prev s) (drop (S n) s) 0.
Proof.
  intros H. rewrite sub_go_search, H. f_equal.
  apply match_at_le in H.
  destruct s as [|c s]; simpl in H; [lia|].
  simpl. apply sub_go_skip. lia.
Qed.

End ReFacts.

Module UtteranceClaims.
Import PyStr Re Config Preprocessing Lines ReFacts.

(** C6, the code at two failing lines.  The line
    [Doctor: ask the doctor: ok] matches the first doctor pattern with
    the 7-character prefix [Doctor:]; the rest of the line is
    [ ask the doctor: ok], but the utterance appended to the doctor
    sequence is [ask the  ok]: the second [doctor:] is removed as well,
    because [pattern.sub] is called without a count after
    [pattern.match] tested the start of the line only.  The same
    happens inside a word: of [attempt:] the letters [pt:] are taken for
    a patient marker. *)
Lemma later_marker_removed :
  match_at doctor_1 None "Doctor: ask the doctor: ok" false = Some 7 /\
  drop 7 "Doctor: ask the doctor: ok" = " ask the doctor: ok" /\
  doctor (split_speakers CONFIG "Doctor: ask the doctor: ok") = ["ask the  ok"] /\
  match_at patient_1 None "Patient: I had an attempt: fail" false = Some 8 /\
  patient (split_speakers CONFIG "Patient: I had an attempt: fail")
    = ["I had an attem fail"].
Proof. repeat split. Qed.

Lemma first_match_matches (pats : list pattern) (line : string) (p : pattern) :
  first_match pats line = Some p ->
  In p pats /\ exists n, match_at p None line false = Some n.
Proof.
  unfold first_match. intros H. apply find_some in H. destruct H as [Hin Hm].
  split; [assumption|]. unfold matches in Hm.
  destruct (match_at p None line false) as [n|]; [eauto | discriminate].
Qed.

(** When the pattern matches at the start and nowhere behind its
    match, only the matched prefix goes. *)
Lemma sub_prefix_only (p : pattern) (line : string) (n : nat) :
  match_at p None line false = Some n ->
  no_match_from p (prev_after n None line) (drop n line) = true ->
  sub p "" line = drop n line.
Proof.
  intros Hm Hno. unfold sub. destruct n as [|n].
  - simpl in Hno. destruct line; simpl in Hno; now rewrite Hm in Hno.
  - rewrite (sub_go_after_match _ _ _ _ _ Hm). simpl.
    now apply sub_go_no_match.
Qed.

(** X24.  For every line that, once trimmed, matches a speaker pattern
    (doctor patterns first, each list in its order), the first such
    pattern matches a prefix of the line; when that pattern matches
    nowhere in the rest of the line, exactly this prefix is removed and
    the rest of the line, trimmed of surrounding whitespace, is appended
    to that speaker's sequence if it is not empty (and nothing is
    appended if it is); matches of the other patterns in the rest stay
    in the utterance. *)
Theorem matched_prefix_stripped (cfg : config) (a : acc) (raw_line : string)
    (who : bool) (p : pattern) :
  is_empty (strip raw_line) = false ->
  matched_pattern cfg (strip raw_line) = Some (who, p) ->
  exists n,
    match_at p None (strip raw_line) false = Some n /\
    n <= String.length (strip raw_line) /\
    (no_match_from p (prev_after n None (strip raw_line))
                   (drop n (strip raw_line)) = true ->
     step cfg a raw_line =
     if is_empty (strip (drop n (strip raw_line))) then a
     else if who
          then mkAcc (doctor_lines a ++ [strip (drop n (strip raw_line))])%list
                     (patient_lines a) (unmatched a)
          else mkAcc (doctor_lines a)
                     (patient_lines a ++ [strip (drop n (strip raw_line))])%list
                     (unmatched a)).
Proof.
  intros Hne Hmp. unfold matched_pattern in Hmp.
  assert (Hp : exists n, match_at p None (strip raw_line) false = Some n).
  { destruct (first_match (doctor_patterns cfg) _) as [pd|] eqn:Fd.
    - injection Hmp as _ <-. now apply first_match_matches in Fd.
    - destruct (first_match (patient_patterns cfg) _) as [pp|] eqn:Fp;
        [|discriminate].
      injection Hmp as _ <-. now apply first_match_matches in Fp. }
  destruct Hp as [n Hn]. exists n. split; [assumption|].
  split; [now apply match_at_le in Hn|].
  intros Hno. unfold step. rewrite Hne.
  pose proof (sub_prefix_only p _ n Hn Hno) as Hs.
  destruct (first_match (doctor_patterns cfg) _) as [pd|] eqn:Fd.
  - injection Hmp as <- <-. unfold clean_line. rewrite Hs. reflexivity.
  - destruct (first_match (patient_patterns cfg) _) as [pp|] eqn:Fp;
      [|discriminate].
    injection Hmp as <- <-. unfold clean_line. rewrite Hs. reflexivity.
Qed.

(** A patient line that mentions the doctor: the doctor marker behind
    the prefix stays. *)
Lemma matched_prefix_stripped_witness :
  exists n,
    match_at patient_1 None "pt: the doctor: said rest" false = Some n /\
    n <= 25 /\
    (no_match_from patient_1
       (prev_after n None "pt: the doctor: said rest")
       (drop n "pt: the doctor: said rest") = true ->
     step CONFIG (mkAcc [] [] 0) "  pt: the doctor: said rest " =
     if is_empty (strip (drop n "pt: the doctor: said rest")) then mkAcc [] [] 0
     else mkAcc [] [strip (drop n "pt: the doctor: said rest")] 0).
Proof.
  apply (matched_prefix_stripped CONFIG (mkAcc [] [] 0)
           "  pt: the doctor: said rest " false patient_1);
    reflexivity.
Defined.

End UtteranceClaims.

(** ** Cleaning *)

Module CleanFacts.
Import PyStr Re Config Preprocessing Lines ReFacts.

(** *** [strip] *)

Lemma lstrip_fixed (s : string) :
  starts_in is_space s = false -> lstrip s = s.
Proof. destruct s as [|c s]; simpl; [reflexivity|]. now intros ->. Qed.

Lemma lstrip_starts (s : string) : starts_in is_space (lstrip s) = false.
Proof.
  induction s as [|c s IH]; simpl; [reflexivity|].
  destruct (is_space c) eqn:E; [assumption|]. simpl. assumption.
Qed.

(** [rstrip] keeps the first character of what it leaves. *)
Lemma rstrip_starts (f : ascii -> bool) (s : string) :
  starts_in f (rstrip s) = true -> starts_in f s = true.
Proof.
  destruct s as [|c s]; simpl; [auto|].
  destruct (is_space c && is_empty (rstrip s)); simpl; [discriminate | auto].
Qed.

Lemma rstrip_rstrip (s : string) : rstrip (rstrip s) = rstrip s.
Proof.
  induction s as [|c s IH]; simpl; [reflexivity|].
  destruct (is_space c && is_empty (rstrip s)) eqn:E; simpl; [reflexivity|].
  now rewrite IH, E.
Qed.

Lemma strip_strip (s : string) : strip (strip s) = strip s.
Proof.
  unfold strip. rewrite (lstrip_fixed (rstrip (lstrip s))).
  - apply rstrip_rstrip.
  - destruct (starts_in is_space (rstrip (lstrip s))) eqn:E; [|reflexivity].
    apply rstrip_starts in E. now rewrite lstrip_starts in E.
Qed.

(** *** The pattern [[ \t]+] *)

(** When the continuation accepts every rest, the greedy repetition
    takes the whole run. *)
Lemma star_cls_greedy {A} (f : ascii -> bool) (g : string -> A) (s : string) :
  forall prev,
  star_cls f prev s (fun _ rest => Some (g rest)) = Some (g (skip_cls f s)).
Proof.
  induction s as [|c s IH]; intros prev; simpl; [reflexivity|].
  destruct (f c); [|reflexivity]. now rewrite IH.
Qed.

Lemma skip_cls_length (f : ascii -> bool) (s : string) :
  String.length (skip_cls f s) <= String.length s.
Proof.
  induction s as [|c s IH]; simpl; [lia|]. destruct (f c); simpl; lia.
Qed.

Lemma skip_cls_starts (f : ascii -> bool) (s : string) :
  starts_in f (skip_cls f s) = false.
Proof.
  induction s as [|c s IH]; simpl; [reflexivity|].
  destruct (f c) eqn:E; [assumption|]. simpl. assumption.
Qed.

Lemma drop_to_suffix (s t : string) :
  forall u, String.length u = String.length s - String.length t ->
            s = u ++ t -> drop (String.length s - String.length t) s = t.
Proof.
  intros u Hl ->. rewrite <- Hl. clear Hl.
  induction u as [|c u IH]; simpl; [now destruct t | assumption].
Qed.

Lemma skip_cls_suffix (f : ascii -> bool) (s : string) :
  exists u, s = u ++ skip_cls f s.
Proof.
  induction s as [|c s [u IH]]; simpl.
  - exists "". reflexivity.
  - destruct (f c).
    + exists (String c u). simpl. now rewrite <- IH.
    + exists "". reflexivity.
Qed.

Lemma append_length (u t : string) :
  String.length (u ++ t) = String.length u + String.length t.
Proof. induction u as [|c u IH]; simpl; [reflexivity | now rewrite IH]. Qed.

Lemma drop_skip_cls (f : ascii -> bool) (s : string) :
  drop (String.length s - String.length (skip_cls f s)) s = skip_cls f s.
Proof.
  destruct (skip_cls_suffix f s) as [u Hu].
  apply (drop_to_suffix s (skip_cls f s) u); [|assumption].
  pose proof (f_equal String.length Hu) as L.
  rewrite append_length in L. lia.
Qed.

(** A match of [[ \t]+] is the whole run of blanks at the position. *)
Lemma match_blanks (prev : option ascii) (s : string) :
  match_at blanks prev s false =
  if starts_in is_blank s
  then Some (String.length s - String.length (skip_cls is_blank s))
  else None.
Proof.
  unfold match_at, blanks. simpl. destruct s as [|c s]; simpl; [reflexivity|].
  destruct (is_blank c) eqn:E; [|reflexivity].
  exact (star_cls_greedy is_blank
           (fun rest => S (String.length s) - String.length rest) s (Some c)).
Qed.

(** *** Text without tabs and runs of blanks *)

Lemma blank_is_space_char (c : ascii) :
  code c = 32 -> c = " "%char.
Proof.
  unfold code. intros H.
  rewrite <- (ascii_nat_embedding c), H. reflexivity.
Qed.

(** On tidy text the pattern finds single spaces only, and replacing
    them by a space changes nothing. *)
Lemma sub_blanks_tidy (s : string) :
  forall prev, tidy s = true -> sub_go blanks " " prev s 0 = s.
Proof.
  induction s as [|c s IH]; intros prev H; rewrite sub_go_search, match_blanks.
  - reflexivity.
  - simpl in H. simpl starts_in. apply andb_true_iff in H. destruct H as [Hc Hs].
    destruct (is_blank c) eqn:E.
    + apply andb_true_iff in Hc. destruct Hc as [Hc Hn].
      apply Nat.eqb_eq, blank_is_space_char in Hc. subst c.
      apply negb_true_iff in Hn.
      assert (K : skip_cls is_blank (String " " s) = s).
      { simpl. destruct s as [|c' s']; [reflexivity|].
        simpl in Hn. simpl. now rewrite Hn. }
      rewrite K.
      replace (String.length (String " " s) - String.length s) with 1
        by (change (String.length (String " " s)) with (S (String.length s)); lia).
      simpl. f_equal. now apply IH.
    + f_equal. now apply IH.
Qed.

(** One step of the replacement: a run of blanks becomes one space
    and the scan resumes behind the run; another character is kept. *)
Lemma sub_blanks_step (prev : option ascii) (c : ascii) (s : string) :
  sub_go blanks " " prev (String c s) 0 =
  if is_blank c
  then String " " (sub_go blanks " "
                     (prev_after (String.length s - String.length (skip_cls is_blank s))
                                 (Some c) s)
                     (skip_cls is_blank s) 0)
  else String c (sub_go blanks " " (Some c) s 0).
Proof.
  rewrite sub_go_search, match_blanks. cbn [starts_in skip_cls].
  destruct (is_blank c) eqn:E; [|reflexivity].
  pose proof (skip_cls_length is_blank s) as L.
  replace (String.length (String c s) - String.length (skip_cls is_blank s))
    with (S (String.length s - String.length (skip_cls is_blank s)))
    by (change (String.length (String c s)) with (S (String.length s)); lia).
  rewrite sub_go_skip by lia. rewrite drop_skip_cls. reflexivity.
Qed.

(** What the replacement leaves is tidy. *)
Lemma tidy_sub_blanks (n : nat) :
  forall s prev, String.length s <= n ->
  tidy (sub_go blanks " " prev s 0) = true.
Proof.
  induction n as [|n IH]; intros s prev Hl.
  - destruct s; [reflexivity | simpl in Hl; lia].
  - destruct s as [|c s]; [reflexivity|].
    rewrite sub_blanks_step. simpl in Hl.
    destruct (is_blank c) eqn:E.
    + set (t := skip_cls is_blank s).
      set (q := prev_after _ _ _).
      assert (Ht : starts_in is_blank t = false) by apply skip_cls_starts.
      assert (Lt : String.length t <= n).
      { pose proof (skip_cls_length is_blank s). unfold t. lia. }
      assert (To : tidy (sub_go blanks " " q t 0) = true) by now apply IH.
      assert (So : starts_in is_blank (sub_go blanks " " q t 0) = false).
      { destruct t as [|c' t']; [reflexivity|].
        rewrite sub_blanks_step. simpl in Ht. rewrite Ht. simpl. assumption. }
      simpl. now rewrite So, To.
    + simpl. rewrite E. simpl. apply IH. lia.
Qed.

Lemma tidy_tail (c : ascii) (s : string) : tidy (String c s) = true -> tidy s = true.
Proof. simpl. intros H. apply andb_true_iff in H. tauto. Qed.

Lemma tidy_lstrip (s : string) : tidy s = true -> tidy (lstrip s) = true.
Proof.
  induction s as [|c s IH]; intros H; [reflexivity|].
  simpl. destruct (is_space c); [|assumption].
  apply IH. now apply tidy_tail in H.
Qed.

Lemma tidy_rstrip (s : string) : tidy s = true -> tidy (rstrip s) = true.
Proof.
  induction s as [|c s IH]; intros H; [reflexivity|].
  simpl. destruct (is_space c && is_empty (rstrip s)); [reflexivity|].
  pose proof (tidy_tail _ _ H) as Hs. simpl in H |- *.
  rewrite (IH Hs), andb_true_r. rewrite Hs, andb_true_r in H.
  destruct (is_blank c); [|reflexivity].
  apply andb_true_iff in H. destruct H as [Hc Hn]. rewrite Hc. simpl.
  destruct (starts_in is_blank (rstrip s)) eqn:R; [|reflexivity].
  apply rstrip_starts in R. now rewrite R in Hn.
Qed.

Lemma tidy_strip (s : string) : tidy s = true -> tidy (strip s) = true.
Proof. intros H. unfold strip. now apply tidy_rstrip, tidy_lstrip. Qed.

End CleanFacts.

(** ** Filler removal *)

Module FillerFacts.
Import PyStr Re Config Preprocessing Lines Fillers ReFacts CleanFacts.

(** Case-insensitive equality keeps the kind of the character. *)
Lemma is_word_lower (c : ascii) : is_word (lower_c c) = is_word c.
Proof.
  destruct c as [[] [] [] [] [] [] [] []]; reflexivity.
Qed.

Lemma chr_eq_word (a c : ascii) : chr_eq true a c = true -> is_word c = is_word a.
Proof.
  unfold chr_eq. intros H. apply Ascii.eqb_eq in H.
  now rewrite <- (is_word_lower c), <- (is_word_lower a), H.
Qed.

Lemma space_not_word (c : ascii) : is_space c = true -> is_word c = false.
Proof.
  destruct c as [[] [] [] [] [] [] [] []]; simpl; intros H;
    try reflexivity; discriminate H.
Qed.

(** The matcher on a literal word. *)
Lemma m_lit {A} (w : string) :
  forall prev s (k : option ascii -> string -> option A),
  m true (lit w) prev s k =
  match w with
  | EmptyString => k prev s
  | String a w' =>
      match s with
      | String c s' =>
          if chr_eq true a c then m true (lit w') (Some c) s' k else None
      | EmptyString => None
      end
  end.
Proof.
  destruct w as [|a [|b w']]; intros prev s k; reflexivity.
Qed.

Lemma m_lit_boundary {A} (g : string -> A) (w : string) :
  forall prev s,
  m true (lit w) prev s
    (fun p' s' =>
       if xorb (opt_word p') (opt_word (head s')) then Some (g s') else None) =
  if tail_occ w prev s then Some (g (drop (String.length w) s)) else None.
Proof.
  induction w as [|a w IH]; intros prev s; rewrite m_lit.
  - simpl. now destruct s.
  - destruct s as [|c s']; [reflexivity|].
    cbn [tail_occ drop String.length].
    destruct (chr_eq true a c); [apply IH | reflexivity].
Qed.

Lemma tail_occ_length (u : string) :
  forall prev s, tail_occ u prev s = true ->
  String.length (drop (String.length u) s) + String.length u = String.length s.
Proof.
  induction u as [|a u IH]; intros prev s H; simpl.
  - destruct s; simpl; lia.
  - destruct s as [|c s']; [discriminate|]. simpl in H.
    apply andb_true_iff in H. destruct H as [_ H].
    specialize (IH _ _ H). simpl. lia.
Qed.

(** What [\bw\b] matches: the word itself, where it occurs between
    boundaries. *)
Lemma match_filler (w : string) (prev : option ascii) (s : string) :
  match_at (filler_pattern w) prev s false =
  if occ w prev s then Some (String.length w) else None.
Proof.
  unfold match_at, filler_pattern, occ. simpl.
  destruct (xorb (opt_word prev) (opt_word (head s))); [|reflexivity].
  simpl.
  rewrite (m_lit_boundary
             (fun rest => String.length s - String.length rest) w prev s).
  destruct (tail_occ w prev s) eqn:T; [|reflexivity].
  apply tail_occ_length in T. f_equal. lia.
Qed.

(** What follows an occurrence is not a word character. *)
Lemma tail_occ_after (u : string) :
  forall prev s,
  good_from (opt_word prev) u = true -> tail_occ u prev s = true ->
  opt_word (head (drop (String.length u) s)) = false.
Proof.
  induction u as [|a u IH]; intros prev s G T.
  - simpl in *. rewrite G in T. simpl in T.
    destruct s; simpl in *; [reflexivity|].
    now apply negb_true_iff in T.
  - destruct s as [|c s']; [discriminate|]. simpl in *.
    apply andb_true_iff in T. destruct T as [E T].
    apply andb_true_iff in G. destruct G as [_ G].
    apply (IH (Some c) s'); [|assumption].
    simpl. now rewrite (chr_eq_word _ _ E).
Qed.

(** An occurrence of a good filler starts with a word character that
    no word character precedes, and is not empty. *)
Lemma occ_start (w : string) (prev : option ascii) (s : string) :
  good_filler w = true -> occ w prev s = true ->
  opt_word prev = false /\ opt_word (head s) = true /\
  exists n, String.length w = S n.
Proof.
  unfold good_filler, occ. intros G O.
  apply andb_true_iff in O. destruct O as [X T].
  destruct w as [|a w]; [discriminate|].
  destruct s as [|c s']; [discriminate|]. simpl in *.
  apply andb_true_iff in T. destruct T as [E _].
  apply andb_true_iff in G. destruct G as [Ga _].
  rewrite (chr_eq_word _ _ E), Ga in X.
  split; [now destruct (opt_word prev)|].
  split; [now rewrite (chr_eq_word _ _ E)|]. eauto.
Qed.

Lemma occ_after (w : string) (prev : option ascii) (s : string) :
  good_filler w = true -> occ w prev s = true ->
  opt_word (head (drop (String.length w) s)) = false /\
  String.length (drop (String.length w) s) < String.length s.
Proof.
  intros G O. destruct (occ_start w prev s G O) as [Hp [_ [n Hn]]].
  unfold occ in O. apply andb_true_iff in O. destruct O as [_ T].
  split.
  - apply (tail_occ_after w prev s); [|assumption].
    now rewrite Hp.
  - apply tail_occ_length in T. lia.
Qed.

Lemma occ_needs_word (w : string) (prev : option ascii) (s : string) :
  good_filler w = true -> opt_word (head s) = false -> occ w prev s = false.
Proof.
  intros G H. destruct (occ w prev s) eqn:O; [|reflexivity].
  destruct (occ_start w prev s G O) as [_ [H' _]]. congruence.
Qed.

(** *** The scan of [sub] for a filler pattern *)

Lemma scan_delete (w : string) (prev : option ascii) (s : string) :
  good_filler w = true -> occ w prev s = true ->
  scan w prev s =
  scan w (prev_after (String.length w) prev s) (drop (String.length w) s).
Proof.
  intros G O. unfold scan.
  destruct (occ_start w prev s G O) as [_ [_ [n Hn]]].
  rewrite Hn. rewrite (sub_go_after_match _ "" prev s n); [reflexivity|].
  now rewrite match_filler, O, Hn.
Qed.

Lemma scan_keep (w : string) (prev : option ascii) (c : ascii) (s : string) :
  occ w prev (String c s) = false ->
  scan w prev (String c s) = String c (scan w (Some c) s).
Proof.
  intros O. unfold scan. now rewrite sub_go_search, match_filler, O.
Qed.

Lemma scan_nil (w : string) (prev : option ascii) :
  good_filler w = true -> scan w prev "" = "".
Proof.
  intros G. unfold scan. rewrite sub_go_search, match_filler.
  now rewrite (occ_needs_word w prev "" G).
Qed.

(** Behind a character that is not a word character the scan keeps
    that character. *)
Lemma scan_head (w : string) (prev : option ascii) (s : string) :
  good_filler w = true -> opt_word (head s) = false ->
  head (scan w prev s) = head s.
Proof.
  intros G H. destruct s as [|c s].
  - now rewrite scan_nil.
  - rewrite scan_keep; [reflexivity|]. now apply occ_needs_word.
Qed.

(** *** Occurrences of a filler before and after a scan *)

Lemma good_from_cons (b : bool) (u : string) :
  good_from false u = true ->
  exists a u', u = String a u' /\ is_word a = true /\
               good_from (is_word a) u' = true.
Proof.
  destruct u as [|a u']; simpl; [discriminate|].
  intros H. apply andb_true_iff in H. destruct H as [Ha Hu]. eauto.
Qed.

(** An occurrence of the rest of a filler in the scanned text was
    there before the scan. *)
Lemma scan_tail_occ (w' : string) :
  good_filler w' = true ->
  forall s u prev,
  good_from (opt_word prev) u = true ->
  tail_occ u prev (scan w' prev s) = true ->
  tail_occ u prev s = true.
Proof.
  intros G'. induction s as [|c s IH]; intros u prev Gu T.
  - now rewrite scan_nil in T.
  - destruct (occ w' prev (String c s)) eqn:O.
    + exfalso.
      destruct (occ_start _ _ _ G' O) as [Hp _].
      destruct (occ_after _ _ _ G' O) as [Ha _].
      rewrite (scan_delete _ _ _ G' O) in T.
      pose proof (scan_head w'
                    (prev_after (String.length w') prev (String c s))
                    (drop (String.length w') (String c s)) G' Ha) as Hh.
      rewrite Hp in Gu.
      destruct (good_from_cons false u Gu) as [a [u' [-> [Wa _]]]].
      destruct (scan w' _ (drop _ _)) as [|c2 o]; [discriminate|].
      simpl in T. apply andb_true_iff in T. destruct T as [E _].
      apply chr_eq_word in E. simpl in Hh. rewrite <- Hh in Ha. simpl in Ha.
      congruence.
    + rewrite (scan_keep _ _ _ _ O) in T.
      destruct u as [|a u']; [exact T|].
      simpl in T |- *. apply andb_true_iff in T. destruct T as [E T].
      rewrite E. simpl. apply IH; [|assumption].
      simpl in Gu. apply andb_true_iff in Gu. destruct Gu as [_ Gu].
      simpl. now rewrite (chr_eq_word _ _ E).
Qed.

Lemma no_match_filler (w : string) (prev : option ascii) (s : string) :
  no_match_from (filler_pattern w) prev s =
  negb (occ w prev s) &&
  match s with
  | EmptyString => true
  | String c s' => no_match_from (filler_pattern w) (Some c) s'
  end.
Proof.
  destruct s; simpl; rewrite match_filler; now destruct (occ w prev _).
Qed.

Lemma no_match_drop (p : pattern) (n : nat) :
  forall prev s, no_match_from p prev s = true ->
  no_match_from p (prev_after n prev s) (drop n s) = true.
Proof.
  induction n as [|n IH]; intros prev s H.
  - now destruct s.
  - destruct s as [|c s]; [assumption|].
    simpl. apply IH. simpl in H.
    now destruct (match_at p prev (String c s) false).
Qed.

(** After the scan for [w'] the text holds no occurrence of [w], when
    [w] is [w'] itself or had no occurrence before. *)
Lemma scan_no_occ (w w' : string) :
  good_filler w = true -> good_filler w' = true ->
  forall n s prev oprev,
  String.length s <= n ->
  (opt_word (head s) = true -> opt_word prev = opt_word oprev) ->
  w = w' \/ no_match_from (filler_pattern w) prev s = true ->
  no_match_from (filler_pattern w) oprev (scan w' prev s) = true.
Proof.
  intros G G'. induction n as [|n IH]; intros s prev oprev Hl Hrel Hyp.
  - destruct s; [|simpl in Hl; lia].
    rewrite (scan_nil _ _ G'), no_match_filler.
    now rewrite (occ_needs_word w oprev "" G).
  - destruct s as [|c s].
    { rewrite (scan_nil _ _ G'), no_match_filler.
      now rewrite (occ_needs_word w oprev "" G). }
    destruct (occ w' prev (String c s)) eqn:O.
    + destruct (occ_after _ _ _ G' O) as [Ha Hlt].
      rewrite (scan_delete _ _ _ G' O).
      apply IH.
      * lia.
      * rewrite Ha. discriminate.
      * destruct Hyp as [->|Hyp]; [now left | right].
        now apply no_match_drop.
    + rewrite (scan_keep _ _ _ _ O), no_match_filler.
      apply andb_true_iff. split.
      * apply negb_true_iff.
        destruct (occ w oprev (String c (scan w' (Some c) s))) eqn:Oo;
          [exfalso | reflexivity].
        destruct (occ_start _ _ _ G Oo) as [Hop [Hc _]].
        simpl in Hc. simpl in Hrel. specialize (Hrel Hc).
        assert (Os : occ w prev (String c s) = true).
        { unfold occ in Oo |- *. simpl head in *. simpl opt_word in *.
          rewrite Hrel. apply andb_true_iff in Oo. destruct Oo as [X T].
          rewrite X. simpl.
          destruct (good_from_cons false w G) as [a [u' [-> [Wa Gu]]]].
          simpl in T |- *. apply andb_true_iff in T. destruct T as [E T].
          rewrite E. simpl.
          apply (scan_tail_occ w' G' s u' (Some c)); [|assumption].
          simpl. now rewrite (chr_eq_word _ _ E). }
        destruct Hyp as [->|Hyp]; [congruence|].
        rewrite no_match_filler, Os in Hyp. discriminate.
      * apply IH.
        -- simpl in Hl. lia.
        -- reflexivity.
        -- destruct Hyp as [->|Hyp]; [now left | right].
           rewrite no_match_filler in Hyp.
           apply andb_true_iff in Hyp. tauto.
Qed.

(** *** [strip] creates no occurrence *)

Lemma tail_occ_prev (u : string) (prev prev' : option ascii) (s : string) :
  opt_word prev = opt_word prev' -> tail_occ u prev s = tail_occ u prev' s.
Proof.
  intros H. destruct u as [|a u]; simpl; [now rewrite H | reflexivity].
Qed.

Lemma no_match_prev (w : string) (prev prev' : option ascii) (s : string) :
  opt_word prev = opt_word prev' ->
  no_match_from (filler_pattern w) prev s =
  no_match_from (filler_pattern w) prev' s.
Proof.
  intros H. rewrite (no_match_filler w prev), (no_match_filler w prev').
  unfold occ. now rewrite H, (tail_occ_prev w prev prev' s H).
Qed.

Lemma no_match_lstrip (w : string) (s : string) :
  no_match_from (filler_pattern w) None s = true ->
  no_match_from (filler_pattern w) None (lstrip s) = true.
Proof.
  induction s as [|c s IH]; intros H; [assumption|].
  simpl. destruct (is_space c) eqn:E; [|assumption].
  apply IH. rewrite no_match_filler in H.
  apply andb_true_iff in H. destruct H as [_ H].
  rewrite (no_match_prev w None (Some c)); [assumption|].
  simpl. now rewrite (space_not_word c E).
Qed.

Lemma tail_occ_rstrip (u : string) :
  forall s prev, tail_occ u prev (rstrip s) = true -> tail_occ u prev s = true.
Proof.
  intros s. revert u. induction s as [|c s IH]; intros u prev T; [assumption|].
  simpl in T. destruct (is_space c && is_empty (rstrip s)) eqn:E.
  - destruct u as [|a u]; [|discriminate].
    simpl in T |- *. apply andb_true_iff in E. destruct E as [E _].
    now rewrite (space_not_word c E).
  - destruct u as [|a u]; [exact T|].
    simpl in T |- *. apply andb_true_iff in T. destruct T as [Ec T].
    rewrite Ec. simpl. now apply IH.
Qed.

Lemma no_match_rstrip (w : string) :
  good_filler w = true ->
  forall s prev,
  no_match_from (filler_pattern w) prev s = true ->
  no_match_from (filler_pattern w) prev (rstrip s) = true.
Proof.
  intros G. induction s as [|c s IH]; intros prev H; [assumption|].
  rewrite no_match_filler in H. apply andb_true_iff in H. destruct H as [Ho Hs].
  destruct (is_space c && is_empty (rstrip s)) eqn:E.
  - simpl. rewrite E. rewrite no_match_filler.
    now rewrite (occ_needs_word w prev "" G).
  - assert (R : rstrip (String c s) = String c (rstrip s))
      by (simpl; now rewrite E).
    rewrite no_match_filler, R. apply andb_true_iff. split.
    + apply negb_true_iff. apply negb_true_iff in Ho.
      destruct (occ w prev (String c (rstrip s))) eqn:O; [|reflexivity].
      change (xorb (opt_word prev) (is_word c)
              && tail_occ w prev (String c (rstrip s)) = true) in O.
      change (xorb (opt_word prev) (is_word c)
              && tail_occ w prev (String c s) = false) in Ho.
      apply andb_true_iff in O. destruct O as [X T].
      rewrite X in Ho. simpl in Ho.
      rewrite <- R in T. apply tail_occ_rstrip in T. congruence.
    + now apply IH.
Qed.

Lemma no_match_strip (w : string) (s : string) :
  good_filler w = true ->
  no_match_from (filler_pattern w) None s = true ->
  no_match_from (filler_pattern w) None (strip s) = true.
Proof.
  intros G H. unfold strip. now apply no_match_rstrip, no_match_lstrip.
Qed.

(** *** The loop over the filler words *)

Lemma remove_all_keeps (w : string) (fillers : list string) :
  good_filler w = true -> forallb good_filler fillers = true ->
  forall text,
  no_match_from (filler_pattern w) None text = true ->
  no_match_from (filler_pattern w) None (remove_all fillers text) = true.
Proof.
  intros G. induction fillers as [|f fs IH]; intros Gs text H; [assumption|].
  simpl in Gs. apply andb_true_iff in Gs. destruct Gs as [Gf Gs].
  simpl. apply IH; [assumption|].
  apply (scan_no_occ w f G Gf (String.length text)); auto.
Qed.

Lemma remove_all_kills (fillers : list string) :
  forallb good_filler fillers = true ->
  forall text w, In w fillers ->
  no_match_from (filler_pattern w) None (remove_all fillers text) = true.
Proof.
  induction fillers as [|f fs IH]; intros Gs text w Hin; [destruct Hin|].
  simpl in Gs. apply andb_true_iff in Gs. destruct Gs as [Gf Gs].
  simpl. destruct Hin as [<-|Hin].
  - apply remove_all_keeps; [assumption | assumption |].
    apply (scan_no_occ f f Gf Gf (String.length text)); auto.
  - now apply IH.
Qed.

Lemma remove_all_fixed (fillers : list string) (text : string) :
  (forall w, In w fillers ->
             no_match_from (filler_pattern w) None text = true) ->
  remove_all fillers text = text.
Proof.
  induction fillers as [|f fs IH]; intros H; [reflexivity|].
  simpl. unfold sub. rewrite sub_go_no_match by (apply H; simpl; auto).
  apply IH. intros w Hw. apply H. simpl. auto.
Qed.

(** *** Plain fillers: the compiler is not asked and nothing raises *)

Lemma sub_fillers_plain (rc : string -> option pattern) (fillers : list string) :
  forallb plain_filler fillers = true ->
  forall text, sub_fillers rc fillers text = inl (remove_all fillers text).
Proof.
  induction fillers as [|w ws IH]; simpl; intros H text; [reflexivity|].
  apply andb_true_iff in H. destruct H as [Hw Hws].
  unfold compile_filler. rewrite Hw. now apply IH.
Qed.

Lemma clean_transcript_plain (rc : string -> option pattern) (cfg : config)
    (x : string) :
  (remove_fillers cfg = true -> forallb plain_filler (filler_words cfg) = true) ->
  clean_transcript rc cfg x = clean_words cfg x.
Proof.
  intros H. unfold clean_transcript, clean_words.
  destruct (remove_fillers cfg); [|reflexivity].
  now rewrite sub_fillers_plain by auto.
Qed.

End FillerFacts.

Module CleanClaims.
Import PyStr Re Config Preprocessing Lines Fillers ReFacts CleanFacts FillerFacts
       Samples.

(** C3, counterexample.  With whitespace normalisation and filler
    removal both enabled, cleaning [a um b] gives [a  b] (the filler is
    removed after the blanks were collapsed, which leaves two spaces),
    and cleaning that again gives [a b]. *)
Lemma clean_twice_differs :
  clean_transcript sample_compile (with_toggles CONFIG true true) "a um b"
    = "a  b" /\
  clean_transcript sample_compile (with_toggles CONFIG true true)
    (clean_transcript sample_compile (with_toggles CONFIG true true) "a um b")
    = "a b".
Proof. split; reflexivity. Qed.

(** C3, as amended.  [clean] is idempotent for every input string and
    every configuration of the two toggles except the one that enables
    both whitespace normalisation and filler removal: it is idempotent
    whenever filler removal is disabled, and also when filler removal is
    enabled without whitespace normalisation, for filler words made, as
    the configured ones are, of words separated by single spaces. *)
Theorem clean_idempotent (re_compile : string -> option pattern)
    (cfg : config) (x : string) :
  remove_fillers cfg = false \/
  (normalize_whitespace cfg = false /\
   forallb good_filler (filler_words cfg) = true /\
   forallb plain_filler (filler_words cfg) = true) ->
  clean_transcript re_compile cfg (clean_transcript re_compile cfg x)
  = clean_transcript re_compile cfg x.
Proof.
  intros H.
  assert (P : remove_fillers cfg = true ->
              forallb plain_filler (filler_words cfg) = true).
  { intros F. destruct H as [H|[_ [_ H]]]; [congruence | exact H]. }
  rewrite !(clean_transcript_plain re_compile cfg) by exact P.
  unfold clean_words.
  destruct (remove_fillers cfg) eqn:F.
  - destruct H as [H|[N [G _]]]; [discriminate|]. rewrite N.
    change (strip (remove_all (filler_words cfg)
                     (strip (remove_all (filler_words cfg) x)))
            = strip (remove_all (filler_words cfg) x)).
    rewrite remove_all_fixed; [apply strip_strip|].
    intros w Hw. apply no_match_strip.
    + exact (proj1 (forallb_forall _ _) G w Hw).
    + now apply remove_all_kills.
  - destruct (normalize_whitespace cfg); [|apply strip_strip].
    unfold sub at 1.
    rewrite sub_blanks_tidy; [apply strip_strip|].
    apply tidy_strip. apply (tidy_sub_blanks (String.length x)). lia.
Qed.

(** The amended statement at the configured filler words, with filler
    removal enabled and whitespace normalisation disabled. *)
Lemma clean_idempotent_witness :
  clean_transcript sample_compile (with_toggles CONFIG false true)
    (clean_transcript sample_compile (with_toggles CONFIG false true)
       "Um, well you know I mean it like")
  = clean_transcript sample_compile (with_toggles CONFIG false true)
      "Um, well you know I mean it like".
Proof.
  apply (clean_idempotent sample_compile (with_toggles CONFIG false true)).
  right. repeat split.
Defined.

End CleanClaims.

(** ** The end-to-end scenarios of the specification *)

Module Scenarios.
Import PyStr Re Py Config Preprocessing Main Samples.

(** Scenario A: one doctor line and one patient line are segmented
    into one utterance each; at 49 characters the text is below the
    length gate, so validation fails. *)
Example scenario_segmentation :
  let text := "Doctor: How are you?" ++ String newline
                ("Patient: I have a headache." ++ String newline "") in
  doctor (split_speakers CONFIG text) = ["How are you?"] /\
  patient (split_speakers CONFIG text) = ["I have a headache."] /\
  doctor_turns (meta (split_speakers CONFIG text)) = 1 /\
  patient_turns (meta (split_speakers CONFIG text)) = 1 /\
  total_characters (meta (split_speakers CONFIG text)) = 49 /\
  validate_transcript (split_speakers CONFIG text) = false.
Proof. repeat split. Qed.

(** Scenario B: an entity of type [SYMPTOM] goes to the category
    [symptoms], the other categories stay empty. *)
Example scenario_categorisation :
  NER.categorize_entities CONFIG (ner_entities sample_answers) =
  Ok [ ("symptoms", ner_entities sample_answers); ("diseases", []);
       ("treatments", []); ("anatomy", []); ("medications", []);
       ("other", []) ].
Proof. reflexivity. Qed.

(** Scenario C: an answer that is not JSON gives the default summary. *)
Example scenario_default_summary :
  LLM.extract_medical_summary None =
  JDict [ ("Patient_Name", JStr "Unknown"); ("Symptoms", JList []);
          ("Diagnosis", JStr "Unknown"); ("Treatment", JList []);
          ("Current_Status", JStr "Unknown"); ("Prognosis", JStr "Unknown") ].
Proof. reflexivity. Qed.

(** The first doctor pattern on some prefixes. *)
Example doctor_pattern_examples :
  match_at doctor_1 None "DR. :x" false = Some 5 /\
  match_at doctor_1 None "dr:x" false = Some 3 /\
  match_at doctor_1 None "Doctor   : x" false = Some 10 /\
  match_at doctor_1 None "The doctor: x" false = None /\
  match_at doctor_3 None "md: x" false = Some 3.
Proof. repeat split. Qed.

(** A filler that is not a regular expression: [re.sub] raises on
    [\b(\b], and the handler returns the text with its blanks collapsed
    but not stripped. *)
Example filler_that_does_not_compile :
  clean_transcript sample_compile
    (mkConfig ["um"; "("; "uh"] true true [] [] [] "other" []
              (output_filenames CONFIG))
    "  a  um ( uh b "
  = " a  ( uh b ".
Proof. reflexivity. Qed.

(** The five files of a run, in the order in which they are written:
    a file system that refuses the last of them aborts the run. *)
Example complete_file_refused :
  process sample_sum sample_div sample_round sample_compile CONFIG
    (mkFiles (fun _ => Ok sample_transcript) (fun _ => Ok tt)
       (fun _ name _ =>
          if String.eqb name "20240101_120000_complete_results.json"
          then Raise (OSError "No space left on device") else Ok tt))
    "visit.txt" "20240101_120000" "2024-01-01T12:00:00" sample_answers
  = Raise (OSError "No space left on device").
Proof. vm_compute. reflexivity. Qed.

End Scenarios.

(** * Further properties of the code *)

(** ** The validators, applied twice and on any answer *)

Module ValidatorFacts.
Import PyStr Py PyFacts Shape SchemaFacts.

(** Assigning to a key the value it has changes nothing. *)
Lemma set_same {V} (k : string) (v : V) (d : dict V) :
  get k d = Some v -> set k v d = d.
Proof.
  induction d as [|[k0 v0] d IH]; simpl; [discriminate|].
  destruct (String.eqb k k0) eqn:E.
  - now intros [= ->].
  - intros H. now rewrite IH.
Qed.

Lemma fold_fill_present (defs d : dict json) :
  (forall f, In f (keys defs) -> has f d = true) ->
  fold_left MedicalSummaryFields.fill defs d = d.
Proof.
  induction defs as [|[f dv] defs IH]; simpl; intros H; [reflexivity|].
  unfold MedicalSummaryFields.fill at 2. simpl.
  rewrite (H f) by auto. apply IH. auto.
Qed.

(** The filling loop keeps the keys of the input in their order and
    adds the missing default keys behind them, in the order of the
    defaults. *)
Lemma keys_fold_fill (defs : dict json) :
  NoDup (keys defs) ->
  forall d,
  keys (fold_left MedicalSummaryFields.fill defs d) =
  (keys d ++ filter (fun f => negb (has f d)) (keys defs))%list.
Proof.
  induction defs as [|[f dv] defs IH]; intros ND d; simpl.
  - now rewrite app_nil_r.
  - inversion ND as [|? ? Hnotin ND']; subst.
    rewrite (IH ND'). unfold MedicalSummaryFields.fill. simpl.
    destruct (has f d) eqn:H; simpl; [reflexivity|].
    rewrite keys_set_absent
      by (intros Hin; apply has_in_keys in Hin; congruence).
    rewrite <- app_assoc. simpl. do 2 f_equal.
    apply filter_ext_in. intros k Hk. rewrite has_set.
    destruct (String.eqb f k) eqn:E; [|reflexivity].
    apply String.eqb_eq in E. subst. tauto.
Qed.

Lemma not_documented_ok :
  truthy SOAPFields.not_documented = true /\ blank SOAPFields.not_documented = false.
Proof. split; reflexivity. Qed.

(** After validation every required sub-field of every section holds
    a value that needs no default. *)
Lemma soap_validated_section (d : dict json) (s : string) :
  In s SOAPFields.sections ->
  exists sec,
    get s (SOAPFields.validate d) = Some (JDict sec) /\
    forall f, In f (keys (SOAPFields.default_of s)) ->
      exists v, get f sec = Some v /\ truthy v = true /\ blank v = false.
Proof.
  intros Hs. rewrite soap_get, (proj2 (existsb_eqb_in s _) Hs).
  eexists. split; [reflexivity|]. intros f Hf.
  assert (Def : get f (SOAPFields.default_of s) = Some SOAPFields.not_documented).
  { revert Hf. simpl in Hs.
    repeat (destruct Hs as [<-|Hs];
            [simpl; intros Hf;
             repeat (destruct Hf as [<-|Hf]; [reflexivity|]); destruct Hf|]).
    destruct Hs. }
  unfold validated_section.
  destruct (get s d) as [[| | | | | |sec0]|];
    try (exists SOAPFields.not_documented; split; [exact Def | split; reflexivity]).
  rewrite get_fold_fill_subfield by apply NoDup_default_of.
  rewrite (proj2 (existsb_eqb_in f _) Hf). simpl.
  destruct (SOAPFields.needs_default f sec0) eqn:N.
  - exists SOAPFields.not_documented. split; [exact Def | split; reflexivity].
  - unfold SOAPFields.needs_default in N.
    destruct (get f sec0) as [v|]; [|discriminate].
    apply orb_false_iff in N. destruct N as [T B].
    exists v. split; [reflexivity|]. split; [|assumption].
    now apply negb_false_iff in T.
Qed.

Lemma fill_section_fixed (D : dict json) (s : string) :
  (exists sec,
     get s D = Some (JDict sec) /\
     forall f, In f (keys (SOAPFields.default_of s)) ->
       exists v, get f sec = Some v /\ truthy v = true /\ blank v = false) ->
  SOAPFields.fill_section D s = D.
Proof.
  intros [sec [G Hok]]. unfold SOAPFields.fill_section. rewrite G.
  rewrite SOAPClaims.fold_fill_subfield_id.
  - now apply set_same.
  - intros f Hf. destruct (Hok f Hf) as [v [Gv [T B]]].
    unfold SOAPFields.needs_default. now rewrite Gv, T, B.
Qed.

(** The three outcomes of the sentiment mapping. *)
Lemma analyze_sentiment_cases (classified : option (string * float)) :
  In (LLM.analyze_sentiment classified) ["Anxious"; "Neutral"; "Reassured"] /\
  (LLM.analyze_sentiment classified = "Reassured" ->
   exists x, classified = Some ("POSITIVE", x) /\
             PrimFloat.leb LLM.positive_threshold x = true) /\
  (LLM.analyze_sentiment classified = "Anxious" ->
   exists x, classified = Some ("NEGATIVE", x) /\
             PrimFloat.leb LLM.negative_threshold x = true).
Proof.
  unfold LLM.analyze_sentiment.
  destruct classified as [[label x]|];
    [|simpl; split; [tauto|]; split; discriminate].
  destruct (String.eqb label "POSITIVE" && PrimFloat.leb LLM.positive_threshold x)
    eqn:A.
  - apply andb_true_iff in A. destruct A as [A1 A2].
    apply String.eqb_eq in A1. subst label.
    split; [simpl; tauto|]. split; [eauto | discriminate].
  - destruct (String.eqb label "NEGATIVE" && PrimFloat.leb LLM.negative_threshold x)
      eqn:B.
    + apply andb_true_iff in B. destruct B as [B1 B2].
      apply String.eqb_eq in B1. subst label.
      split; [simpl; tauto|]. split; [discriminate | eauto].
    + split; [simpl; tauto|]. split; discriminate.
Qed.

End ValidatorFacts.

Module ValidatorExtras.
Import PyStr Py PyFacts Shape SchemaFacts ValidatorFacts.

(** X1.  [MedicalSummaryFields.validate] keeps the keys of the input
    record in their order and appends the required fields the input
    lacks, in the order of the schema; applied to its own result it
    changes nothing. *)
Theorem summary_validate_order_idempotent (data : dict json) :
  keys (MedicalSummaryFields.validate data) =
    (keys data ++
     filter (fun f => negb (has f data)) MedicalSummaryFields.get_field_list)%list /\
  MedicalSummaryFields.validate (MedicalSummaryFields.validate data) =
    MedicalSummaryFields.validate data.
Proof.
  split.
  - apply (keys_fold_fill MedicalSummaryFields.get_default).
    repeat constructor; simpl; intuition discriminate.
  - apply fold_fill_present. intros f Hf. unfold has. rewrite summary_get.
    destruct (get f data); [reflexivity|].
    apply get_in_keys in Hf. destruct Hf as [v ->]. reflexivity.
Qed.

(** X2.  [SOAPFields.validate] applied to its own result changes
    nothing: a validated note is a fixed point of validation. *)
Theorem soap_validate_idempotent (data : dict json) :
  SOAPFields.validate (SOAPFields.validate data) = SOAPFields.validate data.
Proof.
  unfold SOAPFields.validate at 1.
  assert (H : forall s, In s SOAPFields.sections ->
            SOAPFields.fill_section (SOAPFields.validate data) s =
            SOAPFields.validate data).
  { intros s Hs. apply fill_section_fixed. now apply soap_validated_section. }
  induction SOAPFields.sections as [|s secs IH]; simpl; [reflexivity|].
  rewrite (H s) by (simpl; auto). apply IH. intros s' Hs'. apply H. simpl. auto.
Qed.

(** X3.  Whatever the generative model answered (no JSON at all, JSON
    that is not a record, a record with sections missing, mistyped or
    with empty sub-fields), the SOAP stage returns a record whose four
    sections are records in which each of the two sub-fields is present
    with a value that is true in Python's sense and not a whitespace-only
    string. *)
Theorem soap_stage_complete (parsed : option json) (s f : string) :
  In s SOAPFields.sections ->
  In f (keys (SOAPFields.default_of s)) ->
  exists note sec v,
    LLM.generate_soap_note parsed = JDict note /\
    get s note = Some (JDict sec) /\
    get f sec = Some v /\ truthy v = true /\ blank v = false.
Proof.
  intros Hs Hf.
  assert (E : exists d, LLM.generate_soap_note parsed = JDict (SOAPFields.validate d)).
  { destruct parsed as [[| | | | | |d]|];
      try (exists []; reflexivity). exists d. reflexivity. }
  destruct E as [d E].
  destruct (soap_validated_section d s Hs) as [sec [G Hok]].
  destruct (Hok f Hf) as [v [Gv [T B]]].
  exists (SOAPFields.validate d), sec, v. auto.
Qed.

(** The SOAP stage on an answer that is a JSON number. *)
Lemma soap_stage_complete_witness :
  exists note sec v,
    LLM.generate_soap_note (Some (JInt 7)) = JDict note /\
    get "Plan" note = Some (JDict sec) /\
    get "Follow-Up" sec = Some v /\ truthy v = true /\ blank v = false.
Proof.
  apply (soap_stage_complete (Some (JInt 7)) "Plan" "Follow-Up");
    simpl; tauto.
Defined.

(** X4.  The summary stage returns a record with all six required
    fields, with one exception that the code leaves open: a JSON answer
    that is a list containing the six field names, or a string in which
    the six field names occur, passes the validator untouched and is
    returned as it is. *)
Theorem summary_stage_shape (parsed : option json) :
  (exists summary,
     LLM.extract_medical_summary parsed = JDict summary /\
     forall f, In f MedicalSummaryFields.get_field_list -> has f summary = true)
  \/
  (exists v,
     parsed = Some v /\ LLM.extract_medical_summary parsed = v /\
     ((exists l, v = JList l /\
         forall f, In f MedicalSummaryFields.get_field_list -> in_list f l = true)
      \/
      (exists t, v = JStr t /\
         forall f, In f MedicalSummaryFields.get_field_list -> contains f t = true))).
Proof.
  assert (Def : forall f, In f MedicalSummaryFields.get_field_list ->
                  has f MedicalSummaryFields.get_default = true).
  { intros f Hf. simpl in Hf.
    repeat (destruct Hf as [<-|Hf]; [reflexivity|]). destruct Hf. }
  assert (Val : forall d f, In f MedicalSummaryFields.get_field_list ->
                  has f (MedicalSummaryFields.validate d) = true).
  { intros d f Hf. unfold has. rewrite summary_get.
    destruct (get f d); [reflexivity|]. apply (Def f Hf). }
  unfold LLM.extract_medical_summary, MedicalSummaryFields.validate_json.
  destruct parsed as [v|]; [|left; eexists; split; [reflexivity | exact Def]].
  destruct v as [|b|n|x|t|l|d];
    try (left; eexists; split; [reflexivity | exact Def]).
  - destruct (forallb _ _) eqn:F.
    + right. exists (JStr t). split; [reflexivity|]. split; [reflexivity|].
      right. exists t. split; [reflexivity|]. exact (proj1 (forallb_forall _ _) F).
    + left; eexists; split; [reflexivity | exact Def].
  - destruct (forallb _ _) eqn:F.
    + right. exists (JList l). split; [reflexivity|]. split; [reflexivity|].
      left. exists l. split; [reflexivity|]. exact (proj1 (forallb_forall _ _) F).
    + left; eexists; split; [reflexivity | exact Def].
  - left. eexists. split; [reflexivity | apply Val].
Qed.

(** X5.  The sentiment of the sentiment/intent record is one of
    ['Anxious'], ['Neutral'], ['Reassured'], and the record has exactly
    the keys [Sentiment] and [Intent]; ['Reassured'] is only returned
    for the label [POSITIVE] with a score of at least 0.65 and
    ['Anxious'] only for [NEGATIVE] with a score of at least 0.65, so a
    failed classification or a score that is not a number gives
    ['Neutral']. *)
Theorem sentiment_closed_vocabulary (cfg : Config.config)
    (utterances : list string) (classified : option (string * float))
    (generated : string) (record : dict json) :
  LLM.analyze_sentiment_intent cfg utterances classified generated = Ok record ->
  keys record = ["Sentiment"; "Intent"] /\
  exists s,
    get "Sentiment" record = Some (JStr s) /\
    In s ["Anxious"; "Neutral"; "Reassured"] /\
    (s = "Reassured" ->
     exists x, classified = Some ("POSITIVE", x) /\
               PrimFloat.leb LLM.positive_threshold x = true) /\
    (s = "Anxious" ->
     exists x, classified = Some ("NEGATIVE", x) /\
               PrimFloat.leb LLM.negative_threshold x = true).
Proof.
  unfold LLM.analyze_sentiment_intent.
  destruct utterances as [|u us].
  - intros [= <-]. split; [reflexivity|].
    exists "Neutral". simpl. repeat split; auto; discriminate.
  - destruct (LLM.analyze_intent cfg generated) as [intent|e]; simpl;
      [|discriminate].
    intros [= <-]. split; [reflexivity|].
    exists (LLM.analyze_sentiment classified). split; [reflexivity|].
    apply analyze_sentiment_cases.
Qed.

(** The record for a confident positive classification. *)
Lemma sentiment_closed_vocabulary_witness :
  keys [ ("Sentiment", JStr "Reassured"); ("Intent", JStr "Neutral update") ]
    = ["Sentiment"; "Intent"] /\
  exists s,
    get "Sentiment"
        [ ("Sentiment", JStr "Reassured"); ("Intent", JStr "Neutral update") ]
      = Some (JStr s) /\
    In s ["Anxious"; "Neutral"; "Reassured"] /\
    (s = "Reassured" ->
     exists x, Some ("POSITIVE", 0x1.e666666666666p-1%float) = Some ("POSITIVE", x) /\
               PrimFloat.leb LLM.positive_threshold x = true) /\
    (s = "Anxious" ->
     exists x, Some ("POSITIVE", 0x1.e666666666666p-1%float) = Some ("NEGATIVE", x) /\
               PrimFloat.leb LLM.negative_threshold x = true).
Proof.
  apply (sentiment_closed_vocabulary Config.CONFIG ["I feel much better"]
           (Some ("POSITIVE", 0x1.e666666666666p-1%float)) "Neutral update").
  reflexivity.
Defined.

End ValidatorExtras.

(** ** Segmentation and cleaning, further *)

Module TextFacts.
Import PyStr Re Config Preprocessing Lines Blanks ReFacts CleanFacts SegmentFacts.

Lemma split_nl_cons (s : string) : exists h t, split_nl s = h :: t.
Proof.
  induction s as [|c s [h [t IH]]]; simpl; eauto.
  destruct (Ascii.eqb c newline); eauto. rewrite IH. eauto.
Qed.

(** Splitting two texts joined by a newline gives the lines of the
    first followed by the lines of the second. *)
Lemma split_nl_join (a b : string) :
  split_nl (a ++ String newline b) = (split_nl a ++ split_nl b)%list.
Proof.
  induction a as [|c a IH]; simpl.
  - reflexivity.
  - destruct (Ascii.eqb c newline); rewrite IH; [reflexivity|].
    destruct (split_nl_cons a) as [h [t ->]]. reflexivity.
Qed.

(** A turn is never empty and has no whitespace at its ends. *)
Lemma fate_turn (cfg : config) (l u : string) :
  fate_of cfg l = DoctorTurn u \/ fate_of cfg l = PatientTurn u ->
  is_empty u = false /\ strip u = u.
Proof.
  unfold fate_of. destruct (is_empty (strip l)); [intros [H|H]; discriminate|].
  destruct (first_match (doctor_patterns cfg) _) as [pd|].
  - destruct (is_empty (clean_line pd _)) eqn:E; intros [H|H]; try discriminate.
    injection H as <-. split; [assumption | apply strip_strip].
  - destruct (first_match (patient_patterns cfg) _) as [pp|];
      [|intros [H|H]; discriminate].
    destruct (is_empty (clean_line pp _)) eqn:E; intros [H|H]; try discriminate.
    injection H as <-. split; [assumption | apply strip_strip].
Qed.

(** *** Blanks and the other characters *)

Lemma blank_is_space (c : ascii) : is_blank c = true -> is_space c = true.
Proof.
  destruct c as [[] [] [] [] [] [] [] []]; simpl; intros H;
    try reflexivity; discriminate H.
Qed.

Lemma rstrip_empty (s : string) : is_empty (rstrip s) = all_space s.
Proof.
  induction s as [|c s IH]; simpl; [reflexivity|].
  rewrite <- IH. destruct (is_space c); simpl; [|reflexivity].
  now destruct (is_empty (rstrip s)).
Qed.

Lemma all_space_non_blank (s : string) : all_space (non_blank s) = all_space s.
Proof.
  induction s as [|c s IH]; simpl; [reflexivity|].
  destruct (is_blank c) eqn:B; simpl.
  - now rewrite (blank_is_space c B).
  - now rewrite IH.
Qed.

Lemma non_blank_lstrip (s : string) : non_blank (lstrip s) = lstrip (non_blank s).
Proof.
  induction s as [|c s IH]; simpl; [reflexivity|].
  destruct (is_space c) eqn:S.
  - destruct (is_blank c); simpl; [assumption|]. now rewrite S.
  - destruct (is_blank c) eqn:B.
    + apply blank_is_space in B. congruence.
    + simpl. now rewrite B, S.
Qed.

Lemma non_blank_rstrip (s : string) : non_blank (rstrip s) = rstrip (non_blank s).
Proof.
  induction s as [|c s IH]; simpl; [reflexivity|].
  destruct (is_blank c) eqn:B.
  - rewrite (blank_is_space c B). simpl.
    destruct (is_empty (rstrip s)) eqn:E.
    + simpl. rewrite <- IH.
      destruct (rstrip s); [reflexivity | discriminate].
    + simpl. now rewrite B.
  - simpl. rewrite (rstrip_empty (non_blank s)), all_space_non_blank, <- (rstrip_empty s).
    destruct (is_space c && is_empty (rstrip s)); simpl; [reflexivity|].
    now rewrite B, IH.
Qed.

Lemma non_blank_strip (s : string) : non_blank (strip s) = strip (non_blank s).
Proof. unfold strip. now rewrite non_blank_rstrip, non_blank_lstrip. Qed.

Lemma non_blank_skip (s : string) : non_blank (skip_cls is_blank s) = non_blank s.
Proof.
  induction s as [|c s IH]; simpl; [reflexivity|].
  destruct (is_blank c) eqn:B; [assumption|]. simpl. now rewrite B.
Qed.

(** Replacing the runs of blanks touches no other character. *)
Lemma non_blank_sub_blanks (n : nat) :
  forall s prev, String.length s <= n ->
  non_blank (sub_go blanks " " prev s 0) = non_blank s.
Proof.
  induction n as [|n IH]; intros s prev Hl.
  - destruct s; [reflexivity | simpl in Hl; lia].
  - destruct s as [|c s]; [reflexivity|].
    rewrite sub_blanks_step. simpl in Hl. simpl non_blank at 2.
    destruct (is_blank c) eqn:B.
    + change (non_blank (String " " ?x)) with (non_blank x).
      rewrite IH; [apply non_blank_skip|].
      pose proof (skip_cls_length is_blank s). lia.
    + simpl. rewrite B. f_equal. apply IH. lia.
Qed.

(** When every filler compiles, the loop over the fillers ends. *)
Lemma sub_fillers_done (rc : string -> option pattern) (fillers : list string) :
  (forall filler, In filler fillers -> compile_filler rc filler <> None) ->
  forall text, exists cleaned, sub_fillers rc fillers text = inl cleaned.
Proof.
  induction fillers as [|w ws IH]; simpl; intros H text.
  - now exists text.
  - destruct (compile_filler rc w) as [p|] eqn:E.
    + apply IH. intros f Hf. apply H. now right.
    + exfalso. apply (H w); auto.
Qed.

End TextFacts.

Module TextExtras.
Import PyStr Re Config Preprocessing Lines Blanks ReFacts CleanFacts SegmentFacts
       TextFacts Samples.

(** X6.  Every utterance that segmentation puts into the doctor or the
    patient sequence is non-empty and has no whitespace at either end. *)
Theorem utterances_trimmed (cfg : config) (text u : string) :
  In u (doctor (split_speakers cfg text)) \/
  In u (patient (split_speakers cfg text)) ->
  is_empty u = false /\ strip u = u.
Proof.
  unfold split_speakers. cbn [doctor patient].
  destruct (fold_step cfg (split_nl text) (mkAcc [] [] 0)) as [Hd [Hp _]].
  cbn [doctor_lines patient_lines app] in Hd, Hp. rewrite Hd, Hp.
  intros [H|H]; apply in_flat_map in H; destruct H as [l [_ Hu]];
    apply (fate_turn cfg l u).
  - left. destruct (fate_of cfg l); simpl in Hu; try tauto.
    destruct Hu as [->|[]]. reflexivity.
  - right. destruct (fate_of cfg l); simpl in Hu; try tauto.
    destruct Hu as [->|[]]. reflexivity.
Qed.

(** The utterance of a doctor line with blanks around its content. *)
Lemma utterances_trimmed_witness :
  is_empty "How are you?" = false /\ strip "How are you?" = "How are you?".
Proof.
  apply (utterances_trimmed CONFIG "Doctor:    How are you?   " "How are you?").
  left. vm_compute. left. reflexivity.
Defined.

(** X7.  Segmentation works line by line: for two texts joined by a
    newline, the doctor and patient sequences are those of the first
    text followed by those of the second, and the turn and unmatched
    counts add up. *)
Theorem split_speakers_join (cfg : config) (a b : string) :
  doctor (split_speakers cfg (a ++ String newline b)) =
    (doctor (split_speakers cfg a) ++ doctor (split_speakers cfg b))%list /\
  patient (split_speakers cfg (a ++ String newline b)) =
    (patient (split_speakers cfg a) ++ patient (split_speakers cfg b))%list /\
  total_turns (meta (split_speakers cfg (a ++ String newline b))) =
    total_turns (meta (split_speakers cfg a))
    + total_turns (meta (split_speakers cfg b)) /\
  unmatched_lines (meta (split_speakers cfg (a ++ String newline b))) =
    unmatched_lines (meta (split_speakers cfg a))
    + unmatched_lines (meta (split_speakers cfg b)).
Proof.
  unfold split_speakers.
  cbn [doctor patient meta total_turns unmatched_lines].
  rewrite split_nl_join.
  destruct (fold_step cfg (split_nl a ++ split_nl b) (mkAcc [] [] 0)) as [Hd [Hp Hu]].
  destruct (fold_step cfg (split_nl a) (mkAcc [] [] 0)) as [Hda [Hpa Hua]].
  destruct (fold_step cfg (split_nl b) (mkAcc [] [] 0)) as [Hdb [Hpb Hub]].
  cbn [doctor_lines patient_lines unmatched app] in *.
  rewrite Hd, Hp, Hu, Hda, Hpa, Hua, Hdb, Hpb, Hub.
  rewrite !flat_map_app. unfold count. rewrite filter_app, !length_app.
  repeat split; lia.
Qed.

(** X8.  Unless a filler fails to compile as a regular expression (the
    handler then returns the text as it is at that moment, not
    stripped), the cleaned text has no whitespace at either end; with
    whitespace normalisation enabled and filler removal disabled it also
    contains no tab and no two spaces in a row. *)
Theorem clean_trimmed_and_tidy (re_compile : string -> option pattern)
    (cfg : config) (x : string) :
  (remove_fillers cfg = true ->
   forall filler, In filler (filler_words cfg) ->
                  compile_filler re_compile filler <> None) ->
  strip (clean_transcript re_compile cfg x) = clean_transcript re_compile cfg x /\
  (normalize_whitespace cfg = true -> remove_fillers cfg = false ->
   tidy (clean_transcript re_compile cfg x) = true).
Proof.
  intros H. unfold clean_transcript. split.
  - destruct (remove_fillers cfg); [|apply strip_strip].
    destruct (sub_fillers_done re_compile (filler_words cfg) (H eq_refl)
                (if normalize_whitespace cfg then sub blanks " " x else x))
      as [y ->].
    apply strip_strip.
  - intros -> ->. apply tidy_strip.
    apply (tidy_sub_blanks (String.length x)). lia.
Qed.

(** The cleaned form of a text with tabs and runs of spaces. *)
Lemma clean_trimmed_and_tidy_witness :
  tidy (clean_transcript sample_compile CONFIG
          (String (ascii_of_nat 9) "Doctor:   hello    there  ")) = true.
Proof.
  apply (proj2 (clean_trimmed_and_tidy sample_compile CONFIG
           (String (ascii_of_nat 9) "Doctor:   hello    there  ")
           ltac:(intros F; discriminate F)));
    reflexivity.
Defined.

(** X9.  With whitespace normalisation enabled and filler removal
    disabled, cleaning removes spaces and tabs only: apart from them the
    cleaned text consists of the characters of the trimmed input, all of
    them and in the same order (newlines inside the text included). *)
Theorem clean_keeps_other_characters (re_compile : string -> option pattern)
    (cfg : config) (x : string) :
  normalize_whitespace cfg = true -> remove_fillers cfg = false ->
  non_blank (clean_transcript re_compile cfg x) = non_blank (strip x).
Proof.
  intros N F. unfold clean_transcript. rewrite N, F.
  rewrite !non_blank_strip. f_equal. unfold sub.
  apply (non_blank_sub_blanks (String.length x)). lia.
Qed.

(** The characters other than blanks of a two-line text. *)
Lemma clean_keeps_other_characters_witness :
  non_blank (clean_transcript sample_compile CONFIG
               ("  Doctor:  hi" ++ String newline "Patient:   well  "))
  = non_blank (strip ("  Doctor:  hi" ++ String newline "Patient:   well  ")).
Proof.
  apply (clean_keeps_other_characters sample_compile CONFIG); reflexivity.
Defined.

End TextExtras.

(** ** Entity extraction *)

Module ExtractFacts.
Import PyStr Py Extract ExtractSpec CleanFacts.

Section Extraction.

Variable round : float -> Z -> float.
Variable lim : limits.

Lemma visit_cases (st : found) (r : raw_entity) :
  (visit round lim st r = st /\
   (~ passes lim r \/ In (lower (strip (word r))) (seen_texts st)))
  \/
  (visit round lim st r =
     mkFound (formatted st ++ [entity_of round r])%list
             (lower (strip (word r)) :: seen_texts st) /\
   passes lim r /\ ~ In (lower (strip (word r))) (seen_texts st)).
Proof.
  unfold visit, passes, entity_of.
  destruct (PrimFloat.ltb (score r) (confidence_threshold lim)) eqn:T.
  { left. split; [reflexivity|]. left. intros [H _]. discriminate. }
  destruct (String.length (strip (word r)) <=? min_entity_length lim) eqn:L.
  { left. split; [reflexivity|]. left. intros [_ H].
    apply Nat.leb_le in L. lia. }
  apply Nat.leb_gt in L.
  destruct (existsb _ _) eqn:S.
  - left. split; [reflexivity|]. right.
    apply existsb_exists in S. destruct S as [x [Hx E]].
    apply String.eqb_eq in E. now subst.
  - right. split; [reflexivity|]. split; [auto|].
    intros Hin. assert (X : existsb (String.eqb (lower (strip (word r))))
                                     (seen_texts st) = true).
    { apply existsb_exists. exists (lower (strip (word r))).
      split; [assumption | apply String.eqb_refl]. }
    congruence.
Qed.

Lemma visit_consistent (st : found) (r : raw_entity) :
  consistent st -> consistent (visit round lim st r).
Proof.
  intros [M N]. destruct (visit_cases st r) as [[-> _]|[-> [_ Hout]]].
  - split; assumption.
  - split; simpl.
    + rewrite map_app, M. reflexivity.
    + now constructor.
Qed.

Lemma fold_visit_consistent (raw : list raw_entity) :
  forall st, consistent st -> consistent (fold_left (visit round lim) raw st).
Proof.
  induction raw as [|r raw IH]; simpl; intros st H; [assumption|].
  apply IH. now apply visit_consistent.
Qed.

(** Every entity of the result was there before the loop or was made
    from a span that passes the filters. *)
Lemma fold_visit_origin (raw : list raw_entity) :
  forall st e,
  In e (formatted (fold_left (visit round lim) raw st)) ->
  In e (formatted st) \/ exists r, In r raw /\ passes lim r /\ e = entity_of round r.
Proof.
  induction raw as [|r raw IH]; simpl; intros st e H; [auto|].
  apply IH in H. destruct H as [H|[r' [Hr' H]]].
  - destruct (visit_cases st r) as [[E _]|[E [Hp _]]]; rewrite E in H.
    + auto.
    + simpl in H. apply in_app_iff in H. destruct H as [H|[<-|[]]]; eauto 6.
  - right. exists r'. tauto.
Qed.

(** The texts seen are never forgotten. *)
Lemma fold_visit_seen (raw : list raw_entity) :
  forall st t, In t (seen_texts st) ->
  In t (seen_texts (fold_left (visit round lim) raw st)).
Proof.
  induction raw as [|r raw IH]; simpl; intros st t H; [assumption|].
  apply IH. destruct (visit_cases st r) as [[-> _]|[-> _]]; simpl; auto.
Qed.

(** The text of every span that passes the filters has been seen. *)
Lemma fold_visit_complete (raw : list raw_entity) :
  forall st r, In r raw -> passes lim r ->
  In (lower (strip (word r))) (seen_texts (fold_left (visit round lim) raw st)).
Proof.
  induction raw as [|r0 raw IH]; simpl; intros st r Hin Hp; [destruct Hin|].
  destruct Hin as [->|Hin]; [|now apply IH].
  apply fold_visit_seen.
  destruct (visit_cases st r) as [[-> [Hn|Hs]]|[-> _]]; simpl; auto. tauto.
Qed.

Lemma fold_visit_length (raw : list raw_entity) :
  forall st,
  List.length (formatted (fold_left (visit round lim) raw st)) <=
  List.length (formatted st) + List.length raw.
Proof.
  induction raw as [|r raw IH]; simpl; intros st; [lia|].
  specialize (IH (visit round lim st r)).
  destruct (visit_cases st r) as [[E _]|[E _]]; rewrite E in IH |- *.
  - lia.
  - simpl in IH. rewrite length_app in IH. simpl in IH. lia.
Qed.

End Extraction.

Lemma take_length (n : nat) (s : string) :
  String.length (take n s) = Nat.min n (String.length s).
Proof.
  revert s. induction n as [|n IH]; intros s; [reflexivity|].
  destruct s as [|c s]; simpl; [reflexivity|]. now rewrite IH.
Qed.

Lemma take_all (n : nat) (s : string) : String.length s <= n -> take n s = s.
Proof.
  revert s. induction n as [|n IH]; intros s H.
  - destruct s; [reflexivity | simpl in H; lia].
  - destruct s as [|c s]; [reflexivity|]. simpl in *. f_equal. apply IH. lia.
Qed.

(** The text handed to the recogniser is the text cut at the cap. *)
Lemma capped_take (lim : limits) (text : string) :
  capped lim text = take (ner_max_chars lim) text.
Proof.
  unfold capped. destruct (ner_max_chars lim <? String.length text) eqn:E;
    [reflexivity|].
  apply Nat.ltb_ge in E. symmetry. now apply take_all.
Qed.

End ExtractFacts.

Module ExtractExtras.
Import PyStr Py Extract ExtractSpec CleanFacts ExtractFacts.

(** X10.  Every entity returned by [extract_entities] was made from a
    span of the recogniser whose score is not below the confidence
    threshold: its text is the span's word without surrounding
    whitespace and is longer than the minimum entity length, its type
    is the span's group, its confidence is the score rounded to 3
    digits, and a missing offset is 0. *)
Theorem extract_entities_filters (round : float -> Z -> float) (lim : limits)
    (ner_pipeline : string -> option (list raw_entity)) (text : string)
    (e : entity) :
  In e (extract_entities round lim ner_pipeline text) ->
  exists raw r,
    ner_pipeline (capped lim text) = Some raw /\ In r raw /\
    PrimFloat.ltb (score r) (confidence_threshold lim) = false /\
    ent_text e = strip (word r) /\
    strip (ent_text e) = ent_text e /\
    min_entity_length lim < String.length (ent_text e) /\
    ent_type e = entity_group r /\
    ent_confidence e = round (score r) 3%Z /\
    ent_start e = default_zero (raw_start r) /\
    ent_end e = default_zero (raw_end r).
Proof.
  unfold extract_entities.
  destruct (ner_pipeline (capped lim text)) as [raw|]; [|intros []].
  intros H. apply fold_visit_origin in H.
  destruct H as [[]|[r [Hr [[Ht Hl] ->]]]].
  exists raw, r. simpl. rewrite strip_strip. repeat split; auto.
Qed.

(** The first entity of the sample recogniser. *)
Lemma extract_entities_filters_witness :
  exists raw r,
    sample_pipeline (capped LIMITS "The patient has a fever and the flu.") = Some raw /\
    In r raw /\
    PrimFloat.ltb (score r) (confidence_threshold LIMITS) = false /\
    "Fever" = strip (word r) /\ strip "Fever" = "Fever" /\
    min_entity_length LIMITS < String.length "Fever" /\
    "Sign_symptom" = entity_group r /\
    0x1.e666666666666p-1%float = Samples.sample_round (score r) 3%Z /\
    3%Z = default_zero (raw_start r) /\ 8%Z = default_zero (raw_end r).
Proof.
  apply (extract_entities_filters Samples.sample_round LIMITS sample_pipeline
           "The patient has a fever and the flu."
           (mkEntity "Fever" "Sign_symptom" 0x1.e666666666666p-1%float 3 8)).
  simpl. auto.
Defined.

(** X11.  [extract_entities] removes duplicates by lower-cased text and
    nothing else: the texts of the entities returned are pairwise
    different when lower-cased; every span that passes the threshold
    and length filters is represented by an entity with the same
    lower-cased text; and no more entities are returned than the
    recogniser gave spans. *)
Theorem extract_entities_dedupes (round : float -> Z -> float) (lim : limits)
    (ner_pipeline : string -> option (list raw_entity)) (text : string) :
  NoDup (map (fun e => lower (ent_text e))
             (extract_entities round lim ner_pipeline text)) /\
  forall raw,
    ner_pipeline (capped lim text) = Some raw ->
    List.length (extract_entities round lim ner_pipeline text) <= List.length raw /\
    forall r,
      In r raw ->
      PrimFloat.ltb (score r) (confidence_threshold lim) = false ->
      min_entity_length lim < String.length (strip (word r)) ->
      exists e,
        In e (extract_entities round lim ner_pipeline text) /\
        lower (ent_text e) = lower (strip (word r)).
Proof.
  unfold extract_entities.
  destruct (ner_pipeline (capped lim text)) as [raw|];
    [|split; [constructor | discriminate]].
  assert (C : consistent (fold_left (visit round lim) raw (mkFound [] []))).
  { apply fold_visit_consistent. split; simpl; constructor. }
  destruct C as [M N]. split.
  - rewrite M. apply NoDup_rev. assumption.
  - intros raw' [= <-]. split.
    + apply (fold_visit_length round lim raw (mkFound [] [])).
    + intros r Hr Ht Hl.
      pose proof (fold_visit_complete round lim raw (mkFound [] []) r Hr
                    (conj Ht Hl)) as S.
      apply in_rev in S. rewrite <- M in S. apply in_map_iff in S.
      destruct S as [e [He Hin]]. eauto.
Qed.

(** X12.  The recogniser is only asked about the first [ner_max_chars]
    characters of the text: two texts that agree on these characters
    give the same entities, the text handed over is never longer than
    the cap, and when the recogniser fails the result is the empty
    list. *)
Theorem extract_entities_capped (round : float -> Z -> float) (lim : limits)
    (ner_pipeline : string -> option (list raw_entity)) (text other : string) :
  String.length (capped lim text) <= ner_max_chars lim /\
  (take (ner_max_chars lim) text = take (ner_max_chars lim) other ->
   extract_entities round lim ner_pipeline text =
   extract_entities round lim ner_pipeline other) /\
  (ner_pipeline (take (ner_max_chars lim) text) = None ->
   extract_entities round lim ner_pipeline text = []).
Proof.
  unfold extract_entities. rewrite !capped_take. split.
  - rewrite take_length. lia.
  - split.
    + now intros ->.
    + now intros ->.
Qed.

End ExtractExtras.

(** ** Unwrapping a fenced answer *)

Module JsonTextFacts.
Import PyStr JsonText Blanks CleanFacts.

Lemma starts_with_app (p s t : string) :
  starts_with p s = true -> starts_with p (s ++ t) = true.
Proof.
  revert s. induction p as [|a p IH]; intros s H; [reflexivity|].
  destruct s as [|b s]; [discriminate|]. simpl in *.
  apply andb_true_iff in H. destruct H as [E H].
  now rewrite E, IH.
Qed.

(** An occurrence in a part of the text is an occurrence in the text. *)
Lemma contains_app_l (p s t : string) :
  contains p s = true -> contains p (s ++ t) = true.
Proof.
  induction s as [|c s IH]; simpl; intros H.
  - rewrite orb_false_r in H. destruct p; [|discriminate].
    destruct t; reflexivity.
  - apply orb_true_iff in H. destruct H as [H|H].
    + change (String c (s ++ t)) with (String c s ++ t).
      now rewrite (starts_with_app p (String c s) t H).
    + rewrite (IH H). apply orb_true_r.
Qed.

Lemma contains_cons (p : string) (c : ascii) (s : string) :
  contains p s = true -> contains p (String c s) = true.
Proof. intros H. simpl. rewrite H. apply orb_true_r. Qed.

Lemma contains_drop (p : string) (n : nat) :
  forall s, contains p (drop n s) = true -> contains p s = true.
Proof.
  induction n as [|n IH]; intros s H; [now destruct s|].
  destruct s as [|c s]; [assumption|]. apply contains_cons, IH. exact H.
Qed.

Lemma contains_lstrip (p s : string) :
  contains p (lstrip s) = true -> contains p s = true.
Proof.
  induction s as [|c s IH]; [auto|].
  simpl lstrip. destruct (is_space c); [|auto].
  intros H. apply contains_cons, IH, H.
Qed.

Lemma rstrip_prefix (s : string) : exists t, s = rstrip s ++ t.
Proof.
  induction s as [|c s [t IH]]; simpl.
  - exists "". reflexivity.
  - destruct (is_space c && is_empty (rstrip s)).
    + exists (String c s). reflexivity.
    + exists t. simpl. now rewrite <- IH.
Qed.

Lemma contains_rstrip (p s : string) :
  contains p (rstrip s) = true -> contains p s = true.
Proof.
  intros H. destruct (rstrip_prefix s) as [t E]. rewrite E.
  now apply contains_app_l.
Qed.

Lemma contains_strip (p s : string) :
  contains p (strip s) = true -> contains p s = true.
Proof. intros H. now apply contains_lstrip, contains_rstrip. Qed.

(** [split] gives at least one piece. *)
Lemma split_go_cons (sep s : string) (skip : nat) :
  exists h t, split_go sep s skip = h :: t.
Proof.
  revert skip. induction s as [|c s IH]; intros skip; simpl; [eauto|].
  destruct skip as [|n]; [|apply IH].
  destruct (starts_with sep (String c s)); [eauto|].
  destruct (IH 0) as [h [t ->]]. eauto.
Qed.

(** No piece contains the separator, and the first piece starts the
    text. *)
Lemma split_go_pieces (sep : string) :
  sep <> "" ->
  forall s skip,
  Forall (fun p => contains sep p = false) (split_go sep s skip) /\
  (skip = 0 -> exists h t rest, split_go sep s 0 = h :: t /\ s = h ++ rest).
Proof.
  intros Hsep.
  assert (E : contains sep "" = false) by (destruct sep; [congruence | reflexivity]).
  induction s as [|c s IH]; intros skip.
  - simpl. split; [repeat constructor; assumption|].
    intros _. exists "", [], "". auto.
  - destruct skip as [|n].
    + simpl. destruct (starts_with sep (String c s)) eqn:S.
      * split.
        -- constructor; [assumption | apply IH].
        -- intros _. exists "", (split_go sep s (String.length sep - 1)), (String c s).
           auto.
      * destruct (IH 0) as [F P]. destruct (P eq_refl) as [h [t [rest [Eh Es]]]].
        rewrite Eh in F |- *. apply Forall_cons_iff in F. destruct F as [Fh Ft].
        split.
        -- constructor; [|assumption].
           simpl. rewrite Fh, orb_false_r.
           destruct (starts_with sep (String c h)) eqn:S'; [|reflexivity].
           apply (starts_with_app _ _ rest) in S'. simpl in S'. simpl in S.
           rewrite <- Es in S'. congruence.
        -- intros _. exists (String c h), t, rest. simpl. now rewrite <- Es.
    + simpl. split; [apply IH | discriminate].
Qed.

(** The piece behind a fence at the start of the text. *)
Lemma second_piece (s : string) :
  starts_with fence s = true ->
  exists part more,
    split fence s = EmptyString :: part :: more /\ contains fence part = false.
Proof.
  intros H. unfold split.
  destruct s as [|c s]; [discriminate|].
  change (split_go fence (String c s) 0)
    with (if starts_with fence (String c s)
          then EmptyString :: split_go fence s (String.length fence - 1)
          else match split_go fence s 0 with
               | h :: t => String c h :: t
               | [] => [String c EmptyString]
               end).
  rewrite H.
  destruct (split_go_cons fence s (String.length fence - 1)) as [part [more E]].
  exists part, more. rewrite E. split; [reflexivity|].
  assert (Hf : fence <> "") by discriminate.
  pose proof (proj1 (split_go_pieces fence Hf s (String.length fence - 1))) as F.
  rewrite E in F. now inversion F.
Qed.

(** What [_clean_json_response] returns for a fenced answer. *)
Lemma clean_fenced (response : string) :
  starts_with fence (strip response) = true ->
  exists part,
    contains fence part = false /\
    clean_json_response response =
    strip (if starts_with "json" part || starts_with "JSON" part
           then drop 4 part else part).
Proof.
  intros H. unfold clean_json_response. rewrite H.
  destruct (second_piece _ H) as [part [more [E C]]]. rewrite E.
  exists part. auto.
Qed.

Lemma starts_with_contains (p s : string) :
  starts_with p s = true -> contains p s = true.
Proof. intros H. destruct s; simpl in *; now rewrite H. Qed.

(** The result for a fenced answer contains no fence. *)
Lemma clean_fenced_free (response : string) :
  starts_with fence (strip response) = true ->
  contains fence (clean_json_response response) = false.
Proof.
  intros H. destruct (clean_fenced response H) as [part [C ->]].
  destruct (contains fence (strip _)) eqn:X; [|reflexivity].
  apply contains_strip in X.
  destruct (starts_with "json" part || starts_with "JSON" part).
  - apply contains_drop in X. congruence.
  - congruence.
Qed.

(** *** A code block and its body *)

Lemma append_nil (s : string) : s ++ "" = s.
Proof. induction s as [|c s IH]; simpl; [reflexivity | now rewrite IH]. Qed.

Lemma append_assoc (a b c : string) : (a ++ b) ++ c = a ++ (b ++ c).
Proof. induction a as [|x a IH]; simpl; [reflexivity | now rewrite IH]. Qed.

Lemma split_go_skip (sep p u : string) :
  split_go sep (p ++ u) (String.length p) = split_go sep u 0.
Proof.
  induction p as [|c p IH]; simpl; [now destruct u | exact IH].
Qed.

Lemma starts_with_self (p u : string) : starts_with p (p ++ u) = true.
Proof.
  induction p as [|c p IH]; simpl; [reflexivity|].
  now rewrite Ascii.eqb_refl, IH.
Qed.

(** At an occurrence of the fence a piece ends. *)
Lemma split_go_fence (u : string) :
  split_go fence (fence ++ u) 0 = EmptyString :: split_go fence u 0.
Proof.
  change (fence ++ u) with (String "`" ("``" ++ u)).
  change (split_go fence (String "`" ("``" ++ u)) 0)
    with (if starts_with fence (fence ++ u)
          then EmptyString :: split_go fence ("``" ++ u) (String.length "``")
          else match split_go fence ("``" ++ u) 0 with
               | h :: t => String "`" h :: t
               | [] => [String "`" EmptyString]
               end).
  now rewrite starts_with_self, split_go_skip.
Qed.

Lemma no_backquote_cons (c : ascii) (s : string) :
  no_backquote (String c s) = true ->
  Ascii.eqb "`" c = false /\ no_backquote s = true.
Proof.
  unfold no_backquote. intros H. apply negb_true_iff in H.
  change (contains "`" (String c s))
    with ((Ascii.eqb "`" c && true) || contains "`" s) in H.
  rewrite andb_true_r in H. apply orb_false_iff in H. destruct H as [H1 H2].
  split; [assumption | now apply negb_true_iff].
Qed.

(** A text without backquote before a fence is one piece. *)
Lemma split_go_plain (t u : string) :
  no_backquote t = true ->
  split_go fence (t ++ fence ++ u) 0 = t :: split_go fence u 0.
Proof.
  induction t as [|c t IH]; intros H.
  - apply split_go_fence.
  - apply no_backquote_cons in H. destruct H as [Hc Ht].
    change (split_go fence (String c t ++ fence ++ u) 0)
      with (if starts_with fence (String c (t ++ fence ++ u))
            then EmptyString :: split_go fence (t ++ fence ++ u)
                                  (String.length fence - 1)
            else match split_go fence (t ++ fence ++ u) 0 with
                 | h :: tl => String c h :: tl
                 | [] => [String c EmptyString]
                 end).
    assert (S : starts_with fence (String c (t ++ fence ++ u)) = false).
    { change (starts_with fence (String c (t ++ fence ++ u)))
        with (Ascii.eqb "`" c && starts_with "``" (t ++ fence ++ u)).
      now rewrite Hc. }
    rewrite S, (IH Ht). reflexivity.
Qed.

Lemma rstrip_all_space (w : string) : all_space w = true -> rstrip w = "".
Proof.
  intros H. rewrite <- TextFacts.rstrip_empty in H.
  destruct (rstrip w); [reflexivity | discriminate].
Qed.

Lemma rstrip_app_space (x w : string) :
  all_space w = true -> rstrip (x ++ w) = rstrip x.
Proof.
  intros H. induction x as [|c x IH]; simpl.
  - now apply rstrip_all_space.
  - now rewrite IH.
Qed.

Lemma lstrip_all_space (w : string) : all_space w = true -> lstrip w = "".
Proof.
  induction w as [|c w IH]; simpl; [reflexivity|].
  intros H. apply andb_true_iff in H. destruct H as [-> H]. auto.
Qed.

(** Whitespace behind a text does not change the trimmed text. *)
Lemma strip_app_space (b w : string) :
  all_space w = true -> strip (b ++ w) = strip b.
Proof.
  intros H. unfold strip. induction b as [|c b IH]; simpl.
  - now rewrite (lstrip_all_space w H).
  - destruct (is_space c); [exact IH|].
    change (String c (b ++ w)) with (String c b ++ w).
    now apply rstrip_app_space.
Qed.

(** A text that ends with a fence has nothing to trim at its end. *)
Lemma rstrip_app_fence (s : string) : rstrip (s ++ fence) = s ++ fence.
Proof.
  induction s as [|c s IH]; [reflexivity|].
  simpl. rewrite IH.
  destruct (s ++ fence) eqn:E; [|now rewrite andb_false_r].
  destruct s; discriminate.
Qed.

Lemma no_backquote_app (a b : string) :
  no_backquote a = true -> no_backquote b = true -> no_backquote (a ++ b) = true.
Proof.
  intros Ha Hb. induction a as [|c a IH]; [exact Hb|].
  apply no_backquote_cons in Ha. destruct Ha as [Hc Ha].
  unfold no_backquote in *.
  change (contains "`" (String c a ++ b))
    with ((Ascii.eqb "`" c && true) || contains "`" (a ++ b)).
  rewrite Hc. simpl. now apply IH.
Qed.

(** The pieces of a code block whose inside has no backquote. *)
Lemma split_fenced (t : string) :
  no_backquote t = true ->
  split fence (fence ++ t ++ fence) = [EmptyString; t; EmptyString].
Proof.
  intros H. unfold split. rewrite split_go_fence.
  rewrite <- (append_nil fence) at 2. rewrite (split_go_plain t "" H).
  reflexivity.
Qed.

Lemma strip_block (t : string) : strip (fence ++ t ++ fence) = fence ++ t ++ fence.
Proof.
  unfold strip. change (lstrip (fence ++ t ++ fence)) with (fence ++ t ++ fence).
  rewrite <- append_assoc. apply rstrip_app_fence.
Qed.

(** Unwrapping a block whose inside has no backquote. *)
Lemma clean_block (t : string) :
  no_backquote t = true ->
  clean_json_response (fence ++ t ++ fence) =
  strip (if starts_with "json" t || starts_with "JSON" t then drop 4 t else t).
Proof.
  intros H. unfold clean_json_response.
  rewrite strip_block, starts_with_self, (split_fenced t H). reflexivity.
Qed.

Lemma strip_line (body : string) :
  strip (String newline (body ++ String newline "")) = strip body.
Proof.
  change (strip (String newline (body ++ String newline "")))
    with (strip (body ++ String newline "")).
  now apply strip_app_space.
Qed.

End JsonTextFacts.

Module JsonTextExtras.
Import PyStr JsonText CleanFacts JsonTextFacts.

(** X13.  [_clean_json_response] returns an answer that does not start
    with a fence trimmed and otherwise unchanged; for an answer that
    starts with a fence (after trimming) the result contains no fence
    at all. *)
Theorem clean_json_response_fence (response : string) :
  (starts_with fence (strip response) = false ->
   clean_json_response response = strip response) /\
  (starts_with fence (strip response) = true ->
   contains fence (clean_json_response response) = false).
Proof.
  split.
  - intros H. unfold clean_json_response. rewrite H. apply strip_strip.
  - apply clean_fenced_free.
Qed.

(** X14.  [_clean_json_response] is idempotent, and its result has no
    whitespace at either end. *)
Theorem clean_json_response_idempotent (response : string) :
  clean_json_response (clean_json_response response) =
    clean_json_response response /\
  strip (clean_json_response response) = clean_json_response response.
Proof.
  assert (T : strip (clean_json_response response) = clean_json_response response).
  { unfold clean_json_response. apply strip_strip. }
  split; [|exact T].
  assert (N : starts_with fence (clean_json_response response) = false).
  { destruct (starts_with fence (strip response)) eqn:F.
    - destruct (starts_with fence (clean_json_response response)) eqn:S;
        [|reflexivity].
      apply starts_with_contains in S.
      rewrite (clean_fenced_free response F) in S. discriminate.
    - unfold clean_json_response. rewrite F, strip_strip. exact F. }
  unfold clean_json_response at 1. rewrite T, N. exact T.
Qed.

(** X15.  A code block (the fence, no tag or the tag [json] or [JSON],
    the body on lines of its own, the fence) whose body holds no
    backquote is unwrapped to its body without surrounding whitespace. *)
Theorem clean_json_response_unwraps (tag body : string) :
  tag = "" \/ tag = "json" \/ tag = "JSON" ->
  no_backquote body = true ->
  clean_json_response (fenced tag body) = strip body.
Proof.
  intros Htag Hb.
  assert (E : fenced tag body =
              fence ++ (tag ++ String newline (body ++ String newline "")) ++ fence).
  { unfold fenced. f_equal. rewrite append_assoc. f_equal. simpl. f_equal.
    now rewrite append_assoc. }
  assert (Hn : no_backquote (String newline (body ++ String newline "")) = true).
  { change (String newline (body ++ String newline ""))
      with (String newline "" ++ (body ++ String newline "")).
    apply no_backquote_app; [reflexivity|].
    apply no_backquote_app; [assumption | reflexivity]. }
  rewrite E, clean_block.
  - destruct Htag as [-> | [-> | ->]]; apply strip_line.
  - apply no_backquote_app; [|exact Hn].
    destruct Htag as [-> | [-> | ->]]; reflexivity.
Qed.

(** A JSON object in a block tagged [json]. *)
Lemma clean_json_response_unwraps_witness :
  clean_json_response (fenced "json" "{ }") = strip "{ }".
Proof.
  apply clean_json_response_unwraps; [right; left; reflexivity | reflexivity].
Defined.

End JsonTextExtras.

(** ** The composite result and categorisation, further *)

Module CompositeFacts.
Import PyStr Py Config PyFacts NER Measure NERFacts Recase.

Lemma upper_lower_c (c : ascii) : upper_c (lower_c c) = upper_c c.
Proof. destruct c as [[] [] [] [] [] [] [] []]; reflexivity. Qed.

Lemma upper_upper_c (c : ascii) : upper_c (upper_c c) = upper_c c.
Proof. destruct c as [[] [] [] [] [] [] [] []]; reflexivity. Qed.

Lemma upper_lower (s : string) : upper (lower s) = upper s.
Proof.
  unfold upper, lower. induction s as [|c s IH]; simpl; [reflexivity|].
  now rewrite upper_lower_c, IH.
Qed.

Lemma upper_upper (s : string) : upper (upper s) = upper s.
Proof.
  unfold upper. induction s as [|c s IH]; simpl; [reflexivity|].
  now rewrite upper_upper_c, IH.
Qed.

Lemma find_map {A} (f : A -> bool) (g : A -> A) (l : list A) :
  find f (map g l) = option_map g (find (fun x => f (g x)) l).
Proof.
  induction l as [|a l IH]; simpl; [reflexivity|].
  destruct (f (g a)); [reflexivity | exact IH].
Qed.

Lemma any_keyword_recase (f : string -> string) (label : string) (kws : list string) :
  (forall s, upper (f s) = upper s) ->
  any_keyword label (map f kws) = any_keyword label kws.
Proof.
  intros Hf. unfold any_keyword. induction kws as [|k kws IH]; simpl; [reflexivity|].
  now rewrite Hf, IH.
Qed.

(** The counts per category add up to the size of the mapping. *)
Lemma sum_counts (cats : dict (list entity)) :
  list_sum (values (map (fun item => (fst item, List.length (snd item))) cats)) =
  total_size cats.
Proof.
  unfold total_size, values. rewrite !map_map. reflexivity.
Qed.

Lemma find_same {A} (f g : A -> bool) (l : list A) :
  (forall x, f x = g x) -> find f l = find g l.
Proof.
  intros H. induction l as [|a l IH]; simpl; [reflexivity|].
  now rewrite H, IH.
Qed.

End CompositeFacts.

Module CompositeExtras.
Import PyStr Re Py Config Preprocessing PyFacts NER Measure NERFacts Main Recase
       CompositeFacts Samples.

(** X16.  A run that returns a composite result has passed the gate:
    the metadata in the result is that of the segmentation of the
    cleaned transcript, it counts at least one doctor turn and one
    patient turn, and at least 50 characters of cleaned text. *)
Theorem process_metadata
    (fsum : list float -> float) (truediv : float -> nat -> float)
    (round : float -> Z -> float) (re_compile : string -> option pattern)
    (cfg : config) (fs : files) (path now iso : string) (c : collaborators)
    (out : composite) :
  process fsum truediv round re_compile cfg fs path now iso c = Ok out ->
  exists raw,
    read_text fs path = Ok raw /\
    info_metadata (info out) =
      meta (split_speakers cfg (clean_transcript re_compile cfg raw)) /\
    1 <= doctor_turns (info_metadata (info out)) /\
    1 <= patient_turns (info_metadata (info out)) /\
    2 <= total_turns (info_metadata (info out)) /\
    50 <= total_characters (info_metadata (info out)) /\
    total_characters (info_metadata (info out)) =
      String.length (clean_transcript re_compile cfg raw).
Proof.
  intros E.
  destruct (MainFacts.process_inv fsum truediv round re_compile cfg fs path now
              iso c out E) as [raw [R [V [cats [si [_ [_ [-> _]]]]]]]].
  exists raw. split; [exact R|].
  cbn [Run.built info info_metadata]. split; [reflexivity|].
  unfold validate_transcript, split_speakers in V |- *.
  cbn [doctor patient full_text meta doctor_turns patient_turns total_turns
       total_characters] in V |- *.
  destruct (doctor_lines _) as [|d ds]; [discriminate|].
  destruct (patient_lines _) as [|p ps]; [discriminate|].
  apply negb_true_iff, Nat.ltb_ge in V. simpl. repeat split; lia.
Qed.

(** The metadata of the run on the sample transcript. *)
Lemma process_metadata_witness :
  match process sample_sum sample_div sample_round sample_compile CONFIG
          (disk sample_transcript) "visit.txt" "20240101_120000"
          "2024-01-01T12:00:00" sample_answers with
  | Ok out => 2 <= total_turns (info_metadata (info out))
  | Raise _ => False
  end.
Proof.
  destruct (process sample_sum sample_div sample_round sample_compile CONFIG
          (disk sample_transcript) "visit.txt" "20240101_120000"
          "2024-01-01T12:00:00" sample_answers) as [out|e] eqn:E.
  - destruct (process_metadata sample_sum sample_div sample_round sample_compile
                CONFIG (disk sample_transcript) "visit.txt" "20240101_120000"
                "2024-01-01T12:00:00" sample_answers out E)
      as [raw [_ [_ [_ [_ [H _]]]]]].
    exact H.
  - vm_compute in E. discriminate E.
Defined.

(** X17.  In a composite result the counts per category add up to the
    total number of entities, and there is one count for each
    configured category and one for the catch-all, empty categories
    included. *)
Theorem statistics_add_up
    (fsum : list float -> float) (truediv : float -> nat -> float)
    (round : float -> Z -> float) (re_compile : string -> option pattern)
    (cfg : config) (fs : files) (path now iso : string) (c : collaborators)
    (out : composite) :
  process fsum truediv round re_compile cfg fs path now iso c = Ok out ->
  list_sum (values (by_category (stats (entities out)))) =
    total (stats (entities out)) /\
  (forall k, In k (keys (by_category (stats (entities out)))) <->
             In k (keys (entity_categories cfg)) \/
             k = entity_default_category cfg).
Proof.
  intros E.
  destruct (MainFacts.process_inv fsum truediv round re_compile cfg fs path now
              iso c out E) as [raw [_ [_ [cats [si [Hc [_ [-> _]]]]]]]].
  cbn [Run.built entities stats Main.compute_statistics by_category total].
  unfold categorize_entities in Hc.
  destruct (fold_place_spec cfg (ner_entities c) (empty_categories cfg) eq_refl)
    as [cats' [Hc' [K [T _]]]].
  rewrite Hc in Hc'. injection Hc' as <-.
  split.
  - rewrite sum_counts, T, total_size_empty. reflexivity.
  - intros k. unfold keys at 1. rewrite map_map. cbn [fst].
    change (map (fun x => fst x) cats) with (keys cats).
    rewrite K. apply in_keys_empty.
Qed.

(** The counts of the run on the sample transcript. *)
Lemma statistics_add_up_witness :
  match process sample_sum sample_div sample_round sample_compile CONFIG
          (disk sample_transcript) "visit.txt" "20240101_120000"
          "2024-01-01T12:00:00" sample_answers with
  | Ok out =>
      list_sum (values (by_category (stats (entities out)))) =
      total (stats (entities out))
  | Raise _ => False
  end.
Proof.
  destruct (process sample_sum sample_div sample_round sample_compile CONFIG
          (disk sample_transcript) "visit.txt" "20240101_120000"
          "2024-01-01T12:00:00" sample_answers) as [out|e] eqn:E.
  - apply (statistics_add_up sample_sum sample_div sample_round sample_compile
             CONFIG (disk sample_transcript) "visit.txt" "20240101_120000"
             "2024-01-01T12:00:00" sample_answers out E).
  - vm_compute in E. discriminate E.
Defined.

(** X18.  Categorising two entity lists one after the other gives, for
    every category, the entities of the first list followed by those of
    the second: the place of an entity does not depend on the entities
    around it. *)
Theorem categorize_entities_app (cfg : config) (es1 es2 : list entity) :
  exists c1 c2 c12,
    categorize_entities cfg es1 = Ok c1 /\
    categorize_entities cfg es2 = Ok c2 /\
    categorize_entities cfg (es1 ++ es2) = Ok c12 /\
    keys c12 = keys c1 /\ keys c12 = keys c2 /\
    forall k l1 l2,
      get k c1 = Some l1 -> get k c2 = Some l2 ->
      get k c12 = Some (l1 ++ l2)%list.
Proof.
  unfold categorize_entities.
  destruct (fold_place_spec cfg es1 (empty_categories cfg) eq_refl)
    as [c1 [E1 [K1 [_ G1]]]].
  destruct (fold_place_spec cfg es2 (empty_categories cfg) eq_refl)
    as [c2 [E2 [K2 [_ G2]]]].
  destruct (fold_place_spec cfg (es1 ++ es2) (empty_categories cfg) eq_refl)
    as [c [E [K [_ G]]]].
  exists c1, c2, c. repeat split; try assumption; try congruence.
  intros k l1 l2 H1 H2. rewrite G1 in H1. rewrite G2 in H2. rewrite G.
  destruct (get k (empty_categories cfg)) as [l0|] eqn:G0; [|discriminate].
  simpl in *. injection H1 as <-. injection H2 as <-.
  rewrite (get_empty cfg k l0 G0). simpl. now rewrite filter_app.
Qed.

(** X19.  The category of an entity does not depend on the letter case
    of its type label nor on the letter case of the configured keywords:
    lower-casing or upper-casing either leaves the category as it is. *)
Theorem category_ignores_case (cfg : config) (e : entity) :
  category_of cfg (relabel (lower (ent_type e)) e) = category_of cfg e /\
  category_of cfg (relabel (upper (ent_type e)) e) = category_of cfg e /\
  category_of (rekey lower cfg) e = category_of cfg e /\
  category_of (rekey upper cfg) e = category_of cfg e.
Proof.
  assert (R : forall f, (forall s, upper (f s) = upper s) ->
                category_of (rekey f cfg) e = category_of cfg e).
  { intros f Hf. unfold category_of, first_category, rekey. cbn [entity_categories
      entity_default_category]. rewrite find_map. cbn [snd].
    rewrite (find_same _ (fun item => any_keyword (upper (ent_type e)) (snd item))).
    - now destruct (find _ _).
    - intros item. now apply any_keyword_recase. }
  unfold category_of at 1 3. unfold relabel. cbn [ent_type].
  rewrite upper_lower, upper_upper.
  repeat split; try reflexivity.
  - apply R, upper_lower.
  - apply R, upper_upper.
Qed.

End CompositeExtras.

(** ** Letter case of the transcript *)

Module CaseFacts.
Import PyStr Re Config Preprocessing Lines CaseMap ReFacts SegmentFacts.

Lemma code_bound (c : ascii) : code c < 256.
Proof. destruct c as [[] [] [] [] [] [] [] []]; vm_compute; lia. Qed.

Lemma blind_class_spec (g : ascii -> ascii) (f : ascii -> bool) :
  blind_class g f = true -> forall c, f (g c) = f c.
Proof.
  unfold blind_class. intros H c.
  rewrite forallb_forall in H.
  specialize (H (code c)). rewrite in_seq in H.
  unfold code in H. rewrite ascii_nat_embedding in H.
  apply eqb_prop, H. pose proof (code_bound c). unfold code in *. lia.
Qed.

Section Mapping.

(** A mapping of characters that changes at most the case of letters. *)
Variable g : ascii -> ascii.
Hypothesis g_lower : forall c, lower_c (g c) = lower_c c.
Hypothesis g_space : forall c, is_space (g c) = is_space c.
Hypothesis g_word : forall c, is_word (g c) = is_word c.
Hypothesis g_newline : forall c, Ascii.eqb (g c) newline = Ascii.eqb c newline.


Lemma gs_length (s : string) : String.length ((map_str g) s) = String.length s.
Proof. induction s as [|c s IH]; simpl; [reflexivity | now rewrite IH]. Qed.

Lemma gs_empty (s : string) : is_empty ((map_str g) s) = is_empty s.
Proof. now destruct s. Qed.

Lemma go_word (p : option ascii) : opt_word ((option_map g) p) = opt_word p.
Proof. destruct p; simpl; [apply g_word | reflexivity]. Qed.

Lemma head_gs (s : string) : head ((map_str g) s) = (option_map g) (head s).
Proof. now destruct s. Qed.

Lemma gs_lstrip (s : string) : lstrip ((map_str g) s) = (map_str g) (lstrip s).
Proof.
  induction s as [|c s IH]; simpl; [reflexivity|].
  rewrite g_space. now destruct (is_space c).
Qed.

Lemma gs_rstrip (s : string) : rstrip ((map_str g) s) = (map_str g) (rstrip s).
Proof.
  induction s as [|c s IH]; simpl; [reflexivity|].
  rewrite g_space, IH, gs_empty.
  now destruct (is_space c && is_empty (rstrip s)).
Qed.

Lemma gs_strip (s : string) : strip ((map_str g) s) = (map_str g) (strip s).
Proof. unfold strip. now rewrite gs_lstrip, gs_rstrip. Qed.

Lemma gs_split_nl (s : string) : split_nl ((map_str g) s) = map (map_str g) (split_nl s).
Proof.
  induction s as [|c s IH]; simpl; [reflexivity|].
  rewrite g_newline, IH. destruct (Ascii.eqb c newline); [reflexivity|].
  now destruct (split_nl s).
Qed.

(** *** The matcher *)

Lemma star_cls_map {A} (f : ascii -> bool) (s : string) :
  (forall c, f (g c) = f c) ->
  forall prev (k k' : option ascii -> string -> option A),
  (forall p rest, k' ((option_map g) p) ((map_str g) rest) = k p rest) ->
  star_cls f ((option_map g) prev) ((map_str g) s) k' = star_cls f prev s k.
Proof.
  intros Hf. induction s as [|c s IH]; intros prev k k' Hk; simpl.
  - apply (Hk prev "").
  - rewrite Hf. change (Some (g c)) with (option_map g (Some c)).
    rewrite (IH (Some c) k k' Hk).
    change (String (g c) (map_str g s)) with (map_str g (String c s)).
    now rewrite (Hk prev (String c s)).
Qed.

Lemma m_map {A} (r : regex) :
  blind g r = true ->
  forall prev s (k k' : option ascii -> string -> option A),
  (forall p rest, k' ((option_map g) p) ((map_str g) rest) = k p rest) ->
  m true r ((option_map g) prev) ((map_str g) s) k' = m true r prev s k.
Proof.
  induction r as [|c|f| |r1 IH1 r2 IH2|r1 IH1 r2 IH2|r1 IH1|f|f];
    simpl; intros B prev s k k' Hk.
  - apply Hk.
  - destruct s as [|c' s']; [reflexivity|]. simpl.
    unfold chr_eq. rewrite g_lower.
    destruct (Ascii.eqb (lower_c c) (lower_c c')); [apply (Hk (Some c')) | reflexivity].
  - destruct s as [|c' s']; [reflexivity|]. simpl.
    rewrite (blind_class_spec g f B).
    destruct (f c'); [apply (Hk (Some c')) | reflexivity].
  - rewrite go_word, head_gs, go_word.
    destruct (xorb _ _); [apply Hk | reflexivity].
  - apply andb_true_iff in B. destruct B as [B1 B2].
    apply IH1; [assumption|]. intros p rest. now apply IH2.
  - apply andb_true_iff in B. destruct B as [B1 B2].
    now rewrite (IH1 B1 prev s k k' Hk), (IH2 B2 prev s k k' Hk).
  - now rewrite (IH1 B prev s k k' Hk), (Hk prev s).
  - apply star_cls_map; [apply blind_class_spec|]; assumption.
  - destruct s as [|c' s']; [reflexivity|]. simpl.
    rewrite (blind_class_spec g f B).
    destruct (f c'); [|reflexivity].
    apply (star_cls_map f s' (blind_class_spec g f B) (Some c')). assumption.
Qed.

Lemma match_at_map (p : pattern) (prev : option ascii) (s : string) (adv : bool) :
  case_blind g p = true ->
  match_at p ((option_map g) prev) ((map_str g) s) adv = match_at p prev s adv.
Proof.
  unfold case_blind, match_at. intros B.
  apply andb_true_iff in B. destruct B as [I B]. rewrite I.
  apply m_map; [assumption|]. intros q rest. now rewrite !gs_length.
Qed.

Lemma sub_go_nil (p : pattern) (prev : option ascii) (n : nat) :
  sub_go p "" prev "" n = "".
Proof.
  destruct n as [|n]; [|reflexivity]. rewrite sub_go_search.
  destruct (match_at p prev "" false) as [[|k]|]; try reflexivity.
  now destruct (match_at p prev "" true) as [[|k]|].
Qed.

Lemma sub_go_cons (p : pattern) (prev : option ascii) (c : ascii) (s : string) :
  sub_go p "" prev (String c s) 0 =
  match match_at p prev (String c s) false with
  | Some (S n) => sub_go p "" (Some c) s n
  | Some 0 =>
      match match_at p prev (String c s) true with
      | Some (S n) => sub_go p "" (Some c) s n
      | _ => String c (sub_go p "" (Some c) s 0)
      end
  | None => String c (sub_go p "" (Some c) s 0)
  end.
Proof. reflexivity. Qed.

Lemma sub_go_map (p : pattern) (s : string) :
  case_blind g p = true ->
  forall prev n,
  sub_go p "" (option_map g prev) (map_str g s) n = map_str g (sub_go p "" prev s n).
Proof.
  intros B. induction s as [|c s IH]; intros prev n.
  - change (map_str g "") with "". now rewrite !sub_go_nil.
  - destruct n as [|n]; [|apply (IH (Some c))].
    change (map_str g (String c s)) with (String (g c) (map_str g s)).
    rewrite (sub_go_cons p (option_map g prev) (g c) (map_str g s)).
    rewrite (sub_go_cons p prev c s).
    change (String (g c) (map_str g s)) with (map_str g (String c s)).
    rewrite !match_at_map by assumption.
    change (Some (g c)) with (option_map g (Some c)).
    destruct (match_at p prev (String c s) false) as [[|k]|].
    + destruct (match_at p prev (String c s) true) as [[|k]|].
      * change (map_str g (String c ?x)) with (String (g c) (map_str g x)).
        f_equal. apply IH.
      * apply IH.
      * change (map_str g (String c ?x)) with (String (g c) (map_str g x)).
        f_equal. apply IH.
    + apply IH.
    + change (map_str g (String c ?x)) with (String (g c) (map_str g x)).
      f_equal. apply IH.
Qed.

Lemma clean_line_map (p : pattern) (line : string) :
  case_blind g p = true -> clean_line p ((map_str g) line) = (map_str g) (clean_line p line).
Proof.
  intros B. unfold clean_line, sub.
  rewrite <- gs_strip. f_equal. apply (sub_go_map p line B None 0).
Qed.

Lemma first_match_map (pats : list pattern) (line : string) :
  forallb (case_blind g) pats = true ->
  first_match pats ((map_str g) line) = first_match pats line.
Proof.
  unfold first_match. induction pats as [|p pats IH]; simpl; [reflexivity|].
  intros B. apply andb_true_iff in B. destruct B as [Bp B].
  unfold matches at 1 3.
  change (match_at p None ((map_str g) line) false)
    with (match_at p ((option_map g) None) ((map_str g) line) false).
  rewrite (match_at_map p None line false Bp).
  destruct (match_at p None line false); [reflexivity | now apply IH].
Qed.

Lemma first_match_in (pats : list pattern) (line : string) (p : pattern) :
  first_match pats line = Some p -> In p pats.
Proof. unfold first_match. intros H. now apply find_some in H. Qed.

(** The fate of the mapped line is the mapped fate of the line. *)
Lemma fate_of_map (cfg : config) (l : string) :
  forallb (case_blind g) (doctor_patterns cfg) = true ->
  forallb (case_blind g) (patient_patterns cfg) = true ->
  fate_of cfg ((map_str g) l) = map_fate (map_str g) (fate_of cfg l).
Proof.
  intros Bd Bp. unfold fate_of.
  rewrite gs_strip, gs_empty, !first_match_map by assumption.
  destruct (is_empty (strip l)); [reflexivity|].
  destruct (first_match (doctor_patterns cfg) (strip l)) as [pd|] eqn:Fd.
  - apply first_match_in in Fd.
    rewrite clean_line_map by exact (proj1 (forallb_forall _ _) Bd pd Fd).
    rewrite gs_empty. now destruct (is_empty (clean_line pd (strip l))).
  - destruct (first_match (patient_patterns cfg) (strip l)) as [pp|] eqn:Fp;
      [|reflexivity].
    apply first_match_in in Fp.
    rewrite clean_line_map by exact (proj1 (forallb_forall _ _) Bp pp Fp).
    rewrite gs_empty. now destruct (is_empty (clean_line pp (strip l))).
Qed.

Lemma turns_map (cfg : config) (ls : list string) :
  forallb (case_blind g) (doctor_patterns cfg) = true ->
  forallb (case_blind g) (patient_patterns cfg) = true ->
  flat_map (fun l => doctor_part (fate_of cfg l)) (map (map_str g) ls) =
    map (map_str g) (flat_map (fun l => doctor_part (fate_of cfg l)) ls) /\
  flat_map (fun l => patient_part (fate_of cfg l)) (map (map_str g) ls) =
    map (map_str g) (flat_map (fun l => patient_part (fate_of cfg l)) ls) /\
  count (fun l => is_unmatched (fate_of cfg l)) (map (map_str g) ls) =
    count (fun l => is_unmatched (fate_of cfg l)) ls.
Proof.
  intros Bd Bp. unfold count.
  induction ls as [|l ls [IHd [IHp IHu]]]; simpl; [auto|].
  rewrite !map_app, IHd, IHp, (fate_of_map cfg l Bd Bp).
  destruct (fate_of cfg l); simpl; auto.
Qed.

Lemma segmentation_map (cfg : config) (text : string) :
  forallb (case_blind g) (doctor_patterns cfg) = true ->
  forallb (case_blind g) (patient_patterns cfg) = true ->
  doctor (split_speakers cfg (map_str g text)) =
    map (map_str g) (doctor (split_speakers cfg text)) /\
  patient (split_speakers cfg (map_str g text)) =
    map (map_str g) (patient (split_speakers cfg text)) /\
  meta (split_speakers cfg (map_str g text)) = meta (split_speakers cfg text).
Proof.
  intros Bd Bp. unfold split_speakers. cbn [doctor patient meta].
  rewrite gs_split_nl, gs_length.
  destruct (fold_step cfg (map (map_str g) (split_nl text)) (mkAcc [] [] 0))
    as [Hd [Hp Hu]].
  destruct (fold_step cfg (split_nl text) (mkAcc [] [] 0)) as [Hd' [Hp' Hu']].
  destruct (turns_map cfg (split_nl text) Bd Bp) as [Td [Tp Tu]].
  cbn [doctor_lines patient_lines unmatched app] in *.
  rewrite Hd, Hp, Hu, Hd', Hp', Hu', Td, Tp, Tu, !length_map. auto.
Qed.

End Mapping.

Lemma lower_lower_c (c : ascii) : lower_c (lower_c c) = lower_c c.
Proof. destruct c as [[] [] [] [] [] [] [] []]; reflexivity. Qed.

Lemma lower_upper_c (c : ascii) : lower_c (upper_c c) = lower_c c.
Proof. destruct c as [[] [] [] [] [] [] [] []]; reflexivity. Qed.

Lemma space_lower_c (c : ascii) : is_space (lower_c c) = is_space c.
Proof. destruct c as [[] [] [] [] [] [] [] []]; reflexivity. Qed.

Lemma space_upper_c (c : ascii) : is_space (upper_c c) = is_space c.
Proof. destruct c as [[] [] [] [] [] [] [] []]; reflexivity. Qed.

Lemma word_upper_c (c : ascii) : is_word (upper_c c) = is_word c.
Proof. destruct c as [[] [] [] [] [] [] [] []]; reflexivity. Qed.

Lemma newline_lower_c (c : ascii) :
  Ascii.eqb (lower_c c) newline = Ascii.eqb c newline.
Proof. destruct c as [[] [] [] [] [] [] [] []]; reflexivity. Qed.

Lemma newline_upper_c (c : ascii) :
  Ascii.eqb (upper_c c) newline = Ascii.eqb c newline.
Proof. destruct c as [[] [] [] [] [] [] [] []]; reflexivity. Qed.

End CaseFacts.

Module CaseExtras.
Import PyStr Re Config Preprocessing Lines CaseMap CaseFacts.

(** X20.  Speaker recognition does not depend on letter case: when
    the speaker patterns are compiled with [re.IGNORECASE] and use only
    classes that do not tell upper case from lower case (as the
    configured ones do), lower-casing or upper-casing the whole text
    gives the same segmentation, with the utterances lower-cased or
    upper-cased, the same metadata and the same verdict of
    [validate_transcript]. *)
Theorem segmentation_ignores_case (cfg : config) (text : string) :
  forallb (fun p => case_blind lower_c p && case_blind upper_c p)
          (doctor_patterns cfg ++ patient_patterns cfg) = true ->
  (doctor (split_speakers cfg (lower text)) =
     map lower (doctor (split_speakers cfg text)) /\
   patient (split_speakers cfg (lower text)) =
     map lower (patient (split_speakers cfg text)) /\
   meta (split_speakers cfg (lower text)) = meta (split_speakers cfg text) /\
   validate_transcript (split_speakers cfg (lower text)) =
     validate_transcript (split_speakers cfg text)) /\
  (doctor (split_speakers cfg (upper text)) =
     map upper (doctor (split_speakers cfg text)) /\
   patient (split_speakers cfg (upper text)) =
     map upper (patient (split_speakers cfg text)) /\
   meta (split_speakers cfg (upper text)) = meta (split_speakers cfg text) /\
   validate_transcript (split_speakers cfg (upper text)) =
     validate_transcript (split_speakers cfg text)).
Proof.
  intros B. rewrite forallb_app in B. apply andb_true_iff in B.
  destruct B as [Bd Bp].
  assert (Split : forall g pats,
            forallb (fun p => case_blind lower_c p && case_blind upper_c p) pats = true ->
            (g = lower_c \/ g = upper_c) ->
            forallb (case_blind g) pats = true).
  { intros g pats H Hg. apply forallb_forall. intros p Hp.
    pose proof (proj1 (forallb_forall _ _) H p Hp) as Hb.
    apply andb_true_iff in Hb. destruct Hg as [-> | ->]; tauto. }
  assert (V : forall a b : string,
            doctor (split_speakers cfg a) = [] <-> doctor (split_speakers cfg b) = [] ->
            patient (split_speakers cfg a) = [] <-> patient (split_speakers cfg b) = [] ->
            String.length a = String.length b ->
            validate_transcript (split_speakers cfg a) =
            validate_transcript (split_speakers cfg b)).
  { intros a b Hd Hp Hl. unfold validate_transcript.
    change (full_text (split_speakers cfg a)) with a.
    change (full_text (split_speakers cfg b)) with b. rewrite Hl.
    destruct (doctor (split_speakers cfg a)) as [|x xs];
      destruct (doctor (split_speakers cfg b)) as [|y ys];
      try reflexivity;
      try (exfalso; destruct Hd as [H1 H2];
           (discriminate (H1 eq_refl) || discriminate (H2 eq_refl))).
    destruct (patient (split_speakers cfg a)) as [|x' xs'];
      destruct (patient (split_speakers cfg b)) as [|y' ys'];
      try reflexivity;
      exfalso; destruct Hp as [H1 H2];
      (discriminate (H1 eq_refl) || discriminate (H2 eq_refl)). }
  assert (Nil : forall (f : string -> string) (l : list string),
            map f l = [] <-> l = []).
  { intros f l. destruct l; simpl; split; congruence. }
  split.
  - destruct (segmentation_map lower_c lower_lower_c space_lower_c
                FillerFacts.is_word_lower newline_lower_c cfg text
                (Split lower_c _ Bd (or_introl eq_refl))
                (Split lower_c _ Bp (or_introl eq_refl))) as [D [P M]].
    repeat split; try assumption.
    apply V.
    + fold (lower text). unfold lower at 1. rewrite D. apply Nil.
    + unfold lower at 1. rewrite P. apply Nil.
    + unfold lower. apply gs_length.
  - destruct (segmentation_map upper_c lower_upper_c space_upper_c
                word_upper_c newline_upper_c cfg text
                (Split upper_c _ Bd (or_intror eq_refl))
                (Split upper_c _ Bp (or_intror eq_refl))) as [D [P M]].
    repeat split; try assumption.
    apply V.
    + unfold upper at 1. rewrite D. apply Nil.
    + unfold upper at 1. rewrite P. apply Nil.
    + unfold upper. apply gs_length.
Qed.

(** The configured patterns on an upper-case doctor line. *)
Lemma segmentation_ignores_case_witness :
  doctor (split_speakers CONFIG (upper "Doctor: How are you?")) =
  map upper (doctor (split_speakers CONFIG "Doctor: How are you?")).
Proof.
  apply (segmentation_ignores_case CONFIG "Doctor: How are you?").
  vm_compute. reflexivity.
Defined.

End CaseExtras.

(** ** Intent labels, rejected transcripts, lengths *)

Module MoreFacts.
Import PyStr Re Py Config Preprocessing Lines Fillers Labels ReFacts CleanFacts
       SegmentFacts.

Lemma starts_with_refl (s : string) : starts_with s s = true.
Proof.
  induction s as [|c s IH]; simpl; [reflexivity|].
  now rewrite Ascii.eqb_refl, IH.
Qed.

Lemma contains_refl (s : string) : contains s s = true.
Proof. destruct s; simpl; [reflexivity|]. now rewrite Ascii.eqb_refl, starts_with_refl. Qed.

(** Among independent labels, one whose lower-cased form occurs in
    that of another is that other. *)
Lemma independent_same (labels : list string) (a b : string) :
  independent labels = true -> In a labels -> In b labels ->
  contains (lower a) (lower b) = true -> a = b.
Proof.
  induction labels as [|x rest IH]; simpl; intros I Ha Hb C; [destruct Ha|].
  apply andb_true_iff in I. destruct I as [Ix Ir].
  rewrite forallb_forall in Ix.
  destruct Ha as [<-|Ha]; destruct Hb as [<-|Hb]; auto.
  - specialize (Ix b Hb). apply andb_true_iff in Ix. destruct Ix as [X _].
    rewrite C in X. discriminate.
  - specialize (Ix a Ha). apply andb_true_iff in Ix. destruct Ix as [_ X].
    rewrite C in X. discriminate.
Qed.

(** *** Lengths *)

Lemma lstrip_le (s : string) : String.length (lstrip s) <= String.length s.
Proof.
  induction s as [|c s IH]; simpl; [lia|]. destruct (is_space c); simpl; lia.
Qed.

Lemma rstrip_le (s : string) : String.length (rstrip s) <= String.length s.
Proof.
  induction s as [|c s IH]; simpl; [lia|].
  destruct (is_space c && is_empty (rstrip s)); simpl; lia.
Qed.

Lemma strip_le (s : string) : String.length (strip s) <= String.length s.
Proof.
  unfold strip. pose proof (rstrip_le (lstrip s)). pose proof (lstrip_le s). lia.
Qed.

(** Removing matches never lengthens the text. *)
Lemma sub_empty_le (p : pattern) (s : string) :
  forall prev n, String.length (sub_go p "" prev s n) <= String.length s.
Proof.
  induction s as [|c s IH]; intros prev n.
  - rewrite CaseFacts.sub_go_nil. simpl. lia.
  - destruct n as [|n].
    + rewrite CaseFacts.sub_go_cons.
      destruct (match_at p prev (String c s) false) as [[|k]|].
      * destruct (match_at p prev (String c s) true) as [[|k]|]; simpl;
          try (specialize (IH (Some c) 0); lia).
        specialize (IH (Some c) k). lia.
      * simpl. specialize (IH (Some c) k). lia.
      * simpl. specialize (IH (Some c) 0). lia.
    + simpl. specialize (IH (Some c) n). lia.
Qed.

(** Replacing each run of blanks by one space never lengthens it. *)
Lemma sub_blanks_le (n : nat) :
  forall s prev, String.length s <= n ->
  String.length (sub_go blanks " " prev s 0) <= String.length s.
Proof.
  induction n as [|n IH]; intros s prev Hl.
  - destruct s; [simpl; lia | simpl in Hl; lia].
  - destruct s as [|c s]; [simpl; lia|].
    rewrite sub_blanks_step. simpl in Hl.
    pose proof (skip_cls_length is_blank s) as K.
    destruct (is_blank c).
    + change (String.length (String " " ?x)) with (S (String.length x)).
      change (String.length (String c s)) with (S (String.length s)).
      specialize (IH (skip_cls is_blank s)
                     (prev_after (String.length s - String.length (skip_cls is_blank s))
                                 (Some c) s)).
      lia.
    + change (String.length (String c ?x)) with (S (String.length x)).
      specialize (IH s (Some c)). lia.
Qed.

(** Whether the loop over the fillers ends or is left by an
    exception, the text it leaves is not longer than the one it got. *)
Lemma sub_fillers_le (rc : string -> option pattern) (fillers : list string) :
  forall text,
    String.length (match sub_fillers rc fillers text with
                   | inl rest => strip rest
                   | inr rest => rest
                   end) <= String.length text.
Proof.
  induction fillers as [|f fs IH]; intros text; simpl.
  - apply strip_le.
  - destruct (compile_filler rc f) as [p|]; [|lia].
    specialize (IH (sub p "" text)).
    pose proof (sub_empty_le p text None 0). unfold sub in *. lia.
Qed.

Lemma clean_le (rc : string -> option pattern) (cfg : config) (x : string) :
  String.length (clean_transcript rc cfg x) <= String.length x.
Proof.
  unfold clean_transcript.
  set (y := if normalize_whitespace cfg then sub blanks " " x else x).
  assert (Hy : String.length y <= String.length x).
  { unfold y. destruct (normalize_whitespace cfg); [|lia].
    apply (sub_blanks_le (String.length x)). lia. }
  destruct (remove_fillers cfg).
  - pose proof (sub_fillers_le rc (filler_words cfg) y). lia.
  - pose proof (strip_le y). lia.
Qed.

(** *** Lines without a marker *)



End MoreFacts.

Module MoreExtras.
Import PyStr Re Py Config Preprocessing Lines Fillers Labels ReFacts CleanFacts
       SegmentFacts Main MoreFacts Samples.

(** X21.  When no configured intent label, lower-cased, occurs in
    another (as in the shipped configuration), an answer that is one of
    the labels in any letter case, with or without surrounding
    whitespace, is decoded to exactly that label. *)
Theorem intent_label_any_case (cfg : config) (label generated : string) :
  independent (intent_labels cfg) = true ->
  In label (intent_labels cfg) ->
  lower (strip generated) = lower label ->
  LLM.analyze_intent cfg generated = Ok label.
Proof.
  intros I Hin E. unfold LLM.analyze_intent.
  destruct (existsb _ _) eqn:X.
  - apply SchemaFacts.existsb_eqb_in in X. f_equal.
    apply (independent_same _ _ _ I X Hin). rewrite E. apply contains_refl.
  - rewrite E.
    destruct (find (fun intent => contains (lower intent) (lower label))
                   (intent_labels cfg)) as [x|] eqn:F.
    + apply find_some in F. destruct F as [Hx C]. f_equal.
      exact (independent_same _ _ _ I Hx Hin C).
    + exfalso. pose proof (find_none _ _ F label Hin) as N. simpl in N.
      rewrite contains_refl in N. discriminate.
Qed.

(** An upper-case answer with blanks around it. *)
Lemma intent_label_any_case_witness :
  LLM.analyze_intent CONFIG "  SEEKING REASSURANCE  " = Ok "Seeking reassurance".
Proof.
  apply intent_label_any_case; [reflexivity | simpl; tauto | reflexivity].
Defined.



(** X23.  Cleaning never makes the text longer, whatever the
    configuration and whatever the regular-expression compiler makes of
    the fillers; so the character count in the metadata of a composite
    result is at most the length of the text of the file, and a file of
    fewer than 50 characters is always rejected. *)
Theorem clean_never_longer
    (fsum : list float -> float) (truediv : float -> nat -> float)
    (round : float -> Z -> float) (re_compile : string -> option pattern)
    (cfg : config) (fs : files) (path now iso : string) (c : collaborators) :
  (forall raw,
     String.length (clean_transcript re_compile cfg raw) <= String.length raw) /\
  (forall out,
     process fsum truediv round re_compile cfg fs path now iso c = Ok out ->
     exists raw,
       read_text fs path = Ok raw /\
       total_characters (info_metadata (info out)) <= String.length raw) /\
  (forall raw,
     read_text fs path = Ok raw ->
     String.length raw < 50 ->
     process fsum truediv round re_compile cfg fs path now iso c =
     Raise (ValueError "Invalid transcript format")).
Proof.
  split; [intros raw; apply clean_le|]. split.
  - intros out E.
    destruct (MainFacts.process_inv fsum truediv round re_compile cfg fs path now
                iso c out E) as [raw [R [_ [cats [si [_ [_ [-> _]]]]]]]].
    exists raw. split; [exact R|]. exact (clean_le re_compile cfg raw).
  - intros raw R Hshort. pose proof (clean_le re_compile cfg raw) as L.
    apply (MainFacts.process_rejected _ _ _ _ _ _ _ _ _ raw); [exact R|].
    unfold validate_transcript.
    change (full_text (split_speakers cfg (clean_transcript re_compile cfg raw)))
      with (clean_transcript re_compile cfg raw).
    destruct (doctor _); [reflexivity|]. destruct (patient _); [reflexivity|].
    apply negb_false_iff, Nat.ltb_lt. lia.
Qed.

End MoreExtras.
